(** * Webhook authentication, session and token lifecycle of the Eloqua app

    A shallow embedding of [app/decorators.py], [app/database.py],
    [app/session.py], [app/auth.py] and [app/blueprints/oauth.py], and the
    properties of the signature validator, the replay cache, the session
    manager, the token manager and the OAuth callback that hold of them.

    Conventions of the embedding.
    - A Python [str] is represented by its UTF-8 encoding, a [string] of
      8-bit characters; [s.encode("utf-8")] is then the identity, and the
      code-point order of [str] is the byte order of [string].
    - [None] is [None] of an [option] type.
    - Clock readings ([time.time()], [datetime.utcnow()]) are whole seconds
      since the epoch, in [Z]; the server's time zone is UTC.
    - A MongoDB collection is the list of its documents in natural order;
      [find_one] and [update_one] act on the first match.
    - An exception is a value of [exn]; a function that may raise returns a
      [result]; a function with side effects also returns the new state. *)

From Stdlib Require Import ZArith List String Ascii Bool Lia Permutation.
From Stdlib Require Import Sorted OrderedTypeEx.
Import ListNotations.
Local Open Scope string_scope.
Local Open Scope Z_scope.

(** ** Exceptions and results *)

Inductive exn : Type :=
| TypeError
| ValueError
| AttributeError
| KeyError
| IndexError
| InvalidId
| DuplicateKeyError
| SessionExpired
| SessionNotFound
| BadRequestKeyError
| HTTPException (code : Z).

Inductive result (A : Type) : Type :=
| Ok (a : A)
| Raise (e : exn).

Arguments Ok {A} a.
Arguments Raise {A} e.

Definition bind {A B : Type} (r : result A) (k : A -> result B) : result B :=
  match r with
  | Ok a => k a
  | Raise e => Raise e
  end.

Notation "x <- r ;; k" := (bind r (fun x => k))
  (at level 61, r at next level, right associativity).

(** ** Python built-ins used by the application *)

Module Py.

(** [a == b] on [str]. *)
Definition str_eqb (a b : string) : bool := String.eqb a b.

(** [a < b] on [str]. *)
Definition str_ltb (a b : string) : bool :=
  match String.compare a b with
  | Lt => true
  | _ => false
  end.

(** [bool(s)] for a [str]: the empty string is falsy. *)
Definition truthy_str (s : string) : bool :=
  match s with
  | EmptyString => false
  | String _ _ => true
  end.

(** [bool(n)] for an [int]: zero is falsy. *)
Definition truthy_int (n : Z) : bool := negb (n =? 0).

(** [sep.join(l)]. *)
Fixpoint join (sep : string) (l : list string) : string :=
  match l with
  | [] => ""
  | [x] => x
  | x :: rest => x ++ sep ++ join sep rest
  end.

(** [s.startswith(p)]. *)
Fixpoint startswith (p s : string) : bool :=
  match p, s with
  | EmptyString, _ => true
  | String a p', String b s' => Ascii.eqb a b && startswith p' s'
  | String _ _, EmptyString => false
  end.

(** [s.replace(old, new)] for a non-empty [old]: the occurrences of [old]
    are replaced from left to right, without overlap.  [skip] counts the
    characters of a matched occurrence that are still to be dropped. *)
Fixpoint replace_from (old new : string) (skip : nat) (s : string) : string :=
  match s with
  | EmptyString => ""
  | String c s' =>
      match skip with
      | S k => replace_from old new k s'
      | O =>
          if startswith old s
          then new ++ replace_from old new (Nat.pred (String.length old)) s'
          else String c (replace_from old new 0 s')
      end
  end.

Definition replace (old new s : string) : string := replace_from old new 0 s.

(** [c in s] for a one-character [c]. *)
Fixpoint contains_char (c : ascii) (s : string) : bool :=
  match s with
  | EmptyString => false
  | String a s' => Ascii.eqb a c || contains_char c s'
  end.

(** [s.split(sep)] for a one-character separator: [acc] is the current
    field, in reverse. *)
Fixpoint split_from (sep : ascii) (acc : string) (s : string) : list string :=
  match s with
  | EmptyString => [acc]
  | String c s' =>
      if Ascii.eqb c sep
      then acc :: split_from sep "" s'
      else split_from sep (acc ++ String c "") s'
  end.

Definition split (sep : ascii) (s : string) : list string := split_from sep "" s.

(** *** [urllib.parse.quote] and [quote_plus] *)

Definition in_range (lo hi c : ascii) : bool :=
  (N.leb (N_of_ascii lo) (N_of_ascii c) && N.leb (N_of_ascii c) (N_of_ascii hi))%N.

(** [_ALWAYS_SAFE]: letters, digits and [_.-~]. *)
Definition always_safe (c : ascii) : bool :=
  in_range "A" "Z" c || in_range "a" "z" c || in_range "0" "9" c
  || Ascii.eqb c "_" || Ascii.eqb c "." || Ascii.eqb c "-" || Ascii.eqb c "~".

(** One upper-case hexadecimal digit. *)
Definition hex_digit (n : N) : ascii :=
  (if n <? 10 then ascii_of_N (48 + n) else ascii_of_N (55 + n))%N.

(** ['%{:02X}'.format(c)]. *)
Definition pct (c : ascii) : string :=
  String "%" (String (hex_digit (N_of_ascii c / 16))
                     (String (hex_digit (N_of_ascii c mod 16)) "")).

Definition quote_char (safe : ascii -> bool) (c : ascii) : string :=
  if always_safe c || safe c then String c "" else pct c.

(** [quote(s, safe=...)], the safe set given by its membership test. *)
Fixpoint quote_with (safe : ascii -> bool) (s : string) : string :=
  match s with
  | EmptyString => ""
  | String c s' => quote_char safe c ++ quote_with safe s'
  end.

Definition safe_slash (c : ascii) : bool := Ascii.eqb c "/".
Definition safe_none (c : ascii) : bool := false.
Definition safe_space (c : ascii) : bool := Ascii.eqb c " ".

(** [quote(s)]: the default safe set is ["/"]. *)
Definition quote (s : string) : string := quote_with safe_slash s.

(** [quote_plus(s)]: the default safe set is empty; a space becomes [+]. *)
Definition quote_plus (s : string) : string :=
  if contains_char " " s
  then replace " " "+" (quote_with safe_space s)
  else quote_with safe_none s.

(** *** [int(s)] on a [str]

    [int] reads a [str] by its code points: a code point below 127 stands
    for itself, a white space of the Unicode database for a space and a
    decimal digit of the database for the ASCII digit of its value; no
    other code point is part of a literal.  The tables are those of
    Unicode 14.0. *)

Definition no_code_point : N := 1114112.

(** A continuation byte of UTF-8, and the six bits it carries. *)
Definition continuation (c : ascii) : bool := in_range "128" "191" c.

Definition low6 (c : ascii) : N := (N_of_ascii c - 128)%N.

(** The code points of a [str], which is held as its UTF-8 bytes; a byte
    that starts no sequence of UTF-8 gives [no_code_point]. *)
Fixpoint code_points (s : string) : list N :=
  match s with
  | EmptyString => []
  | String a s1 =>
      let x := N_of_ascii a in
      if (x <? 128)%N then x :: code_points s1
      else
        match s1 with
        | String b s2 =>
            if ((192 <=? x) && (x <? 224))%N && continuation b
            then ((x - 192) * 64 + low6 b)%N :: code_points s2
            else
              match s2 with
              | String c s3 =>
                  if ((224 <=? x) && (x <? 240))%N && continuation b
                     && continuation c
                  then ((x - 224) * 4096 + low6 b * 64 + low6 c)%N
                       :: code_points s3
                  else
                    match s3 with
                    | String d s4 =>
                        if ((240 <=? x) && (x <? 248))%N && continuation b
                           && continuation c && continuation d
                        then ((x - 240) * 262144 + low6 b * 4096
                              + low6 c * 64 + low6 d)%N :: code_points s4
                        else no_code_point :: code_points s1
                    | EmptyString => no_code_point :: code_points s1
                    end
              | EmptyString => no_code_point :: code_points s1
              end
        | EmptyString => [no_code_point]
        end
  end.

(** [Py_UNICODE_ISSPACE] above the ASCII characters. *)
Definition unicode_space (cp : N) : bool :=
  existsb (N.eqb cp) [133; 160; 5760; 8232; 8233; 8239; 8287; 12288]%N
  || ((8192 <=? cp) && (cp <=? 8202))%N.

(** The first code point of each run of the ten decimal digits of a
    script, above the ASCII characters. *)
Definition decimal_zeros : list N :=
  [1632; 1776; 1984; 2406; 2534; 2662; 2790; 2918; 3046; 3174; 3302; 3430;
   3558; 3664; 3792; 3872; 4160; 4240; 6112; 6160; 6470; 6608; 6784; 6800;
   6992; 7088; 7232; 7248; 42528; 43216; 43264; 43472; 43504; 43600; 44016;
   65296; 66720; 68912; 69734; 69872; 69942; 70096; 70384; 70736; 70864;
   71248; 71360; 71472; 71904; 72016; 72784; 73040; 73120; 92768; 92864;
   93008; 120782; 120792; 120802; 120812; 120822; 123200; 123632; 125264;
   130032]%N.

(** [Py_UNICODE_TODECIMAL] above the ASCII characters. *)
Definition decimal_value (cp : N) : option N :=
  match find (fun zero => (zero <=? cp) && (cp <? zero + 10))%N decimal_zeros
  with
  | Some zero => Some (cp - zero)%N
  | None => None
  end.

(** The ASCII characters [int] parses in place of the code points, when
    each of them has one. *)
Fixpoint ascii_literal (l : list N) : option string :=
  match l with
  | [] => Some ""
  | cp :: l' =>
      let c := if (cp <? 127)%N then Some (ascii_of_N cp)
               else if unicode_space cp then Some " "%char
               else option_map (fun d => ascii_of_N (48 + d)) (decimal_value cp)
      in
      match c, ascii_literal l' with
      | Some c, Some s => Some (String c s)
      | _, _ => None
      end
  end.

(** [Py_ISSPACE]: the space and the characters 9 to 13. *)
Definition is_space (c : ascii) : bool :=
  Ascii.eqb c " " || in_range "009" "013" c.

Definition is_digit (c : ascii) : bool := in_range "0" "9" c.

Fixpoint lstrip (s : string) : string :=
  match s with
  | String c s' => if is_space c then lstrip s' else s
  | EmptyString => ""
  end.

Fixpoint rev_string (acc s : string) : string :=
  match s with
  | EmptyString => acc
  | String c s' => rev_string (String c acc) s'
  end.

(** The literal without the white space [int] skips at its two ends. *)
Definition strip (s : string) : string :=
  rev_string "" (lstrip (rev_string "" (lstrip s))).

(** The digits of a literal, a single underscore allowed between two
    digits: [after_digit] tells whether the previous character was a digit. *)
Fixpoint digits (acc : Z) (after_digit : bool) (s : string) : option Z :=
  match s with
  | EmptyString => if after_digit then Some acc else None
  | String c s' =>
      if is_digit c
      then digits (10 * acc + (Z.of_N (N_of_ascii c) - 48)) true s'
      else if Ascii.eqb c "_" && after_digit
           then match s' with
                | String d _ => if is_digit d then digits acc false s' else None
                | EmptyString => None
                end
           else None
  end.

Fixpoint count_digits (s : string) : Z :=
  match s with
  | EmptyString => 0
  | String c s' => (if is_digit c then 1 else 0) + count_digits s'
  end.

(** [sys.int_info.default_max_str_digits]: a literal of more digits is
    refused. *)
Definition max_str_digits : Z := 4300.

(** [int(s)]: white space at the two ends, an optional sign, decimal
    digits.  [None] stands for [ValueError]. *)
Definition int_of_str (s : string) : option Z :=
  match ascii_literal (code_points s) with
  | None => None
  | Some literal =>
      let literal := strip literal in
      if max_str_digits <? count_digits literal then None
      else match literal with
           | String "+" s' => digits 0 false s'
           | String "-" s' => option_map Z.opp (digits 0 false s')
           | s' => digits 0 false s'
           end
  end.

End Py.

(** ** [hashlib.sha1], [hmac.digest] and [base64.b64encode]

    Bytes are integers in [0, 256); a 32-bit word is an integer in
    [0, 2^32) and every word operation reduces modulo [2^32]. *)

Module Digest.

Local Open Scope list_scope.

Definition bytes := list Z.

Definition is_byte (b : Z) : Prop := 0 <= b < 256.

Definition bytes_of_string (s : string) : bytes :=
  map (fun c => Z.of_N (N_of_ascii c)) (list_ascii_of_string s).

Definition w32 (x : Z) : Z := x mod 4294967296.

Definition add32 (x y : Z) : Z := w32 (x + y).

Definition rotl (n x : Z) : Z :=
  w32 (Z.lor (Z.shiftl x n) (Z.shiftr x (32 - n))).

Definition not32 (x : Z) : Z := 4294967295 - x.

(** The big-endian word of four bytes, and back. *)
Definition word_of_bytes (b0 b1 b2 b3 : Z) : Z :=
  Z.lor (Z.shiftl b0 24) (Z.lor (Z.shiftl b1 16) (Z.lor (Z.shiftl b2 8) b3)).

Definition bytes_of_word (w : Z) : bytes :=
  [Z.shiftr w 24 mod 256; Z.shiftr w 16 mod 256; Z.shiftr w 8 mod 256; w mod 256].

Fixpoint words_of_bytes (l : bytes) : list Z :=
  match l with
  | b0 :: b1 :: b2 :: b3 :: rest => word_of_bytes b0 b1 b2 b3 :: words_of_bytes rest
  | _ => []
  end.

(** The message followed by [0x80], zeros up to 56 modulo 64, and the bit
    length on eight bytes. *)
Definition pad (msg : bytes) : bytes :=
  let len := Z.of_nat (List.length msg) in
  let zeros := Z.to_nat ((55 - len) mod 64) in
  let bits := 8 * len in
  msg ++ [128] ++ repeat 0 zeros
      ++ bytes_of_word (Z.shiftr bits 32 mod 4294967296)
      ++ bytes_of_word (bits mod 4294967296).

(** The message schedule, most recent word first. *)
Fixpoint extend (k : nat) (rev_ws : list Z) : list Z :=
  match k with
  | O => rev_ws
  | S k' =>
      let w := rotl 1 (Z.lxor (Z.lxor (nth 2 rev_ws 0) (nth 7 rev_ws 0))
                              (Z.lxor (nth 13 rev_ws 0) (nth 15 rev_ws 0))) in
      extend k' (w :: rev_ws)
  end.

Definition schedule (block : list Z) : list Z := rev (extend 64 (rev block)).

Definition state := (Z * Z * Z * Z * Z)%type.

Definition round (t : Z) (st : state) (w : Z) : state :=
  let '(a, b, c, d, e) := st in
  let '(f, k) :=
    if t <? 20 then (Z.lor (Z.land b c) (Z.land (not32 b) d), 1518500249)
    else if t <? 40 then (Z.lxor (Z.lxor b c) d, 1859775393)
    else if t <? 60
         then (Z.lor (Z.lor (Z.land b c) (Z.land b d)) (Z.land c d), 2400959708)
         else (Z.lxor (Z.lxor b c) d, 3395469782) in
  (add32 (add32 (add32 (add32 (rotl 5 a) f) e) k) w, a, rotl 30 b, c, d).

Fixpoint rounds (t : Z) (st : state) (ws : list Z) : state :=
  match ws with
  | [] => st
  | w :: ws' => rounds (t + 1) (round t st w) ws'
  end.

Definition compress (h : state) (block : list Z) : state :=
  let '(h0, h1, h2, h3, h4) := h in
  let '(a, b, c, d, e) := rounds 0 h (schedule block) in
  (add32 h0 a, add32 h1 b, add32 h2 c, add32 h3 d, add32 h4 e).

(** The blocks of sixteen words; [n] bounds the number of blocks. *)
Fixpoint blocks (n : nat) (ws : list Z) : list (list Z) :=
  match n, ws with
  | S n', _ :: _ => firstn 16 ws :: blocks n' (skipn 16 ws)
  | _, _ => []
  end.

Definition initial_state : state :=
  (1732584193, 4023233417, 2562383102, 271733878, 3285377520).

(** [hashlib.sha1(msg).digest()]. *)
Definition sha1 (msg : bytes) : bytes :=
  let ws := words_of_bytes (pad msg) in
  let '(h0, h1, h2, h3, h4) :=
    fold_left compress (blocks (List.length ws) ws) initial_state in
  bytes_of_word h0 ++ bytes_of_word h1 ++ bytes_of_word h2
    ++ bytes_of_word h3 ++ bytes_of_word h4.

Definition block_size : nat := 64.

(** [hmac.digest(key, msg, hashlib.sha1)]. *)
Definition hmac_sha1 (key msg : bytes) : bytes :=
  let key1 := if Nat.ltb block_size (List.length key) then sha1 key else key in
  let key2 := key1 ++ repeat 0 (block_size - List.length key1) in
  let inner := sha1 (map (Z.lxor 54) key2 ++ msg) in
  sha1 (map (Z.lxor 92) key2 ++ inner).

(** The character of a six-bit value in the standard alphabet. *)
Definition b64_char (n : Z) : ascii :=
  if n <? 26 then ascii_of_N (Z.to_N (65 + n))
  else if n <? 52 then ascii_of_N (Z.to_N (71 + n))
  else if n <? 62 then ascii_of_N (Z.to_N (n - 4))
  else if n =? 62 then "+"%char
  else "/"%char.

(** [base64.b64encode(l)], as a [string] of ASCII characters. *)
Fixpoint b64encode (l : bytes) : string :=
  match l with
  | [] => ""
  | [a] =>
      String (b64_char (a / 4)) (String (b64_char (a mod 4 * 16)) "==")
  | [a; b] =>
      String (b64_char (a / 4))
        (String (b64_char (a mod 4 * 16 + b / 16))
           (String (b64_char (b mod 16 * 4)) "="))
  | a :: b :: c :: rest =>
      String (b64_char (a / 4))
        (String (b64_char (a mod 4 * 16 + b / 16))
           (String (b64_char (b mod 16 * 4 + c / 64))
              (String (b64_char (c mod 64)) (b64encode rest))))
  end.

(** The lower-case hexadecimal rendering of a digest, for test vectors. *)
Definition hex_of_bytes (l : bytes) : string :=
  let digit n :=
    if n <? 10 then ascii_of_N (Z.to_N (48 + n)) else ascii_of_N (Z.to_N (87 + n)) in
  fold_right (fun b acc => String (digit (b / 16)) (String (digit (b mod 16)) acc)) "" l.

End Digest.

(** ** Dictionaries

    A [dict] keeps its keys in insertion order; assigning to a key that is
    present keeps its place. *)

Definition dict (V : Type) : Type := list (string * V).

Fixpoint dict_get {V : Type} (k : string) (d : dict V) : option V :=
  match d with
  | [] => None
  | (k', v) :: d' => if String.eqb k k' then Some v else dict_get k d'
  end.

Fixpoint dict_set {V : Type} (k : string) (v : V) (d : dict V) : dict V :=
  match d with
  | [] => [(k, v)]
  | (k', v') :: d' =>
      if String.eqb k k' then (k, v) :: d' else (k', v') :: dict_set k v d'
  end.

(** [{**d, **upd}]: the entries of [upd] assigned to [d] in order. *)
Definition dict_update {V : Type} (d upd : dict V) : dict V :=
  fold_left (fun acc kv => dict_set (fst kv) (snd kv) acc) upd d.

(** ** [app/database.py] *)

Module Database.

(** A [bson.ObjectId], held as its 24 lower-case hexadecimal digits. *)
Definition ObjectId : Type := string.

Definition is_hex (c : ascii) : bool :=
  Py.in_range "0" "9" c || Py.in_range "a" "f" c || Py.in_range "A" "F" c.

Definition lower (c : ascii) : ascii :=
  if Py.in_range "A" "Z" c then ascii_of_N (N_of_ascii c + 32) else c.

Fixpoint all_hex (s : string) : bool :=
  match s with
  | EmptyString => true
  | String c s' => is_hex c && all_hex s'
  end.

Fixpoint lower_str (s : string) : string :=
  match s with
  | EmptyString => ""
  | String c s' => String (lower c) (lower_str s')
  end.

(** [ObjectId(s)] for a [str]: [InvalidId] unless [s] is 24 hexadecimal
    digits. *)
Definition ObjectId_of_str (s : string) : result ObjectId :=
  if Nat.eqb (String.length s) 24 && all_hex s
  then Ok (lower_str s)
  else Raise InvalidId.

(** [str(oid)]. *)
Definition str_of_ObjectId (oid : ObjectId) : string := oid.

(** The bearer token, an opaque document. *)
Definition token : Type := dict string.

(** A document of [installations]: its string fields ([app_id],
    [install_id], [base_url], [_name], ...), the [config] field and the
    [oauth.token] field. *)
Record installation : Type := {
  i_fields : dict string;
  i_config : option (dict string);
  i_oauth_token : option token
}.

(** A document of [sessions]; [is_authed] may be absent. *)
Record session_doc : Type := {
  s_id : ObjectId;
  s_expires_in : Z;
  s_expires_at : Z;
  s_data : dict string;
  s_is_authed : option bool
}.

(** A document of [cache]; the values of [data] may be [None]. *)
Record cache_doc : Type := {
  c_expires_in : Z;
  c_expires_at : Z;
  c_data : dict (option string)
}.

(** The collections the [Database] object gives access to. *)
Record db : Type := {
  installations : list installation;
  sessions : list session_doc;
  cache : list cache_doc
}.

Definition with_installations (l : list installation) (d : db) : db :=
  {| installations := l; sessions := sessions d; cache := cache d |}.

Definition with_sessions (l : list session_doc) (d : db) : db :=
  {| installations := installations d; sessions := l; cache := cache d |}.

Definition with_cache (l : list cache_doc) (d : db) : db :=
  {| installations := installations d; sessions := sessions d; cache := l |}.

(** [collection.update_one(filter, update)]: the first document that
    matches is updated; the result tells whether one matched. *)
Fixpoint update_first {A : Type} (p : A -> bool) (f : A -> A) (l : list A)
  : bool * list A :=
  match l with
  | [] => (false, [])
  | x :: l' =>
      if p x then (true, f x :: l')
      else let '(m, l'') := update_first p f l' in (m, x :: l'')
  end.

(** [collection.delete_one(filter)]. *)
Fixpoint delete_first {A : Type} (p : A -> bool) (l : list A) : bool * list A :=
  match l with
  | [] => (false, [])
  | x :: l' =>
      if p x then (true, l')
      else let '(m, l'') := delete_first p l' in (m, x :: l'')
  end.

Definition _get_expiration_date (now expires_in : Z) : Z := now + expires_in.

(** *** Installations *)

Definition installation_matches (app_id install_id : string) (i : installation)
  : bool :=
  match dict_get "install_id" (i_fields i), dict_get "app_id" (i_fields i) with
  | Some iid, Some aid => String.eqb iid install_id && String.eqb aid app_id
  | _, _ => false
  end.

(** A key that [$set] reads as the name of a field of strings of an
    installation: it is not empty, has no dot, which would make it a path
    into an embedded document, and no null character, does not start with
    a dollar sign, and is none of [_id], [config] and [oauth], the fields
    that hold no string. *)
Definition field_name (k : string) : bool :=
  Py.truthy_str k && negb (Py.contains_char "." k)
  && negb (Py.contains_char "000" k)
  && negb (Py.startswith "$" k) && negb (String.eqb k "_id")
  && negb (String.eqb k "config") && negb (String.eqb k "oauth").

(** [update_installation(app_id, install_id, data, config)]; the [$set] of
    [data] is that of data whose keys are field names. *)
Definition update_installation (app_id install_id : string) (data : dict string)
    (config : option (dict string)) (d : db) : bool * db :=
  let set_fields i :=
    {| i_fields := dict_update (i_fields i) data;
       i_config := match config with
                   | Some (_ :: _) => config
                   | _ => i_config i
                   end;
       i_oauth_token := i_oauth_token i |} in
  let '(matched, l) :=
    update_first (installation_matches app_id install_id) set_fields
      (installations d) in
  (* matched_count < 1: a warning is logged *)
  if matched then (true, with_installations l d) else (false, d).

Definition get_installation (app_id install_id : string) (d : db)
  : option installation :=
  find (installation_matches app_id install_id) (installations d).

Definition get_token (app_id install_id : string) (d : db) : option token :=
  match get_installation app_id install_id d with
  | None => None
  | Some i => i_oauth_token i
  end.

Definition set_token (app_id install_id : string) (tok : option token) (d : db)
  : db :=
  let set_tok i :=
    {| i_fields := i_fields i; i_config := i_config i; i_oauth_token := tok |} in
  with_installations
    (snd (update_first (installation_matches app_id install_id) set_tok
            (installations d))) d.

(** *** Sessions *)

Definition has_id (oid : ObjectId) (s : session_doc) : bool :=
  String.eqb (s_id s) oid.

(** [set_session(data, session_id, expires_in, is_authed)]; [new_id] is
    the identifier the driver generates for an inserted document. *)
Definition set_session (data : dict string) (session_id : option string)
    (expires_in : Z) (is_authed : option bool) (now : Z) (new_id : ObjectId)
    (d : db) : result (option session_doc) * db :=
  let expires_at := _get_expiration_date now expires_in in
  match session_id with
  | None =>
      if existsb (has_id new_id) (sessions d)
      then (Raise DuplicateKeyError, d)
      else
        let doc := {| s_id := new_id; s_expires_in := expires_in;
                      s_expires_at := expires_at; s_data := data;
                      s_is_authed := is_authed |} in
        let d' := with_sessions (sessions d ++ [doc])%list d in
        (Ok (find (has_id new_id) (sessions d')), d')
  | Some sid =>
      match ObjectId_of_str sid with
      | Raise e => (Raise e, d)
      | Ok oid =>
          let set_doc s :=
            {| s_id := s_id s; s_expires_in := expires_in;
               s_expires_at := expires_at; s_data := data;
               s_is_authed := match is_authed with
                              | Some b => Some b
                              | None => s_is_authed s
                              end |} in
          let '(_, l) := update_first (has_id oid) set_doc (sessions d) in
          (* ReturnDocument.AFTER *)
          (Ok (find (has_id oid) l), with_sessions l d)
      end
  end.

(** [get_session(session_id, refresh_session)]: the document returned is
    the one read before the refresh. *)
Definition get_session (session_id : string) (refresh_session : bool) (now : Z)
    (d : db) : result (option session_doc) * db :=
  match ObjectId_of_str session_id with
  | Raise e => (Raise e, d)
  | Ok _id =>
      match find (has_id _id) (sessions d) with
      | Some result =>
          if refresh_session
          then
            let refresh s :=
              {| s_id := s_id s; s_expires_in := s_expires_in s;
                 s_expires_at := _get_expiration_date now (s_expires_in result);
                 s_data := s_data s; s_is_authed := s_is_authed s |} in
            (Ok (Some result),
             with_sessions (snd (update_first (has_id _id) refresh (sessions d))) d)
          else (Ok (Some result), d)
      | None => (Ok None, d)
      end
  end.

Definition delete_session (session_id : string) (d : db) : result bool * db :=
  match ObjectId_of_str session_id with
  | Raise e => (Raise e, d)
  | Ok _id =>
      let '(deleted, l) := delete_first (has_id _id) (sessions d) in
      (Ok deleted, with_sessions l d)
  end.

(** *** Cache *)

Definition default_cache_ttl : Z := 300.

(** [save_to_cache(data, expires_in)]. *)
Definition save_to_cache (data : dict (option string)) (expires_in : Z) (now : Z)
    (d : db) : db :=
  let doc := {| c_expires_in := expires_in;
                c_expires_at := _get_expiration_date now expires_in;
                c_data := data |} in
  with_cache (cache d ++ [doc])%list d.

(** The value a query on [data.<k>] compares: [None] when the field is
    null or absent. *)
Definition data_field (k : string) (c : cache_doc) : option string :=
  match dict_get k (c_data c) with
  | Some v => v
  | None => None
  end.

Definition opt_str_eqb (a b : option string) : bool :=
  match a, b with
  | Some x, Some y => String.eqb x y
  | None, None => true
  | _, _ => false
  end.

(** The query [_flatten_dict({"data": matching_data})]: a field
    [data.<k>] for each key of [matching_data], and for an empty
    [matching_data] the field [data] itself, to equal the empty document. *)
Definition cache_matches (matching_data : dict (option string)) (c : cache_doc)
  : bool :=
  match matching_data with
  | [] => match c_data c with
          | [] => true
          | _ :: _ => false
          end
  | _ :: _ =>
      forallb (fun kv => opt_str_eqb (data_field (fst kv) c) (snd kv))
              matching_data
  end.

Definition find_one_from_cache (matching_data : dict (option string)) (d : db)
  : option cache_doc :=
  find (cache_matches matching_data) (cache d).

(** *** The TTL indexes of [_ensure_collection_indexes]

    [_ensure_collection_indexes] declares on [sessions] and on [cache] an
    index that makes the store delete a document once its [_expires_at]
    has passed.  [Database.__init__] does not call it, the call is
    commented out, and no query reads [_expires_at]: the store of the
    application keeps every document until an operation deletes it, and no
    operation of this file applies [expire].  [expire] is the purge of a
    store that was given these indexes all the same; it serves to state
    that a property holds on such a store as well. *)
Definition expire (now : Z) (d : db) : db :=
  {| installations := installations d;
     sessions := filter (fun s => now <? s_expires_at s) (sessions d);
     cache := filter (fun c => now <? c_expires_at c) (cache d) |}.

End Database.

(** ** [app/session.py] *)

Module Session.

Import Database.

(** The two keys of [flask.session], the caller's signed cookie, that the
    application uses. *)
Record flask_session : Type := {
  fs_session_id : option string;
  fs_expires_at : option Z
}.

(** [flask_session.clear()]. *)
Definition cleared : flask_session :=
  {| fs_session_id := None; fs_expires_at := None |}.

(** The state a request handler works on. *)
Definition state : Type := (db * flask_session)%type.

(** A [Session] object: the [dict] it extends and its attributes. *)
Record Session : Type := {
  data : dict string;
  id : string;
  expires_at : Z;
  is_authed : bool
}.

Definition default_expires_in : Z := 3600.

(** [bool(flask_session.get("session_id"))]. *)
Definition id_bound (fs : flask_session) : bool :=
  match fs_session_id fs with
  | Some sid => Py.truthy_str sid
  | None => false
  end.

(** [expires_at and datetime.utcnow().timestamp() >= expires_at]. *)
Definition cached_expiry_passed (now : Z) (fs : flask_session) : bool :=
  match fs_expires_at fs with
  | Some e => Py.truthy_int e && (e <=? now)
  | None => false
  end.

(** The end of [Session.__init__]: the object built from the document and
    the cookie bound to it; [KeyError] when the document has no
    [is_authed]. *)
Definition bind_session (doc : session_doc) : result (Session * flask_session) :=
  match s_is_authed doc with
  | None => Raise KeyError
  | Some authed =>
      let self := {| data := s_data doc;
                     id := str_of_ObjectId (s_id doc);
                     expires_at := s_expires_at doc;
                     is_authed := authed |} in
      Ok (self, {| fs_session_id := Some (id self);
                   fs_expires_at := Some (expires_at self) |})
  end.

(** [Session.__init__(initial_data, is_authed, create_new)]. *)
Definition __init__ (initial_data : option (dict string)) (authed : bool)
    (create_new : bool) (now : Z) (new_id : ObjectId) (st : state)
  : result Session * state :=
  let '(d, fs) := st in
  let session_id := fs_session_id fs in
  (* Try to get the session from the database if a session ID is set. *)
  let '(looked_up, d1) :=
    match session_id with
    | Some sid =>
        if Py.truthy_str sid then get_session sid true now d else (Ok None, d)
    | None => (Ok None, d)
    end in
  match looked_up with
  | Raise e => (Raise e, (d1, fs))
  | Ok session_from_db =>
      if create_new then
        let '(deleted, d2) :=
          match session_from_db, session_id with
          | Some _, Some sid => delete_session sid d1
          | _, _ => (Ok false, d1)
          end in
        match deleted with
        | Raise e => (Raise e, (d2, fs))
        | Ok _ =>
            let initial := match initial_data with
                           | Some (kv :: l) => kv :: l
                           | _ => []
                           end in
            match set_session initial None default_expires_in (Some authed)
                    now new_id d2 with
            | (Raise e, d3) => (Raise e, (d3, fs))
            | (Ok None, d3) => (Raise TypeError, (d3, fs))
            | (Ok (Some doc), d3) =>
                match bind_session doc with
                | Raise e => (Raise e, (d3, fs))
                | Ok (self, fs') => (Ok self, (d3, fs'))
                end
            end
        end
      else
        match session_from_db with
        | None =>
            if id_bound fs || cached_expiry_passed now fs
            then (Raise SessionExpired, (d1, cleared))
            else (Raise SessionNotFound, (d1, cleared))
        | Some doc =>
            if cached_expiry_passed now fs
            then (Raise SessionExpired, (d1, cleared))
            else
              match bind_session doc with
              | Raise e => (Raise e, (d1, fs))
              | Ok (self, fs') => (Ok self, (d1, fs'))
              end
        end
  end.

(** [get_session()]. *)
Definition get_session (now : Z) (new_id : ObjectId) (st : state)
  : result Session * state :=
  __init__ None false false now new_id st.

(** [create_session(initial_data, is_authed)]. *)
Definition create_session (initial_data : option (dict string)) (authed : bool)
    (now : Z) (new_id : ObjectId) (st : state) : result Session * state :=
  __init__ initial_data authed true now new_id st.

(** [Session.__setitem__(key, value)]: the object after the assignment, the
    outcome and the store. *)
Definition __setitem__ (self : Session) (key value : string) (now : Z)
    (new_id : ObjectId) (d : db) : result unit * Session * db :=
  let self' := {| data := dict_set key value (data self);
                  id := id self;
                  expires_at := expires_at self;
                  is_authed := is_authed self |} in
  match set_session (data self') (Some (id self')) default_expires_in None
          now new_id d with
  | (Raise e, d') => (Raise e, self', d')
  | (Ok None, d') => (Raise SessionExpired, self', d')
  | (Ok (Some _), d') => (Ok tt, self', d')
  end.

(** The sessions that carry [is_authed], those [Session.__init__] creates,
    have the default duration. *)
Definition authed_default_ttl (d : db) : Prop :=
  forall doc, In doc (sessions d) -> s_is_authed doc <> None ->
              s_expires_in doc = default_expires_in.

End Session.

(** ** [app/decorators.py] *)

Module Decorators.

Import Database.

(** The inbound request: [request.method], [request.base_url] and
    [request.args], the pairs of the query string in order, decoded. *)
Record request : Type := {
  method : string;
  base_url : string;
  args : list (string * string)
}.

(** [current_app.config]. *)
Record config : Type := {
  CLOUD_APP_CLIENT_ID : string;
  CLOUD_APP_CLIENT_SECRET : string
}.

(** What a view returns. *)
Inductive response : Type :=
| Response (body : string) (status : Z)
| Redirect (location : string).

(** [request.args.get(key)]: the first value of the key. *)
Definition args_get (key : string) (r : request) : option string :=
  dict_get key (args r).

(** [request.args.to_dict()]: each key with its first value. *)
Fixpoint to_dict (l : list (string * string)) : dict string :=
  match l with
  | [] => []
  | (k, v) :: l' =>
      (k, v) :: filter (fun kv => negb (String.eqb (fst kv) k)) (to_dict l')
  end.

(** [a < b] on tuples of two [str]. *)
Definition pair_ltb (a b : string * string) : bool :=
  Py.str_ltb (fst a) (fst b)
  || (String.eqb (fst a) (fst b) && Py.str_ltb (snd a) (snd b)).

Fixpoint insert_sorted (x : string * string) (l : list (string * string))
  : list (string * string) :=
  match l with
  | [] => [x]
  | y :: l' => if pair_ltb y x then y :: insert_sorted x l' else x :: y :: l'
  end.

(** [sorted(items)]: a stable sort by [<]. *)
Definition sorted (l : list (string * string)) : list (string * string) :=
  fold_right insert_sorted [] l.

(** [quote(v).replace("+", "%20").replace("/", "%2F")]. *)
Definition encode_value (v : string) : string :=
  Py.replace "/" "%2F" (Py.replace "+" "%20" (Py.quote v)).

(** The dictionary [query_parameters] of [generate_signature]. *)
Definition query_parameters (r : request) : dict string :=
  map (fun kv => (fst kv, encode_value (snd kv)))
      (filter (fun kv => negb (String.eqb (fst kv) "oauth_signature"))
              (to_dict (args r))).

(** ["{}={}".format(k, v)]. *)
Definition format_pair (kv : string * string) : string :=
  fst kv ++ "=" ++ snd kv.

(** The signature message of [generate_signature]. *)
Definition signature_message (r : request) : string :=
  let message := method r ++ "&" in
  let base := Py.replace "http://" "https://" (base_url r) in
  let message := message ++ Py.quote_plus base ++ "&" in
  message ++ Py.quote (Py.join "&" (map format_pair (sorted (query_parameters r)))).

Definition signature_key (cfg : config) : string :=
  CLOUD_APP_CLIENT_SECRET cfg ++ "&".

(** [generate_signature()]: the bytes of the expected signature. *)
Definition generate_signature (cfg : config) (r : request) : string :=
  let message := Digest.bytes_of_string (signature_message r) in
  let key := Digest.bytes_of_string (signature_key cfg) in
  let hashed := Digest.hmac_sha1 key message in
  Digest.b64encode hashed.

Definition has_duplicates_in_cache (oauth_nonce oauth_timestamp : option string)
    (d : db) : bool :=
  match find_one_from_cache [("oauth_nonce", oauth_nonce);
                             ("oauth_timestamp", oauth_timestamp)] d with
  | Some _ => true
  | None => false
  end.

(** [_oauth_is_signature_valid()], at clock reading [now] ([time.time()]). *)
Definition _oauth_is_signature_valid (cfg : config) (now : Z) (r : request)
    (d : db) : result bool :=
  let oauth_consumer_key := args_get "oauth_consumer_key" r in
  let oauth_nonce := args_get "oauth_nonce" r in
  let oauth_timestamp := args_get "oauth_timestamp" r in
  let oauth_signature := args_get "oauth_signature" r in
  (* Check consumer key *)
  if negb (opt_str_eqb oauth_consumer_key (Some (CLOUD_APP_CLIENT_ID cfg)))
  then Ok false
  else
    (* Check if timestamp within last 5 min *)
    timestamp <- match oauth_timestamp with
                 | None => Raise TypeError
                 | Some t => match Py.int_of_str t with
                             | None => Raise ValueError
                             | Some n => Ok n
                             end
                 end ;;
    if now - 60 * 5 >? timestamp then Ok false
    else if has_duplicates_in_cache oauth_nonce oauth_timestamp d then Ok false
    else
      (* Validate oauth_signature against just created hash *)
      let generated_signature := generate_signature cfg r in
      match oauth_signature with
      | None => Raise AttributeError
      | Some s =>
          if negb (String.eqb s generated_signature) then Ok false else Ok true
      end.

(** The outcome of the signature check of a decorated view. *)
Inductive decision : Type :=
| ACCEPT
| REJECT
| ERROR (e : exn).

(** The check of [wrapper_decorator] and its write to the replay cache. *)
Definition check_signature (cfg : config) (now : Z) (r : request) (d : db)
  : decision * db :=
  match _oauth_is_signature_valid cfg now r d with
  | Ok true =>
      (ACCEPT,
       save_to_cache [("oauth_nonce", args_get "oauth_nonce" r);
                      ("oauth_timestamp", args_get "oauth_timestamp" r)]
                     default_cache_ttl now d)
  | Ok false => (REJECT, d)
  | Raise e => (ERROR e, d)
  end.

Definition view : Type := Session.state -> result response * Session.state.

(** [validate_oauth_signature(methods=..., create_new_session=...)(f)]. *)
Definition validate_oauth_signature (methods : option (list string))
    (create_new_session : bool) (cfg : config) (now : Z) (new_id : ObjectId)
    (r : request) (f : view) : view :=
  fun st =>
    let listed := match methods with
                  | Some ms => existsb (String.eqb (method r)) ms
                  | None => true
                  end in
    (* Do nothing if methods isn't None or isn't listed in methods *)
    if negb listed then f st
    else
      match check_signature cfg now r (fst st) with
      | (ACCEPT, d) =>
          if create_new_session
          then match Session.create_session None true now new_id (d, snd st) with
               | (Raise e, st') => (Raise e, st')
               | (Ok _, st') => f st'
               end
          else f (d, snd st)
      | (REJECT, d) => (Raise (HTTPException 401), (d, snd st))
      | (ERROR e, d) => (Raise e, (d, snd st))
      end.

(** The status code the framework answers with: an [HTTPException] gives
    its own code, any other exception is an unhandled error. *)
Definition status_of (r : result response) : Z :=
  match r with
  | Ok (Response _ status) => status
  | Ok (Redirect _) => 302
  | Raise (HTTPException code) => code
  | Raise BadRequestKeyError => 400
  | Raise _ => 500
  end.

End Decorators.

(** ** [app/auth.py] *)

Module Auth.

Import Database.

Record TokenManager : Type := {
  _app_id : string;
  _install_id : string;
  _token : option token
}.

(** [TokenManager(app_id, install_id)]. *)
Definition new_TokenManager (app_id install_id : string) : TokenManager :=
  {| _app_id := app_id; _install_id := install_id; _token := None |}.

(** [TokenManager.__call__(token)]. *)
Definition __call__ (self : TokenManager) (tok : option token) (d : db)
  : TokenManager * db :=
  let d' := set_token (_app_id self) (_install_id self) tok d in
  ({| _app_id := _app_id self; _install_id := _install_id self; _token := tok |},
   d').

(** [TokenManager.set(token)]. *)
Definition set (self : TokenManager) (tok : option token) (d : db)
  : TokenManager * db :=
  __call__ self tok d.

(** [TokenManager.get()]: the token and the manager with its cache filled. *)
Definition get (self : TokenManager) (d : db) : option token * TokenManager :=
  match _token self with
  | None =>
      let loaded := get_token (_app_id self) (_install_id self) d in
      (loaded, {| _app_id := _app_id self; _install_id := _install_id self;
                  _token := loaded |})
  | Some tok => (Some tok, self)
  end.

(** An [OAuth2State]; [tok] is [None] when a token is to be generated. *)
Record OAuth2State : Type := {
  session_id : string;
  tok : option string
}.

(** [OAuth2State.from_str(v)]. *)
Definition from_str (v : string) : result OAuth2State :=
  match Py.split "." v with
  | s0 :: s1 :: _ =>
      Ok {| session_id := s0;
            tok := if Py.truthy_str s1 then Some s1 else None |}
  | _ => Raise IndexError
  end.

End Auth.

(** ** [app/blueprints/oauth.py] *)

Module OAuth.

Import Database Decorators.

Section Callback.

(** The authorization server: [oauth.fetch_token(...)] for the request, and
    [oauth.get(ELOQUA_ENDPOINT_ID).json()["urls"]["base"]] for the token
    obtained. *)
Variable fetch_token : request -> result token.
Variable fetch_base_url : token -> result string.

(** [before_redirect], the hook of the subclass. *)
Variable before_redirect : db -> result unit * db.

(** [BaseOAuthCallbackView.dispatch_request()]. *)
Definition dispatch_request (cfg : config) (now : Z) (r : request) (d : db)
  : result response * db :=
  (* Parse the state *)
  match args_get "state" r with
  | None => (Raise BadRequestKeyError, d)
  | Some v =>
      match Auth.from_str v with
      | Raise e => (Raise e, d)
      | Ok state =>
          (* Get session data using the session_id provided by the state. *)
          match get_session (Auth.session_id state) true now d with
          | (Raise e, d1) => (Raise e, d1)
          | (Ok None, d1) => (Ok (Response "Session expired" 400), d1)
          | (Ok (Some session_), d1) =>
              let app_id := CLOUD_APP_CLIENT_ID cfg in
              match dict_get "redirect_url" (s_data session_),
                    dict_get "install_id" (s_data session_) with
              | Some redirect_url, Some install_id =>
                  let token_manager := Auth.new_TokenManager app_id install_id in
                  (* Fetch the token. *)
                  match fetch_token r with
                  | Raise e => (Raise e, d1)
                  | Ok new_token =>
                      let '(_, d2) :=
                        Auth.set token_manager (Some new_token) d1 in
                      (* Get the base URL for the installation. *)
                      match fetch_base_url new_token with
                      | Raise e => (Raise e, d2)
                      | Ok base =>
                          let '(_, d3) :=
                            update_installation app_id install_id
                              [("base_url", base)] None d2 in
                          match before_redirect d3 with
                          | (Raise e, d4) => (Raise e, d4)
                          | (Ok _, d4) => (Ok (Redirect redirect_url), d4)
                          end
                      end
                  end
              | _, _ => (Raise KeyError, d1)
              end
          end
      end
  end.

End Callback.

(** [DefaultOAuthCallbackView.before_redirect]: no operation. *)
Definition default_before_redirect (d : db) : result unit * db := (Ok tt, d).

End OAuth.

(** ** The signature as the specification words it *)

Module Spec.

Import Decorators.

(** The unreserved characters: the letters, the digits and [-._~]. *)
Definition unreserved (c : ascii) : bool :=
  let n := N_of_ascii c in
  (((65 <=? n) && (n <=? 90)) || ((97 <=? n) && (n <=? 122))
   || ((48 <=? n) && (n <=? 57)) || existsb (N.eqb n) [45; 46; 95; 126])%N.

(** The hexadecimal digit of a value below 16. *)
Definition hex (n : N) : ascii :=
  match String.get (N.to_nat n) "0123456789ABCDEF" with
  | Some c => c
  | None => "0"%char
  end.

(** A byte percent-encoded: an unreserved character is itself, any other
    byte is [%XX]. *)
Definition encode_byte (c : ascii) : string :=
  if unreserved c then String c ""
  else String "%" (String (hex (N_of_ascii c / 16))
                          (String (hex (N_of_ascii c mod 16)) "")).

(** [percent_encode], but for the bytes that [special] gives a spelling
    of their own. *)
Fixpoint percent_encode_but (special : ascii -> option string) (s : string)
  : string :=
  match s with
  | EmptyString => ""
  | String c s' =>
      match special c with
      | Some spelling => spelling
      | None => encode_byte c
      end ++ percent_encode_but special s'
  end.

(** [percent_encode]: every byte that is no unreserved character becomes
    [%XX], so that a space is [%20] and a slash is [%2F]. *)
Definition percent_encode (s : string) : string :=
  percent_encode_but (fun _ => None) s.

(** [percent_encode] with a space written [+]. *)
Definition percent_encode_space_as_plus (s : string) : string :=
  percent_encode_but (fun c => if Ascii.eqb c " " then Some "+" else None) s.

(** [percent_encode] with a slash left as it is. *)
Definition percent_encode_slash_kept (s : string) : string :=
  percent_encode_but (fun c => if Ascii.eqb c "/" then Some "/" else None) s.

(** [a < b] on the keys alone. *)
Definition key_ltb (a b : string * string) : bool := Py.str_ltb (fst a) (fst b).

Fixpoint insert_by_key (x : string * string) (l : list (string * string))
  : list (string * string) :=
  match l with
  | [] => [x]
  | y :: l' => if key_ltb y x then y :: insert_by_key x l' else x :: y :: l'
  end.

(** The pairs sorted lexicographically by key. *)
Definition sort_by_key (l : list (string * string)) : list (string * string) :=
  fold_right insert_by_key [] l.

(** All query parameters except [oauth_signature], each value
    percent-encoded, sorted by key, joined as [k=v] with [&]. *)
Definition sorted_query_string (r : request) : string :=
  let params :=
    filter (fun kv => negb (String.eqb (fst kv) "oauth_signature")) (args r) in
  let encoded := map (fun kv => (fst kv, percent_encode (snd kv))) params in
  Py.join "&" (map (fun kv => fst kv ++ "=" ++ snd kv) (sort_by_key encoded)).

(** [s] without its first [n] bytes, and whether [p] is the beginning of
    [s]. *)
Fixpoint drop (n : nat) (s : string) : string :=
  match n, s with
  | O, _ => s
  | S n', String _ s' => drop n' s'
  | S _, EmptyString => ""
  end.

Fixpoint prefix (p s : string) : bool :=
  match p, s with
  | EmptyString, _ => true
  | String a p', String b s' => Ascii.eqb a b && prefix p' s'
  | String _ _, EmptyString => false
  end.

(** The base URL with [https] for its scheme. *)
Definition https_base_url (r : request) : string :=
  if prefix "http://" (base_url r)
  then "https://" ++ drop 7 (base_url r)
  else base_url r.

(** [METHOD & percent_encode(https base URL) & percent_encode(sorted query
    string)]. *)
Definition canonical_message (r : request) : string :=
  method r ++ "&" ++ percent_encode (https_base_url r) ++ "&"
    ++ percent_encode (sorted_query_string r).

(** [base64(HMAC-SHA1(client_secret + "&", message))]. *)
Definition signature_of (cfg : config) (message : string) : string :=
  Digest.b64encode
    (Digest.hmac_sha1
       (Digest.bytes_of_string (CLOUD_APP_CLIENT_SECRET cfg ++ "&"))
       (Digest.bytes_of_string message)).

Definition expected_signature (cfg : config) (r : request) : string :=
  signature_of cfg (canonical_message r).

(** The amended message.  Of a key that the query string gives several
    times the first value counts; every [http://] of the base URL is
    replaced by [https://], a space of the base URL is written [+], and a
    slash of the sorted query string, which only a key can bring, is left
    as it is. *)
Fixpoint first_values (l : list (string * string)) : list (string * string) :=
  match l with
  | [] => []
  | (k, v) :: l' =>
      (k, v) :: filter (fun kv => negb (String.eqb (fst kv) k)) (first_values l')
  end.

Definition amended_message (r : request) : string :=
  let r1 := {| method := method r; base_url := base_url r;
               args := first_values (args r) |} in
  method r ++ "&"
    ++ percent_encode_space_as_plus
         (Py.replace "http://" "https://" (base_url r)) ++ "&"
    ++ percent_encode_slash_kept (sorted_query_string r1).

Definition amended_signature (cfg : config) (r : request) : string :=
  signature_of cfg (amended_message r).

End Spec.

(** ** Requests, stores and servers of the scenarios *)

Module Scenario.

Import Decorators.

(** The request with [oauth_signature] set to [s]. *)
Definition sign (s : string) (r : request) : request :=
  {| method := method r; base_url := base_url r;
     args := dict_set "oauth_signature" s (args r) |}.

(** The request with the value of the query parameter [k] changed to [v]. *)
Definition set_param (k v : string) (r : request) : request :=
  {| method := method r; base_url := base_url r;
     args := dict_set k v (args r) |}.

(** [GET https://test.example/endpoint] with the parameters [foo=bar] and
    [x=1] and the OAuth parameters of the caller. *)
Definition scenario_request (consumer_key nonce timestamp : string) : request :=
  {| method := "GET";
     base_url := "https://test.example/endpoint";
     args := [("foo", "bar"); ("x", "1");
              ("oauth_consumer_key", consumer_key);
              ("oauth_nonce", nonce);
              ("oauth_timestamp", timestamp)] |}.

Definition scenario_config (client_id : string) : config :=
  {| CLOUD_APP_CLIENT_ID := client_id; CLOUD_APP_CLIENT_SECRET := "shh" |}.

(** Two requests that differ at most in their [oauth_signature]
    parameters. *)
Definition same_but_signature (r1 r2 : request) : Prop :=
  method r1 = method r2 /\ base_url r1 = base_url r2
  /\ filter (fun kv => negb (String.eqb (fst kv) "oauth_signature")) (args r1)
     = filter (fun kv => negb (String.eqb (fst kv) "oauth_signature")) (args r2).

(** Two different messages with the same HMAC-SHA1 digest under [key]. *)
Definition hmac_collision (key m1 m2 : string) : Prop :=
  Digest.bytes_of_string m1 <> Digest.bytes_of_string m2
  /\ Digest.hmac_sha1 (Digest.bytes_of_string key) (Digest.bytes_of_string m1)
     = Digest.hmac_sha1 (Digest.bytes_of_string key) (Digest.bytes_of_string m2).

(** The scenario with the parameters [foo] and [x] alone. *)
Definition plain_request : request :=
  {| method := "GET";
     base_url := "https://test.example/endpoint";
     args := [("foo", "bar"); ("x", "1")] |}.

Definition empty_db : Database.db :=
  {| Database.installations := []; Database.sessions := [];
     Database.cache := [] |}.

(** The comparison of [oauth_signature] with the expected signature:
    [None] when the parameter is missing. *)
Definition signature_matches (cfg : config) (r : request) : option bool :=
  option_map (String.eqb (generate_signature cfg r))
             (args_get "oauth_signature" r).

(** The three checks that come before the signature is compared: the
    outcome they force, or [None] when they pass. *)
Definition early_checks (cfg : config) (now : Z) (r : request) (d : Database.db)
  : option (result bool) :=
  if negb (Database.opt_str_eqb (args_get "oauth_consumer_key" r)
                                (Some (CLOUD_APP_CLIENT_ID cfg)))
  then Some (Ok false)
  else match args_get "oauth_timestamp" r with
       | None => Some (Raise TypeError)
       | Some t =>
           match Py.int_of_str t with
           | None => Some (Raise ValueError)
           | Some n =>
               if now - 60 * 5 >? n then Some (Ok false)
               else if has_duplicates_in_cache (args_get "oauth_nonce" r)
                         (args_get "oauth_timestamp" r) d
                    then Some (Ok false)
                    else None
           end
       end.

(** The document [save_to_cache] inserts for a request validated at [now]. *)
Definition replay_entry (now : Z) (r : request) : Database.cache_doc :=
  {| Database.c_expires_in := 300;
     Database.c_expires_at := now + 300;
     Database.c_data := [("oauth_nonce", args_get "oauth_nonce" r);
                         ("oauth_timestamp", args_get "oauth_timestamp" r)] |}.

(** An authorization server that grants a token and names a base URL. *)
Definition token_granted (r : request) : result Database.token :=
  Ok [("access_token", "granted")].

Definition base_url_served (t : Database.token) : result string :=
  Ok "https://secure.example".

(** The session the install webhook stores, and a store that holds it and
    no installation. *)
Definition install_session : Database.session_doc :=
  {| Database.s_id := "5f0000000000000000000001";
     Database.s_expires_in := 300;
     Database.s_expires_at := 1300;
     Database.s_data := [("install_id", "install");
                         ("redirect_url", "https://callback.example/done")];
     Database.s_is_authed := None |}.

Definition db_without_installation : Database.db :=
  {| Database.installations := []; Database.sessions := [install_session];
     Database.cache := [] |}.

(** The callback request with the given [state]. *)
Definition callback_request (state : string) : request :=
  {| method := "GET";
     base_url := "https://test.example/eloqua/oauth/callback";
     args := [("code", "c0de"); ("state", state)] |}.

(** The pair with the value of key [k] replaced by [w]. *)
Definition upd (k w : string) (kv : string * string) : string * string :=
  if String.eqb (fst kv) k then (fst kv, w) else kv.

End Scenario.

(** ** Decoders, the left inverses of the encoders *)

Module Decode.

(** The left inverse of [Py.quote_with]. *)
Definition unhex (c : ascii) : N :=
  (if Py.in_range "0" "9" c then N_of_ascii c - 48 else N_of_ascii c - 55)%N.

Fixpoint unquote (s : string) : string :=
  match s with
  | EmptyString => ""
  | String c rest =>
      if Ascii.eqb c "%"
      then match rest with
           | String a (String b rest') =>
               String (ascii_of_N (16 * unhex a + unhex b)) (unquote rest')
           | _ => String c (unquote rest)
           end
      else String c (unquote rest)
  end.

(** The value of a character of the base64 alphabet. *)
Definition b64_value (c : ascii) : Z :=
  let n := Z.of_N (N_of_ascii c) in
  if Py.in_range "A" "Z" c then n - 65
  else if Py.in_range "a" "z" c then n - 71
  else if Py.in_range "0" "9" c then n + 4
  else if Ascii.eqb c "+" then 62
  else if Ascii.eqb c "/" then 63
  else -1.

End Decode.

(** ** [app/database.py]: the other operations on installations *)

Module Installations.

Import Database.

(** The filter [{"install_id": install_id}]. *)
Definition has_install_id (install_id : string) (i : installation) : bool :=
  match dict_get "install_id" (i_fields i) with
  | Some iid => String.eqb iid install_id
  | None => false
  end.

(** [$set: update_set] on an installation, for [data] whose keys are field
    names. *)
Definition set_fields (data : dict string) (config : option (dict string))
    (i : installation) : installation :=
  {| i_fields := dict_update (i_fields i) data;
     i_config := match config with
                 | Some (_ :: _) => config
                 | _ => i_config i
                 end;
     i_oauth_token := i_oauth_token i |}.

(** [upsert_installation(data, config)]: [KeyError] when [data] has no
    [install_id]; the first installation with that [install_id] is updated,
    and when there is none a document made of the filter and the update is
    inserted. *)
Definition upsert_installation (data : dict string)
    (config : option (dict string)) (d : db) : result unit * db :=
  match dict_get "install_id" data with
  | None => (Raise KeyError, d)
  | Some install_id =>
      let '(matched, l) :=
        update_first (has_install_id install_id) (set_fields data config)
          (installations d) in
      if matched then (Ok tt, with_installations l d)
      else
        let inserted :=
          set_fields data config
            {| i_fields := [("install_id", install_id)];
               i_config := None; i_oauth_token := None |} in
        (Ok tt, with_installations (installations d ++ [inserted])%list d)
  end.

(** [delete_installation(app_id, install_id)]. *)
Definition delete_installation (app_id install_id : string) (d : db)
  : bool * db :=
  let '(deleted, l) :=
    delete_first (installation_matches app_id install_id) (installations d) in
  (* deleted_count < 1: a warning is logged *)
  if deleted then (true, with_installations l d) else (false, d).

(** [get_installation_config(app_id, install_id)]: [None] without an
    installation, else its [config], [{}] by default. *)
Definition get_installation_config (app_id install_id : string) (d : db)
  : option (dict string) :=
  match get_installation app_id install_id d with
  | None => None
  | Some i => match i_config i with
              | Some c => Some c
              | None => Some []
              end
  end.

(** [get_base_url_for(app_id, install_id)]. *)
Definition get_base_url_for (app_id install_id : string) (d : db)
  : option string :=
  match get_installation app_id install_id d with
  | None => None
  | Some i => dict_get "base_url" (i_fields i)
  end.

(** [find_from_cache(matching_data)]: every match, in order. *)
Definition find_from_cache (matching_data : dict (option string)) (d : db)
  : list cache_doc :=
  filter (cache_matches matching_data) (cache d).

End Installations.

(** ** [app/database.py]: flattening a nested dictionary *)

Module Flatten.

(** The values of the dictionaries that are flattened: [None], a string,
    or a dictionary. *)
#[warnings="-register-all"] Inductive pyval : Type :=
| VNone
| VStr (s : string)
| VDict (items : list (string * pyval)).

(** The body of the loop of [_flatten] for the item [(k, v)] of a
    dictionary reached through [parents]; [out] is the dictionary being
    filled. *)
Fixpoint flatten_item (separator : string) (parents : list string) (k : string)
    (v : pyval) (out : dict pyval) {struct v} : dict pyval :=
  match v with
  | VDict ((_ :: _) as items) =>
      (fix flatten_items (x : list (string * pyval)) (out : dict pyval)
         : dict pyval :=
         match x with
         | [] => out
         | (k', v') :: rest =>
             flatten_items rest
               (flatten_item separator (parents ++ [k])%list k' v' out)
         end) items out
  | _ => dict_set (Py.join separator (parents ++ [k])%list) v out
  end.

(** [_flatten(x, parents)]. *)
Fixpoint _flatten (separator : string) (x : list (string * pyval))
    (parents : list string) (out : dict pyval) : dict pyval :=
  match x with
  | [] => out
  | (k, v) :: rest =>
      _flatten separator rest parents (flatten_item separator parents k v out)
  end.

(** [_flatten_dict(d, separator)]. *)
Definition _flatten_dict (d : list (string * pyval)) (separator : string)
  : dict pyval :=
  _flatten separator d [] [].

(** [_create_partial_embedded_update(prefix, data)]. *)
Definition _create_partial_embedded_update (prefix : string)
    (data : list (string * pyval)) : dict pyval :=
  fold_left (fun out kv => dict_set (prefix ++ "." ++ fst kv) (snd kv) out)
            data [].

(** A value that [_flatten] does not descend into. *)
Definition is_leaf (v : pyval) : bool :=
  match v with
  | VDict (_ :: _) => false
  | _ => true
  end.

End Flatten.

(** ** [app/auth.py]: the state as a string *)

Module StateToken.

(** [OAuth2State(session_id, token)] for a session id and the token,
    [generated] being the value of [generate_token()]. *)
Definition new_OAuth2State (session_id : string) (token : option string)
    (generated : string) : Auth.OAuth2State :=
  {| Auth.session_id := session_id;
     Auth.tok := match token with
                 | Some t => if Py.truthy_str t then Some t else Some generated
                 | None => Some generated
                 end |}.

(** [OAuth2State.to_str()]; a state read by [from_str] with an empty token
    generates one. *)
Definition to_str (state : Auth.OAuth2State) (generated : string) : string :=
  Auth.session_id state ++ "."
    ++ match Auth.tok state with
       | Some t => t
       | None => generated
       end.

End StateToken.

(** ** [app/decorators.py]: the other decorators *)

Module Guards.

Import Database Decorators.

(** [require_dev(f)], [env] being [current_app.env]. *)
Definition require_dev (env : string) (f : view) : view :=
  fun st =>
    if String.eqb env "development" then f st
    else (Raise (HTTPException 404), st).

(** [[key for key in keys if request.args.get(key) is None]]. *)
Definition missing_keys (keys : list string) (r : request) : list string :=
  filter (fun key => match args_get key r with
                     | None => true
                     | Some _ => false
                     end) keys.

(** ["Missing argument '{}'".format(missing_key)]. *)
Definition missing_message (missing_key : string) : string :=
  "Missing argument '" ++ missing_key ++ "'".

(** [required_args(keys)(f)]; [jsonify] renders the list [errors] of the
    messages as the body of the response. *)
Definition required_args (jsonify : list string -> string) (keys : list string)
    (r : request) (f : view) : view :=
  fun st =>
    match missing_keys keys r with
    | [] => f st
    | missing =>
        (Ok (Response (jsonify (map missing_message missing)) 400), st)
    end.

(** [require_authed_session(methods=...)(f)]. *)
Definition require_authed_session (methods : option (list string)) (now : Z)
    (new_id : ObjectId) (r : request) (f : view) : view :=
  fun st =>
    let listed := match methods with
                  | Some ms => existsb (String.eqb (method r)) ms
                  | None => true
                  end in
    (* Do nothing if methods isn't None or isn't listed in methods *)
    if negb listed then f st
    else
      (* This should raise an exception if the session doesn't exist. *)
      match Session.create_session None true now new_id st with
      | (Raise e, st') => (Raise e, st')
      | (Ok session, st') =>
          if Session.is_authed session then f st'
          else (Raise (HTTPException 401), st')
      end.

End Guards.

(** ** [app/blueprints/lifecycle.py] *)

Module Lifecycle.

Import Database Decorators.

(** [sub in s]. *)
Fixpoint contains (sub s : string) : bool :=
  Py.startswith sub s
  || match s with
     | EmptyString => false
     | String _ s' => contains sub s'
     end.

(** The dictionary [data] of [lifecycle_install]: the parameters whose key
    contains neither [oauth_] nor [callback_url]. *)
Definition install_data (r : request) : dict string :=
  filter (fun kv => negb (contains "oauth_" (fst kv))
                    && negb (contains "callback_url" (fst kv)))
         (to_dict (args r)).

Section Views.

(** [CLOUD_APP_FRIENDLY_NAME]; the URL that
    [oauth.authorization_url(ELOQUA_ENDPOINT_AUTH, state=...)] builds for a
    state; the value of [generate_token()]; and the rendering of the
    errors of [required_args]. *)
Variable friendly_name : string.
Variable authorization_url : string -> string.
Variable generated_token : string.
Variable jsonify : list string -> string.

(** The body of [lifecycle_install]. *)
Definition install_body (now : Z) (new_id : ObjectId) (r : request) : view :=
  fun st =>
    let '(d, fs) := st in
    match args_get "install_id" r, args_get "callback_url" r with
    | Some install_id, Some callback_url =>
        match set_session [("install_id", install_id);
                           ("redirect_url", callback_url)]
                None 300 None now new_id d with
        | (Raise e, d1) => (Raise e, (d1, fs))
        | (Ok session_id, d1) =>
            let data := install_data r in
            match Installations.upsert_installation
                    (dict_update [("_name", friendly_name)] data) None d1 with
            | (Raise e, d2) => (Raise e, (d2, fs))
            | (Ok _, d2) =>
                match session_id with
                | None => (* session_id["_id"] *) (Raise TypeError, (d2, fs))
                | Some session_id =>
                    let state :=
                      StateToken.new_OAuth2State
                        (str_of_ObjectId (s_id session_id)) None
                        generated_token in
                    let auth_url :=
                      authorization_url
                        (StateToken.to_str state generated_token) in
                    (Ok (Redirect auth_url), (d2, fs))
                end
            end
        end
    | _, _ => (Raise BadRequestKeyError, (d, fs))
    end.

(** [lifecycle_install], decorated. *)
Definition lifecycle_install (cfg : config) (now : Z) (new_id : ObjectId)
    (r : request) : view :=
  validate_oauth_signature None false cfg now new_id r
    (Guards.required_args jsonify
       ["install_id"; "callback_url"; "app_id"; "site_id"] r
       (install_body now new_id r)).

(** The body of [lifecycle_uninstall]. *)
Definition uninstall_body (r : request) : view :=
  fun st =>
    let '(d, fs) := st in
    match args_get "app_id" r, args_get "install_id" r with
    | Some app_id, Some install_id =>
        let '(deleted, d1) :=
          Installations.delete_installation app_id install_id d in
        if negb deleted then (Raise (HTTPException 400), (d1, fs))
        else (Ok (Response "Uninstalled" 204), (d1, fs))
    | _, _ => (Raise BadRequestKeyError, (d, fs))
    end.

(** [lifecycle_uninstall], decorated. *)
Definition lifecycle_uninstall (cfg : config) (now : Z) (new_id : ObjectId)
    (r : request) : view :=
  validate_oauth_signature None false cfg now new_id r (uninstall_body r).

(** [lifecycle_status], decorated. *)
Definition lifecycle_status (cfg : config) (now : Z) (new_id : ObjectId)
    (r : request) : view :=
  validate_oauth_signature None false cfg now new_id r
    (fun st => (Ok (Response "OK" 200), st)).

End Views.

End Lifecycle.

(** ** [app/blueprints/common.py]: the decorators of the class-based views

    The framework applies the list [decorators] of a view class in order,
    so that the last one of the list is the outermost. *)

Module Views.

Import Database Decorators.

(** [BaseConfigureView.decorators], around the view [f]; the two sessions
    that may be created take the identifiers [id1] and [id2]. *)
Definition configure_decorators (cfg : config) (now : Z) (id1 id2 : ObjectId)
    (r : request) (f : view) : view :=
  validate_oauth_signature (Some ["GET"]) true cfg now id1 r
    (Guards.require_authed_session None now id2 r f).

(** [BaseCreateView.decorators], around the view [f]. *)
Definition create_decorators (jsonify : list string -> string) (cfg : config)
    (now : Z) (new_id : ObjectId) (r : request) (f : view) : view :=
  validate_oauth_signature None false cfg now new_id r
    (Guards.required_args jsonify ["instance_id"] r f).

End Views.

(** ** [app/util.py] *)

Module Util.

Import Decorators.

(** The nested [Meta] class of a request class: its attributes [fields]
    and [append], when it has them. *)
Record Meta : Type := {
  fields : option (list string);
  append : option bool
}.

(** The value of [_BaseRequestMeta.__all_fields]: the set it starts as and
    [union] returns, or the tuple [meta.fields] assigned to it. *)
Inductive all_fields : Type :=
| FSet (members : list string)
| FTuple (members : list string).

Definition members_of (a : all_fields) : list string :=
  match a with
  | FSet l => l
  | FTuple l => l
  end.

(** [s.union(t)] on a set held as a list without repetition. *)
Definition union (s t : list string) : list string :=
  fold_left (fun acc x => if existsb (String.eqb x) acc then acc
                          else (acc ++ [x])%list) t s.

(** [_BaseRequestMeta.__new__]: the new value of [__all_fields], which is
    also the [_all_fields] of the class created; [meta] is the [Meta] of
    the class, if any.  A tuple has no [union]. *)
Definition __new__ (meta : option Meta) (current : all_fields)
  : result all_fields :=
  match meta with
  | None => Ok current
  | Some m =>
      let append := match append m with
                    | Some b => b
                    | None => true
                    end in
      match fields m with
      | None => Ok current
      | Some fs =>
          if append
          then match current with
               | FSet s => Ok (FSet (union s fs))
               | FTuple _ => Raise AttributeError
               end
          else Ok (FTuple fs)
      end
  end.

(** The classes of the module in the order they are defined, each with
    its [Meta]; the [_all_fields] of each class. *)
Fixpoint define_classes (metas : list (option Meta)) (current : all_fields)
  : result (list all_fields) :=
  match metas with
  | [] => Ok []
  | m :: rest =>
      c <- __new__ m current ;;
      cs <- define_classes rest c ;;
      Ok (c :: cs)
  end.

Definition no_append (fs : list string) : option Meta :=
  Some {| fields := Some fs; append := None |}.

Definition _BaseRequest_Meta : option Meta :=
  no_append ["user_id"; "user_name"; "user_culture"; "install_id"; "site_id";
             "site_name"; "app_id"].

Definition AppRequest_Meta : option Meta := no_append ["callback_url"].

Definition ServiceRequest_Meta : option Meta :=
  no_append ["instance_id"; "asset_id"; "asset_name"; "asset_type";
             "execution_id"; "entity_type"; "custom_object_id";
             "original_install_id"; "original_instance_id";
             "original_asset_id"; "original_asset_name"; "render_type";
             "is_preview"; "visitor_id"; "event_type"].

(** A request object: the value of each field of its class. *)
Definition request_object : Type := dict (option string).

(** [{**request.args, **additional_args}]. *)
Definition all_args (r : request) (additional_args : dict (option string))
  : dict (option string) :=
  dict_update (map (fun kv => (fst kv, Some (snd kv))) (to_dict (args r)))
              additional_args.

(** [_BaseRequest.__init__(request, **additional_args)] for a class whose
    [_all_fields] is iterated as [class_fields]. *)
Definition __init__ (class_fields : list string) (r : request)
    (additional_args : dict (option string)) : request_object :=
  map (fun field =>
         (field, match dict_get field (all_args r additional_args) with
                 | Some v => v
                 | None => None
                 end)) class_fields.

(** [as_dict(include_nones)]. *)
Definition as_dict (self : request_object) (include_nones : bool)
  : dict (option string) :=
  if include_nones then self
  else filter (fun kv => match snd kv with
                         | Some _ => true
                         | None => false
                         end) self.

End Util.

(** ** The vocabulary of the properties *)

Section Vocabulary.

Import Database Decorators Flatten.

(** A document of the cache holds the pair of a nonce and a timestamp; an
    absent value is that of a document without the field. *)
Definition pair_cached (oauth_nonce oauth_timestamp : option string) (d : db)
  : Prop :=
  exists c, In c (cache d)
            /\ data_field "oauth_nonce" c = oauth_nonce
            /\ data_field "oauth_timestamp" c = oauth_timestamp.

(** A request that gives each key once, no key with a slash, and whose
    base URL has no space and no [http://] past its beginning. *)
Definition plainly_quoted (r : request) : Prop :=
  NoDup (map fst (args r))
  /\ (forall k, In k (map fst (args r)) -> k <> "oauth_signature" ->
                Py.contains_char "/" k = false)
  /\ Py.contains_char " " (base_url r) = false
  /\ Lifecycle.contains "http://" (Spec.drop 1 (base_url r)) = false.

(** The keys of [data] are field names. *)
Definition field_names (data : dict string) : Prop :=
  forall k, In k (map fst data) -> field_name k = true.

(** The strict order of the keys. *)
Definition key_lt (a b : string * string) : Prop :=
  Py.str_ltb (fst a) (fst b) = true.

(** The request [r] with its query string replaced. *)
Definition with_args (l : list (string * string)) (r : request) : request :=
  {| method := method r; base_url := base_url r; args := l |}.

(** The request [r] with its base URL replaced. *)
Definition with_base_url (u : string) (r : request) : request :=
  {| method := method r; base_url := u; args := args r |}.

(** The document [set_session] inserts for a new session. *)
Definition new_session_doc (initial : option (dict string)) (authed : bool)
    (now : Z) (new_id : ObjectId) : session_doc :=
  {| s_id := new_id; s_expires_in := 3600; s_expires_at := now + 3600;
     s_data := match initial with
               | Some (kv :: l) => kv :: l
               | _ => []
               end;
     s_is_authed := Some authed |}.

(** The identifiers of the sessions of the store are distinct. *)
Definition distinct_ids (d : db) : Prop := NoDup (map s_id (sessions d)).

(** The [install_id] of a record of [installations]. *)
Definition install_id_of (i : installation) : option string :=
  dict_get "install_id" (i_fields i).

(** No two installations have the same [install_id]. *)
Definition installed_once (d : db) : Prop :=
  NoDup (map install_id_of (installations d)).

(** The values of a dictionary are leaves. *)
Definition all_leaves (out : dict pyval) : Prop :=
  Forall (fun kv => is_leaf (snd kv) = true) out.

(** What [_flatten] keeps of the dictionary it fills: distinct keys, and
    leaves as values. *)
Definition flat (out : dict pyval) : Prop :=
  NoDup (map fst out) /\ all_leaves out.

(** A class whose [Meta] does not set [append] to a false value. *)
Definition appends (meta : option Util.Meta) : Prop :=
  match meta with
  | Some m => Util.append m <> Some false
  | None => True
  end.

End Vocabulary.

(** * Properties *)

(** ** Strings *)

Section Strings.

Lemma contains_char_app (c : ascii) (a b : string) :
  Py.contains_char c (a ++ b)
  = Py.contains_char c a || Py.contains_char c b.
Proof.
  induction a as [|x a IH]; simpl; [reflexivity | ].
  now rewrite IH, orb_assoc.
Qed.

Lemma contains_char_cons (c a : ascii) (s : string) :
  Py.contains_char c (String a s) = Ascii.eqb a c || Py.contains_char c s.
Proof. reflexivity. Qed.

Lemma str_app_nil_r (s : string) : s ++ "" = s.
Proof. induction s as [|c s IH]; simpl; [reflexivity | now rewrite IH]. Qed.

Lemma str_app_assoc (a b c : string) : (a ++ b) ++ c = a ++ (b ++ c).
Proof. induction a as [|x a IH]; simpl; [reflexivity | now rewrite IH]. Qed.

Lemma str_length_app (a b : string) :
  String.length (a ++ b) = (String.length a + String.length b)%nat.
Proof. induction a as [|x a IH]; simpl; [reflexivity | now rewrite IH]. Qed.

Lemma str_app_inv_head (a b c : string) : a ++ b = a ++ c -> b = c.
Proof.
  induction a as [|x a IH]; simpl; intros H; [exact H | ].
  injection H as H. now apply IH.
Qed.

Lemma str_app_inv_tail (a b c : string) : a ++ c = b ++ c -> a = b.
Proof.
  revert b. induction a as [|x a IH]; intros [|y b] H; simpl in H.
  - reflexivity.
  - apply (f_equal String.length) in H. simpl in H.
    rewrite str_length_app in H. lia.
  - apply (f_equal String.length) in H. simpl in H.
    rewrite str_length_app in H. lia.
  - injection H as -> H. f_equal. now apply IH.
Qed.

(** Replacing a one-character string acts character by character. *)
Lemma replace_char_cons (c x : ascii) (new s : string) :
  Py.replace (String c "") new (String x s)
  = (if Ascii.eqb c x then new else String x "")
      ++ Py.replace (String c "") new s.
Proof.
  unfold Py.replace. simpl.
  destruct (Ascii.eqb c x); simpl; reflexivity.
Qed.

Lemma replace_char_app (c : ascii) (new a b : string) :
  Py.replace (String c "") new (a ++ b)
  = Py.replace (String c "") new a ++ Py.replace (String c "") new b.
Proof.
  induction a as [|x a IH].
  - reflexivity.
  - change (String x a ++ b) with (String x (a ++ b)).
    rewrite !replace_char_cons, IH, str_app_assoc. reflexivity.
Qed.

Lemma encode_value_char (c : ascii) :
  Py.replace "/" "%2F" (Py.replace "+" "%20" (Py.quote_char Py.safe_slash c))
  = Py.quote_char Py.safe_none c.
Proof.
  destruct c as [[] [] [] [] [] [] [] []]; vm_compute; reflexivity.
Qed.

(** The value encoding of [generate_signature] leaves only the unreserved
    characters as they are. *)
Lemma encode_value_quote (v : string) :
  Decorators.encode_value v = Py.quote_with Py.safe_none v.
Proof.
  unfold Decorators.encode_value, Py.quote.
  induction v as [|c v IH]; [reflexivity | ].
  simpl Py.quote_with.
  rewrite !replace_char_app, IH, encode_value_char. reflexivity.
Qed.

Lemma percent_encode_char (c : ascii) :
  Spec.encode_byte c = Py.quote_char Py.safe_none c.
Proof.
  destruct c as [[] [] [] [] [] [] [] []]; vm_compute; reflexivity.
Qed.

(** [quote] with an empty safe set is [percent_encode]. *)
Lemma percent_encode_quote (s : string) :
  Spec.percent_encode s = Py.quote_with Py.safe_none s.
Proof.
  unfold Spec.percent_encode.
  induction s as [|c s IH]; [reflexivity | ].
  cbn [Spec.percent_encode_but Py.quote_with].
  now rewrite percent_encode_char, IH.
Qed.

(** [quote] is [percent_encode] with the slash left as it is. *)
Lemma quote_slash_kept (s : string) :
  Py.quote s = Spec.percent_encode_slash_kept s.
Proof.
  unfold Py.quote, Spec.percent_encode_slash_kept.
  induction s as [|c s IH]; [reflexivity | ].
  cbn [Spec.percent_encode_but Py.quote_with]. rewrite IH. f_equal.
  destruct c as [[] [] [] [] [] [] [] []]; vm_compute; reflexivity.
Qed.

Lemma quote_space_char (c : ascii) :
  Py.replace " " "+" (Py.quote_char Py.safe_space c)
  = match (if Ascii.eqb c " " then Some "+" else None) with
    | Some spelling => spelling
    | None => Spec.encode_byte c
    end.
Proof.
  destruct c as [[] [] [] [] [] [] [] []]; vm_compute; reflexivity.
Qed.

Lemma quote_none_char (c : ascii) :
  Ascii.eqb c " " = false ->
  Py.quote_char Py.safe_none c
  = match (if Ascii.eqb c " " then Some "+" else None) with
    | Some spelling => spelling
    | None => Spec.encode_byte c
    end.
Proof. intros ->. symmetry. apply percent_encode_char. Qed.

(** [quote_plus] is [percent_encode] with the space written [+]. *)
Lemma quote_plus_space_as_plus (s : string) :
  Py.quote_plus s = Spec.percent_encode_space_as_plus s.
Proof.
  unfold Py.quote_plus, Spec.percent_encode_space_as_plus.
  destruct (Py.contains_char " " s) eqn:E.
  - clear E. induction s as [|c s IH]; [reflexivity | ].
    cbn [Spec.percent_encode_but Py.quote_with].
    now rewrite replace_char_app, IH, quote_space_char.
  - induction s as [|c s IH]; [reflexivity | ].
    rewrite contains_char_cons in E. apply orb_false_elim in E.
    destruct E as [Hc Hs].
    cbn [Spec.percent_encode_but Py.quote_with].
    now rewrite (IH Hs), (quote_none_char c Hc).
Qed.

Lemma encode_value_spec (v : string) :
  Decorators.encode_value v = Spec.percent_encode v.
Proof. now rewrite encode_value_quote, percent_encode_quote. Qed.

Lemma unquote_char (safe : ascii -> bool) (c : ascii) (t : string) :
  safe "%"%char = false ->
  Decode.unquote (Py.quote_char safe c ++ t) = String c (Decode.unquote t).
Proof.
  intros Hsafe. unfold Py.quote_char.
  destruct (Py.always_safe c || safe c) eqn:E.
  - simpl. destruct (Ascii.eqb c "%") eqn:Ec; [ | reflexivity].
    apply Ascii.eqb_eq in Ec. subst c.
    rewrite Hsafe in E. discriminate E.
  - clear E. simpl. f_equal.
    destruct c as [[] [] [] [] [] [] [] []]; vm_compute; reflexivity.
Qed.

Lemma unquote_quote (safe : ascii -> bool) (s : string) :
  safe "%"%char = false -> Decode.unquote (Py.quote_with safe s) = s.
Proof.
  intros Hsafe. induction s as [|c s IH]; [reflexivity | ].
  simpl Py.quote_with. rewrite unquote_char, IH by exact Hsafe. reflexivity.
Qed.

Lemma quote_with_inj (safe : ascii -> bool) (a b : string) :
  safe "%"%char = false -> Py.quote_with safe a = Py.quote_with safe b -> a = b.
Proof.
  intros Hsafe H. apply (f_equal Decode.unquote) in H.
  now rewrite !unquote_quote in H by exact Hsafe.
Qed.

End Strings.

(** ** Sorting the query parameters *)

Section Sorting.

Import Decorators.

Lemma insert_sorted_perm (x : string * string) (l : list (string * string)) :
  Permutation (x :: l) (insert_sorted x l).
Proof.
  induction l as [|y l IH]; simpl; [apply Permutation_refl | ].
  destruct (pair_ltb y x).
  - eapply perm_trans; [apply perm_swap | ]. now apply perm_skip.
  - apply Permutation_refl.
Qed.

Lemma sorted_perm (l : list (string * string)) : Permutation l (sorted l).
Proof.
  induction l as [|x l IH]; simpl; [apply perm_nil | ].
  eapply perm_trans; [ | apply insert_sorted_perm]. now apply perm_skip.
Qed.

Lemma sorted_keys_NoDup (l : list (string * string)) :
  NoDup (map fst l) -> NoDup (map fst (sorted l)).
Proof.
  intros H. eapply Permutation_NoDup; [ | exact H].
  apply Permutation_map, sorted_perm.
Qed.

Lemma sorted_keys_In (k : string) (l : list (string * string)) :
  In k (map fst (sorted l)) <-> In k (map fst l).
Proof.
  split; apply Permutation_in; [apply Permutation_sym | ];
    apply Permutation_map, sorted_perm.
Qed.

(** Between two pairs with different map fst the order of the map fst decides. *)
Lemma pair_ltb_keys (a b : string * string) :
  fst a <> fst b -> pair_ltb a b = Spec.key_ltb a b.
Proof.
  intros H. unfold pair_ltb, Spec.key_ltb.
  apply String.eqb_neq in H. rewrite H. simpl. apply orb_false_r.
Qed.

Lemma insert_sorted_by_key (x : string * string) (l : list (string * string)) :
  ~ In (fst x) (map fst l) -> insert_sorted x l = Spec.insert_by_key x l.
Proof.
  induction l as [|y l IH]; simpl; intros H; [reflexivity | ].
  rewrite pair_ltb_keys by intuition congruence.
  destruct (Spec.key_ltb y x); [ | reflexivity].
  f_equal. apply IH. tauto.
Qed.

(** With distinct map fst, sorting the pairs is sorting by key. *)
Lemma sorted_by_key (l : list (string * string)) :
  NoDup (map fst l) -> sorted l = Spec.sort_by_key l.
Proof.
  induction l as [|x l IH]; simpl; intros H; [reflexivity | ].
  inversion H as [|? ? Hx Hl]; subst.
  rewrite <- IH by exact Hl.
  apply insert_sorted_by_key. now rewrite sorted_keys_In.
Qed.

Lemma upd_fst (k w : string) (kv : string * string) :
  fst (Scenario.upd k w kv) = fst kv.
Proof. unfold Scenario.upd. now destruct (String.eqb (fst kv) k). Qed.

Lemma upd_keys (k w : string) (l : list (string * string)) :
  map fst (map (Scenario.upd k w) l) = map fst l.
Proof.
  induction l as [|x l IH]; simpl; [reflexivity | ].
  now rewrite upd_fst, IH.
Qed.

Lemma upd_absent (k w : string) (l : list (string * string)) :
  ~ In k (map fst l) -> map (Scenario.upd k w) l = l.
Proof.
  induction l as [|x l IH]; simpl; intros H; [reflexivity | ].
  rewrite IH by tauto. f_equal. unfold Scenario.upd.
  destruct (String.eqb_spec (fst x) k); [ | reflexivity].
  exfalso. apply H. now left.
Qed.

Lemma insert_sorted_upd (k w : string) (x : string * string)
    (l : list (string * string)) :
  ~ In (fst x) (map fst l) ->
  insert_sorted (Scenario.upd k w x) (map (Scenario.upd k w) l)
  = map (Scenario.upd k w) (insert_sorted x l).
Proof.
  induction l as [|y l IH]; simpl; intros H; [reflexivity | ].
  rewrite (pair_ltb_keys (Scenario.upd k w y) (Scenario.upd k w x))
    by (rewrite !upd_fst; intuition congruence).
  rewrite (pair_ltb_keys y x) by intuition congruence.
  unfold Spec.key_ltb. rewrite !upd_fst.
  destruct (Py.str_ltb (fst y) (fst x)); simpl; [ | reflexivity].
  f_equal. apply IH. tauto.
Qed.

(** Changing the value of a key commutes with sorting. *)
Lemma sorted_upd (k w : string) (l : list (string * string)) :
  NoDup (map fst l) ->
  sorted (map (Scenario.upd k w) l) = map (Scenario.upd k w) (sorted l).
Proof.
  induction l as [|x l IH]; simpl; intros H; [reflexivity | ].
  inversion H as [|? ? Hx Hl]; subst.
  rewrite IH by exact Hl.
  apply insert_sorted_upd. now rewrite sorted_keys_In.
Qed.

Lemma filter_comm {A : Type} (p q : A -> bool) (l : list A) :
  filter p (filter q l) = filter q (filter p l).
Proof.
  induction l as [|x l IH]; simpl; [reflexivity | ].
  destruct (p x) eqn:Hp, (q x) eqn:Hq; simpl; rewrite ?Hp, ?Hq, IH; reflexivity.
Qed.

Lemma filter_idem {A : Type} (p : A -> bool) (l : list A) :
  filter p (filter p l) = filter p l.
Proof.
  induction l as [|x l IH]; simpl; [reflexivity | ].
  destruct (p x) eqn:Hp; simpl; rewrite ?Hp, IH; reflexivity.
Qed.

Lemma filter_keys_In (k : string) (p : string * string -> bool)
    (l : list (string * string)) :
  In k (map fst (filter p l)) -> In k (map fst l).
Proof.
  induction l as [|x l IH]; simpl; [tauto | ].
  destruct (p x); simpl; tauto.
Qed.

Lemma filter_keys_NoDup (p : string * string -> bool) (l : list (string * string)) :
  NoDup (map fst l) -> NoDup (map fst (filter p l)).
Proof.
  induction l as [|x l IH]; simpl; intros H; [constructor | ].
  inversion H as [|? ? Hx Hl]; subst.
  destruct (p x); simpl; [ | now apply IH].
  constructor; [ | now apply IH].
  intros Hin. apply Hx. eapply filter_keys_In. exact Hin.
Qed.

Lemma filter_key_absent (k : string) (l : list (string * string)) :
  ~ In k (map fst (filter (fun kv => negb (String.eqb (fst kv) k)) l)).
Proof.
  induction l as [|x l IH]; simpl; [tauto | ].
  destruct (String.eqb_spec (fst x) k); simpl; [exact IH | ].
  intros [H | H]; [congruence | now apply IH].
Qed.

Lemma to_dict_NoDup (l : list (string * string)) : NoDup (map fst (to_dict l)).
Proof.
  induction l as [|[k v] l IH]; simpl; [constructor | ].
  constructor; [apply filter_key_absent | now apply filter_keys_NoDup].
Qed.

Lemma to_dict_NoDup_id (l : list (string * string)) :
  NoDup (map fst l) -> to_dict l = l.
Proof.
  induction l as [|[k v] l IH]; simpl; intros H; [reflexivity | ].
  inversion H as [|? ? Hk Hl]; subst. rewrite IH by exact Hl. f_equal.
  clear IH Hl H. induction l as [|[k' v'] l IH]; simpl; [reflexivity | ].
  simpl in Hk. destruct (String.eqb_spec k' k); simpl.
  - exfalso. apply Hk. now left.
  - f_equal. apply IH. tauto.
Qed.

(** Dropping a key before or after [to_dict] is the same. *)
Lemma to_dict_filter (s : string) (l : list (string * string)) :
  filter (fun kv => negb (String.eqb (fst kv) s)) (to_dict l)
  = to_dict (filter (fun kv => negb (String.eqb (fst kv) s)) l).
Proof.
  induction l as [|[k v] l IH]; simpl; [reflexivity | ].
  destruct (String.eqb_spec k s) as [-> | Hk]; simpl.
  - rewrite filter_idem. exact IH.
  - rewrite filter_comm, IH. reflexivity.
Qed.

Lemma filter_upd (k w s : string) (l : list (string * string)) :
  filter (fun kv => negb (String.eqb (fst kv) s)) (map (Scenario.upd k w) l)
  = map (Scenario.upd k w) (filter (fun kv => negb (String.eqb (fst kv) s)) l).
Proof.
  induction l as [|x l IH]; simpl; [reflexivity | ].
  rewrite upd_fst, IH. now destruct (String.eqb (fst x) s).
Qed.

Lemma dict_get_In (k : string) (l : list (string * string)) :
  dict_get k l <> None <-> In k (map fst l).
Proof.
  induction l as [|[k' v] l IH]; simpl; [tauto | ].
  destruct (String.eqb_spec k k') as [-> | Hk].
  - split; [now left | discriminate].
  - rewrite IH. split; [tauto | intros [H | H]; [congruence | exact H]].
Qed.

(** Changing the value of a parameter that is present changes the value
    of its key in [to_dict]. *)
Lemma to_dict_dict_set (k w : string) (l : list (string * string)) :
  In k (map fst l) -> to_dict (dict_set k w l) = map (Scenario.upd k w) (to_dict l).
Proof.
  induction l as [|[k' v] l IH]; simpl; [tauto | ].
  intros H. destruct (String.eqb_spec k k') as [<- | Hk]; simpl.
  - unfold Scenario.upd at 1. simpl. rewrite String.eqb_refl.
    rewrite upd_absent by apply filter_key_absent. reflexivity.
  - unfold Scenario.upd at 1. simpl.
    destruct (String.eqb_spec k' k); [congruence | ].
    rewrite IH by (destruct H; [congruence | assumption]).
    now rewrite filter_upd.
Qed.

Lemma filter_dict_set_same (s w : string) (l : list (string * string)) :
  filter (fun kv => negb (String.eqb (fst kv) s)) (dict_set s w l)
  = filter (fun kv => negb (String.eqb (fst kv) s)) l.
Proof.
  induction l as [|[k v] l IH]; simpl.
  - now rewrite String.eqb_refl.
  - destruct (String.eqb_spec s k) as [<- | Hk]; simpl.
    + now rewrite String.eqb_refl.
    + destruct (String.eqb_spec k s); [congruence | ]. simpl. now rewrite IH.
Qed.

Lemma dict_get_dict_set_other {V : Type} (k k' : string) (w : V) (l : dict V) :
  k <> k' -> dict_get k (dict_set k' w l) = dict_get k l.
Proof.
  intros Hk. induction l as [|[k0 v] l IH]; simpl.
  - destruct (String.eqb_spec k k'); [congruence | reflexivity].
  - destruct (String.eqb_spec k' k0) as [<- | H0]; simpl.
    + destruct (String.eqb_spec k k'); [congruence | reflexivity].
    + destruct (String.eqb k k0); [reflexivity | exact IH].
Qed.

Lemma dict_get_dict_set_same {V : Type} (k : string) (w : V) (l : dict V) :
  dict_get k (dict_set k w l) = Some w.
Proof.
  induction l as [|[k0 v] l IH]; simpl.
  - now rewrite String.eqb_refl.
  - destruct (String.eqb_spec k k0) as [<- | H0]; simpl.
    + now rewrite String.eqb_refl.
    + destruct (String.eqb_spec k k0); [congruence | exact IH].
Qed.

End Sorting.

(** ** The signature message determines the parameter values *)

Section Message.

Import Decorators.

Lemma dict_get_filter_other (k k0 : string) (l : list (string * string)) :
  k <> k0 ->
  dict_get k (filter (fun kv => negb (String.eqb (fst kv) k0)) l) = dict_get k l.
Proof.
  intros Hk. induction l as [|[k' v] l IH]; simpl; [reflexivity | ].
  destruct (String.eqb_spec k' k0) as [-> | H0]; simpl.
  - destruct (String.eqb_spec k k0); [congruence | exact IH].
  - now rewrite IH.
Qed.

Lemma dict_get_to_dict (k : string) (l : list (string * string)) :
  dict_get k (to_dict l) = dict_get k l.
Proof.
  induction l as [|[k0 v] l IH]; simpl; [reflexivity | ].
  destruct (String.eqb_spec k k0) as [-> | Hk]; [reflexivity | ].
  now rewrite dict_get_filter_other.
Qed.

Lemma dict_get_pair (k w : string) (l : list (string * string)) :
  NoDup (map fst l) -> In (k, w) l -> dict_get k l = Some w.
Proof.
  induction l as [|[k0 v] l IH]; simpl; intros Hnd Hin; [tauto | ].
  inversion Hnd as [|? ? Hx Hl]; subst.
  destruct Hin as [Heq | Hin].
  - injection Heq as -> ->. now rewrite String.eqb_refl.
  - destruct (String.eqb_spec k k0) as [-> | Hk]; [ | now apply IH].
    exfalso. apply Hx. change k0 with (fst (k0, w)). now apply in_map.
Qed.

Lemma dict_get_In_pair (k w : string) (l : list (string * string)) :
  dict_get k l = Some w -> In (k, w) l.
Proof.
  induction l as [|[k0 v] l IH]; simpl; [discriminate | ].
  destruct (String.eqb_spec k k0) as [-> | Hk].
  - intros H. injection H as ->. now left.
  - intros H. right. now apply IH.
Qed.

Lemma join_cons (sep x : string) (l : list string) :
  Py.join sep (x :: l)
  = x ++ match l with [] => "" | _ :: _ => sep ++ Py.join sep l end.
Proof. destruct l; simpl; [now rewrite str_app_nil_r | reflexivity]. Qed.

(** Two lists of pairs that differ in the value of one key are joined to
    different strings. *)
Lemma join_upd_neq (k w w' : string) (l : list (string * string)) :
  NoDup (map fst l) -> dict_get k l = Some w -> w' <> w ->
  Py.join "&" (map format_pair (map (Scenario.upd k w') l))
  <> Py.join "&" (map format_pair l).
Proof.
  induction l as [|[k1 w1] l IH]; simpl map; intros Hnd Hget Hw;
    [discriminate | ].
  inversion Hnd as [|? ? Hx Hl]; subst. simpl in Hget.
  rewrite !join_cons. unfold Scenario.upd at 1. simpl fst.
  destruct (String.eqb_spec k k1) as [<- | Hk].
  - rewrite String.eqb_refl. injection Hget as ->.
    rewrite upd_absent by exact Hx.
    intros H. apply str_app_inv_tail in H.
    unfold format_pair in H. simpl in H.
    apply str_app_inv_head in H. injection H as H. contradiction.
  - destruct (String.eqb_spec k1 k); [congruence | ].
    destruct l as [|y l]; [discriminate | ].
    intros H. apply str_app_inv_head in H. simpl map in H.
    apply str_app_inv_head in H. revert H. now apply IH.
Qed.

Lemma encode_value_inj (a b : string) :
  encode_value a = encode_value b -> a = b.
Proof.
  rewrite !encode_value_quote. now apply quote_with_inj.
Qed.

Lemma query_parameters_set_param (k v' : string) (r : request) :
  k <> "oauth_signature" -> In k (map fst (args r)) ->
  query_parameters (Scenario.set_param k v' r)
  = map (Scenario.upd k (encode_value v')) (query_parameters r).
Proof.
  intros Hk Hin. unfold query_parameters, Scenario.set_param. simpl.
  rewrite to_dict_dict_set by exact Hin.
  rewrite filter_upd, !map_map. apply map_ext.
  intros [k0 v0]. unfold Scenario.upd. simpl.
  now destruct (String.eqb k0 k).
Qed.

Lemma query_parameters_NoDup (r : request) :
  NoDup (map fst (query_parameters r)).
Proof.
  unfold query_parameters. rewrite map_map. simpl.
  change (fun x : string * string => fst x) with (@fst string string).
  apply filter_keys_NoDup, to_dict_NoDup.
Qed.

Lemma query_parameters_get (k v : string) (r : request) :
  k <> "oauth_signature" -> dict_get k (args r) = Some v ->
  dict_get k (sorted (query_parameters r)) = Some (encode_value v).
Proof.
  intros Hk Hget. apply dict_get_pair.
  - apply sorted_keys_NoDup, query_parameters_NoDup.
  - eapply Permutation_in; [apply sorted_perm | ].
    unfold query_parameters.
    change (k, encode_value v)
      with ((fun kv : string * string => (fst kv, encode_value (snd kv))) (k, v)).
    apply in_map, filter_In. split.
    + apply dict_get_In_pair. now rewrite dict_get_to_dict.
    + simpl. now destruct (String.eqb_spec k "oauth_signature").
Qed.

(** Changing the value of one query parameter other than
    [oauth_signature] changes the signature message. *)
Lemma signature_message_set_param (k v v' : string) (r : request) :
  k <> "oauth_signature" -> dict_get k (args r) = Some v -> v' <> v ->
  signature_message (Scenario.set_param k v' r) <> signature_message r.
Proof.
  intros Hk Hget Hv H. unfold signature_message in H.
  change (method (Scenario.set_param k v' r)) with (method r) in H.
  change (base_url (Scenario.set_param k v' r)) with (base_url r) in H.
  apply str_app_inv_head, quote_with_inj in H; [ | reflexivity].
  rewrite query_parameters_set_param in H;
    [ | exact Hk | apply dict_get_In; congruence].
  rewrite sorted_upd in H by apply query_parameters_NoDup.
  revert H. apply join_upd_neq with (w := encode_value v).
  - apply sorted_keys_NoDup, query_parameters_NoDup.
  - now apply query_parameters_get.
  - intros E. apply Hv. now apply encode_value_inj.
Qed.

(** The signature message does not read the [oauth_signature] parameters. *)
Lemma signature_message_same (r1 r2 : request) :
  Scenario.same_but_signature r1 r2 -> signature_message r1 = signature_message r2.
Proof.
  intros (Hm & Hb & Ha). unfold signature_message, query_parameters.
  now rewrite Hm, Hb, !to_dict_filter, Ha.
Qed.

Lemma sign_same (s : string) (r : request) :
  Scenario.same_but_signature (Scenario.sign s r) r.
Proof.
  unfold Scenario.same_but_signature, Scenario.sign. simpl.
  repeat split. apply filter_dict_set_same.
Qed.

End Message.

(** ** Base64 is injective on bytes *)

Section Base64.

Import Digest.

Lemma b64_value_char (n : Z) : 0 <= n < 64 -> Decode.b64_value (b64_char n) = n.
Proof.
  intros Hn.
  assert (H : forallb (fun i => Decode.b64_value (b64_char (Z.of_nat i))
                                =? Z.of_nat i) (seq 0 64) = true)
    by (vm_compute; reflexivity).
  rewrite forallb_forall in H.
  specialize (H (Z.to_nat n)). rewrite Z2Nat.id in H by lia.
  apply Z.eqb_eq, H, in_seq. lia.
Qed.

Lemma b64_char_inj (n m : Z) :
  0 <= n < 64 -> 0 <= m < 64 -> b64_char n = b64_char m -> n = m.
Proof.
  intros Hn Hm H. apply (f_equal Decode.b64_value) in H.
  now rewrite !b64_value_char in H.
Qed.

Lemma b64_char_not_pad (n : Z) : 0 <= n < 64 -> b64_char n <> "="%char.
Proof.
  intros Hn H. apply (f_equal Decode.b64_value) in H.
  rewrite b64_value_char in H by exact Hn. vm_compute in H. lia.
Qed.

Ltac sextet :=
  match goal with
  | |- 0 <= _ < 64 => unfold is_byte in *; Z.div_mod_to_equations; lia
  end.

Ltac chars :=
  repeat match goal with
         | H : b64_char _ = "="%char |- _ =>
             apply b64_char_not_pad in H; [contradiction | sextet]
         | H : "="%char = b64_char _ |- _ =>
             symmetry in H; apply b64_char_not_pad in H; [contradiction | sextet]
         | H : b64_char _ = b64_char _ |- _ =>
             apply b64_char_inj in H; [ | sextet | sextet]
         end.

Lemma b64encode_inj_bounded (n : nat) (l1 l2 : bytes) :
  (List.length l1 <= n)%nat -> Forall is_byte l1 -> Forall is_byte l2 ->
  b64encode l1 = b64encode l2 -> l1 = l2.
Proof.
  revert l1 l2. induction n as [|n IH]; intros l1 l2 Hlen H1 H2 H.
  - destruct l1; [ | simpl in Hlen; lia].
    destruct l2 as [|a [|b [|c l2]]]; [reflexivity | discriminate H ..].
  - destruct l1 as [|a [|b [|c l1]]]; destruct l2 as [|a' [|b' [|c' l2]]];
      try reflexivity; try discriminate H;
      repeat match goal with
             | F : Forall is_byte (_ :: _) |- _ => inversion F; clear F; subst
             end;
      simpl in H; injection H; clear H; intros; chars.
    + f_equal. unfold is_byte in *. Z.div_mod_to_equations. lia.
    + assert (a = a' /\ b = b')
        by (unfold is_byte in *; Z.div_mod_to_equations; lia).
      intuition congruence.
    + assert (a = a' /\ b = b' /\ c = c')
        by (unfold is_byte in *; Z.div_mod_to_equations; lia).
      assert (l1 = l2) by (apply IH; [simpl in Hlen; lia | assumption ..]).
      intuition congruence.
Qed.

Lemma b64encode_inj (l1 l2 : bytes) :
  Forall is_byte l1 -> Forall is_byte l2 ->
  b64encode l1 = b64encode l2 -> l1 = l2.
Proof. apply (b64encode_inj_bounded (List.length l1)). apply Nat.le_refl. Qed.

Lemma bytes_of_word_range (w : Z) : Forall is_byte (bytes_of_word w).
Proof.
  unfold bytes_of_word, is_byte.
  repeat constructor; apply Z.mod_pos_bound; lia.
Qed.

Lemma sha1_range (msg : bytes) : Forall is_byte (sha1 msg).
Proof.
  unfold sha1.
  destruct (fold_left compress _ initial_state) as [[[[h0 h1] h2] h3] h4].
  repeat (apply Forall_app; split); apply bytes_of_word_range.
Qed.

Lemma hmac_sha1_range (key msg : bytes) : Forall is_byte (hmac_sha1 key msg).
Proof. apply sha1_range. Qed.

End Base64.

(** ** The signature validator *)

Section Validator.

Import Database Decorators Scenario.

Lemma bytes_of_string_inj (a b : string) :
  Digest.bytes_of_string a = Digest.bytes_of_string b -> a = b.
Proof.
  unfold Digest.bytes_of_string. revert b.
  induction a as [|x a IH]; intros [|y b] H; simpl in H;
    try reflexivity; try discriminate H.
  injection H as Hx H. f_equal; [ | now apply IH].
  apply N2Z.inj in Hx.
  rewrite <- (ascii_N_embedding x), <- (ascii_N_embedding y). now rewrite Hx.
Qed.

Lemma generate_signature_inj (cfg : config) (r1 r2 : request) :
  generate_signature cfg r1 = generate_signature cfg r2 ->
  signature_message r1 <> signature_message r2 ->
  hmac_collision (signature_key cfg) (signature_message r1) (signature_message r2).
Proof.
  intros H Hm. split.
  - intros E. apply Hm. now apply bytes_of_string_inj.
  - apply b64encode_inj; [apply hmac_sha1_range .. | exact H].
Qed.

Lemma quote_without_slash (s : string) :
  Py.contains_char "/" s = false -> Py.quote s = Spec.percent_encode s.
Proof.
  rewrite percent_encode_quote. unfold Py.quote.
  induction s as [|c s IH]; [reflexivity | ].
  rewrite contains_char_cons. intros H. apply orb_false_elim in H.
  destruct H as [Hc Hs]. cbn [Py.quote_with]. rewrite (IH Hs). f_equal.
  unfold Py.quote_char, Py.safe_slash, Py.safe_none. now rewrite Hc.
Qed.

Lemma quote_plus_without_space (s : string) :
  Py.contains_char " " s = false -> Py.quote_plus s = Spec.percent_encode s.
Proof.
  intros H. unfold Py.quote_plus. rewrite H. symmetry.
  apply percent_encode_quote.
Qed.

Lemma replace_from_without (c : ascii) (old new : string) (skip : nat)
    (s : string) :
  Py.contains_char c new = false -> Py.contains_char c s = false ->
  Py.contains_char c (Py.replace_from old new skip s) = false.
Proof.
  intros Hn. revert skip. induction s as [|x s IH]; intros skip H;
    [reflexivity | ].
  rewrite contains_char_cons in H. apply orb_false_elim in H.
  destruct H as [Hx Hs]. cbn [Py.replace_from]. destruct skip as [|k].
  - destruct (Py.startswith old (String x s)).
    + rewrite contains_char_app, Hn. now apply IH.
    + rewrite contains_char_cons, Hx. now apply IH.
  - now apply IH.
Qed.

Lemma percent_encode_without_slash (v : string) :
  Py.contains_char "/" (Spec.percent_encode v) = false.
Proof.
  unfold Spec.percent_encode.
  induction v as [|c v IH]; [reflexivity | ].
  cbn [Spec.percent_encode_but]. rewrite contains_char_app, IH, orb_false_r.
  destruct c as [[] [] [] [] [] [] [] []]; vm_compute; reflexivity.
Qed.

Lemma join_without (c : ascii) (sep : string) (l : list string) :
  Py.contains_char c sep = false ->
  (forall x, In x l -> Py.contains_char c x = false) ->
  Py.contains_char c (Py.join sep l) = false.
Proof.
  intros Hsep. induction l as [|x l IH]; intros H; [reflexivity | ].
  destruct l as [|y l]; [apply H; now left | ].
  change (Py.join sep (x :: y :: l)) with (x ++ sep ++ Py.join sep (y :: l)).
  rewrite !contains_char_app, Hsep, (H x) by now left.
  apply IH. intros z Hz. apply H. now right.
Qed.

Lemma prefix_startswith (p s : string) : Spec.prefix p s = Py.startswith p s.
Proof.
  revert s. induction p as [|a p IH]; intros [|b s]; simpl; try reflexivity.
Qed.

Lemma replace_from_drop (old new : string) (k : nat) (s : string) :
  Py.replace_from old new k s = Py.replace_from old new 0 (Spec.drop k s).
Proof.
  revert s. induction k as [|k IH]; intros s; [reflexivity | ].
  destruct s as [|c s]; [reflexivity | ]. cbn [Py.replace_from Spec.drop].
  apply IH.
Qed.

Lemma contains_drop (sub : string) (k : nat) (s : string) :
  Lifecycle.contains sub s = false ->
  Lifecycle.contains sub (Spec.drop k s) = false.
Proof.
  revert s. induction k as [|k IH]; intros s H; [exact H | ].
  destruct s as [|c s]; [exact H | ]. cbn [Spec.drop]. apply IH.
  cbn [Lifecycle.contains] in H. now apply orb_false_elim in H.
Qed.

Lemma replace_absent (old new s : string) :
  Lifecycle.contains old s = false -> Py.replace_from old new 0 s = s.
Proof.
  induction s as [|c s IH]; intros H; [reflexivity | ].
  cbn [Lifecycle.contains] in H. apply orb_false_elim in H.
  destruct H as [H1 H2]. cbn [Py.replace_from]. rewrite H1.
  now rewrite (IH H2).
Qed.

(** A base URL with no [http://] past its beginning: the replacement
    changes its scheme alone. *)
Lemma https_replace (r : request) :
  Lifecycle.contains "http://" (Spec.drop 1 (base_url r)) = false ->
  Py.replace "http://" "https://" (base_url r) = Spec.https_base_url r.
Proof.
  unfold Spec.https_base_url, Py.replace. rewrite prefix_startswith.
  destruct (base_url r) as [|c u]; [reflexivity | ].
  cbn [Spec.drop]. intros H. cbn [Py.replace_from].
  destruct (Py.startswith "http://" (String c u)).
  - rewrite replace_from_drop. cbn [String.length Nat.pred].
    now rewrite replace_absent by (now apply contains_drop).
  - now rewrite replace_absent by exact H.
Qed.

Lemma query_parameters_spec (r : request) :
  NoDup (map fst (args r)) ->
  query_parameters r
  = map (fun kv => (fst kv, Spec.percent_encode (snd kv)))
        (filter (fun kv => negb (String.eqb (fst kv) "oauth_signature"))
                (args r)).
Proof.
  intros H. unfold query_parameters. rewrite to_dict_NoDup_id by exact H.
  apply map_ext. intros kv. now rewrite encode_value_spec.
Qed.

(** On such a request the message of the code is the message the
    specification describes. *)
Lemma signature_message_spec (r : request) :
  plainly_quoted r -> signature_message r = Spec.canonical_message r.
Proof.
  intros (Hnd & Hkeys & Hbase & Hscheme).
  unfold signature_message, Spec.canonical_message, Spec.sorted_query_string.
  rewrite quote_plus_without_space
    by (apply replace_from_without; [reflexivity | exact Hbase]).
  rewrite (https_replace r Hscheme).
  rewrite quote_without_slash.
  - rewrite <- query_parameters_spec by exact Hnd.
    rewrite <- sorted_by_key by apply query_parameters_NoDup.
    unfold format_pair. now rewrite !str_app_assoc.
  - apply join_without; [reflexivity | ].
    intros x Hx. apply in_map_iff in Hx. destruct Hx as ([k v] & <- & Hin).
    apply (Permutation_in _ (Permutation_sym (sorted_perm _))) in Hin.
    rewrite query_parameters_spec in Hin by exact Hnd.
    apply in_map_iff in Hin. destruct Hin as ([k0 v0] & Heq & Hin).
    injection Heq as <- <-. apply filter_In in Hin. destruct Hin as [Hin Hk].
    unfold format_pair. cbn [fst snd] in *.
    rewrite !contains_char_app, percent_encode_without_slash, orb_false_r.
    rewrite Hkeys; [reflexivity | now apply (in_map fst) in Hin | ].
    intros ->. discriminate Hk.
Qed.

Lemma generate_signature_spec (cfg : config) (r : request) :
  plainly_quoted r -> generate_signature cfg r = Spec.expected_signature cfg r.
Proof.
  intros H. unfold generate_signature, Spec.expected_signature,
    Spec.signature_of, signature_key.
  now rewrite signature_message_spec.
Qed.

Lemma first_values_to_dict (l : list (string * string)) :
  Spec.first_values l = to_dict l.
Proof.
  induction l as [|[k v] l IH]; [reflexivity | ]. simpl. now rewrite IH.
Qed.

(** The message of the code is the amended message, on every request. *)
Lemma signature_message_amended (r : request) :
  signature_message r = Spec.amended_message r.
Proof.
  unfold signature_message, Spec.amended_message, Spec.sorted_query_string.
  cbn [args]. rewrite first_values_to_dict.
  rewrite quote_plus_space_as_plus, quote_slash_kept.
  replace (map (fun kv => (fst kv, Spec.percent_encode (snd kv)))
             (filter (fun kv => negb (String.eqb (fst kv) "oauth_signature"))
                (to_dict (args r))))
    with (query_parameters r)
    by (unfold query_parameters; apply map_ext; intros kv;
        now rewrite encode_value_spec).
  rewrite <- sorted_by_key by apply query_parameters_NoDup.
  unfold format_pair. now rewrite !str_app_assoc.
Qed.

Lemma generate_signature_amended (cfg : config) (r : request) :
  generate_signature cfg r = Spec.amended_signature cfg r.
Proof.
  unfold generate_signature, Spec.amended_signature, Spec.signature_of,
    signature_key.
  now rewrite signature_message_amended.
Qed.

Lemma generate_signature_same (cfg : config) (r1 r2 : request) :
  same_but_signature r1 r2 -> generate_signature cfg r1 = generate_signature cfg r2.
Proof.
  intros H. unfold generate_signature. now rewrite (signature_message_same r1 r2).
Qed.

Lemma args_get_same (k : string) (r1 r2 : request) :
  k <> "oauth_signature" -> same_but_signature r1 r2 ->
  args_get k r1 = args_get k r2.
Proof.
  intros Hk (_ & _ & Ha). unfold args_get.
  rewrite <- (dict_get_filter_other k "oauth_signature" (args r1)) by exact Hk.
  rewrite <- (dict_get_filter_other k "oauth_signature" (args r2)) by exact Hk.
  now rewrite Ha.
Qed.

(** The validator is its early checks followed by the comparison. *)
Lemma valid_decomposition (cfg : config) (now : Z) (r : request) (d : db) :
  _oauth_is_signature_valid cfg now r d
  = match early_checks cfg now r d with
    | Some outcome => outcome
    | None => match signature_matches cfg r with
              | None => Raise AttributeError
              | Some b => Ok b
              end
    end.
Proof.
  unfold _oauth_is_signature_valid, early_checks, signature_matches.
  destruct (negb _); [reflexivity | ].
  destruct (args_get "oauth_timestamp" r) as [t|]; simpl; [ | reflexivity].
  destruct (Py.int_of_str t) as [n|]; simpl; [ | reflexivity].
  destruct (_ >? n); [reflexivity | ].
  destruct (has_duplicates_in_cache _ _ d); [reflexivity | ].
  destruct (args_get "oauth_signature" r) as [s|]; simpl; [ | reflexivity].
  rewrite (String.eqb_sym (generate_signature cfg r) s).
  now destruct (String.eqb s (generate_signature cfg r)).
Qed.

Lemma early_checks_same (cfg : config) (now : Z) (r1 r2 : request) (d : db) :
  same_but_signature r1 r2 ->
  early_checks cfg now r1 d = early_checks cfg now r2 d.
Proof.
  intros H. unfold early_checks.
  rewrite (args_get_same "oauth_consumer_key" r1 r2),
    (args_get_same "oauth_timestamp" r1 r2),
    (args_get_same "oauth_nonce" r1 r2) by (discriminate || exact H).
  reflexivity.
Qed.

Lemma valid_true_signature (cfg : config) (now : Z) (r : request) (d : db) :
  _oauth_is_signature_valid cfg now r d = Ok true ->
  args_get "oauth_signature" r = Some (generate_signature cfg r).
Proof.
  unfold _oauth_is_signature_valid.
  destruct (negb _); [discriminate | ].
  destruct (args_get "oauth_timestamp" r) as [t|]; simpl; [ | discriminate].
  destruct (Py.int_of_str t) as [n|]; simpl; [ | discriminate].
  destruct (_ >? n); [discriminate | ].
  destruct (has_duplicates_in_cache _ _ d); [discriminate | ].
  destruct (args_get "oauth_signature" r) as [s|]; [ | discriminate].
  destruct (String.eqb_spec s (generate_signature cfg r)); [ | discriminate].
  now subst.
Qed.

Lemma check_accept_valid (cfg : config) (now : Z) (r : request) (d : db) :
  fst (check_signature cfg now r d) = ACCEPT <->
  _oauth_is_signature_valid cfg now r d = Ok true.
Proof.
  unfold check_signature.
  destruct (_oauth_is_signature_valid cfg now r d) as [[|]|e]; simpl;
    split; intros H; (reflexivity || discriminate H).
Qed.

Lemma check_reject_valid (cfg : config) (now : Z) (r : request) (d : db) :
  fst (check_signature cfg now r d) = REJECT <->
  _oauth_is_signature_valid cfg now r d = Ok false.
Proof.
  unfold check_signature.
  destruct (_oauth_is_signature_valid cfg now r d) as [[|]|e]; simpl;
    split; intros H; (reflexivity || discriminate H).
Qed.

Lemma args_get_sign (s : string) (r : request) :
  args_get "oauth_signature" (sign s r) = Some s.
Proof. apply dict_get_dict_set_same. Qed.

Lemma args_get_set_param_other (k' k v : string) (r : request) :
  k' <> k -> args_get k' (set_param k v r) = args_get k' r.
Proof. intros H. now apply dict_get_dict_set_other. Qed.

(** A request that passes the early checks is accepted when it carries
    the signature the validator computes for it. *)
Lemma own_signature_accepted (cfg : config) (now : Z) (r : request) (d : db) :
  early_checks cfg now r d = None ->
  fst (check_signature cfg now (sign (generate_signature cfg r) r) d) = ACCEPT.
Proof.
  intros He. apply check_accept_valid. rewrite valid_decomposition.
  rewrite (early_checks_same cfg now _ r d) by apply sign_same.
  rewrite He. unfold signature_matches. rewrite args_get_sign. simpl.
  rewrite (generate_signature_same cfg _ r) by apply sign_same.
  now rewrite String.eqb_refl.
Qed.

(** A request accepted after the value of one of its parameters was
    changed, the signature kept, exhibits a collision of HMAC-SHA1. *)
Lemma tampered_accepted_collision (cfg : config) (now : Z) (r : request)
    (d : db) (k v v' : string) :
  args_get "oauth_signature" r = Some (generate_signature cfg r) ->
  k <> "oauth_signature" -> dict_get k (args r) = Some v -> v' <> v ->
  fst (check_signature cfg now (set_param k v' r) d) = ACCEPT ->
  hmac_collision (signature_key cfg) (signature_message (set_param k v' r))
                 (signature_message r).
Proof.
  intros Hsig Hk Hget Hv Hacc.
  apply check_accept_valid, valid_true_signature in Hacc.
  rewrite args_get_set_param_other, Hsig in Hacc by congruence.
  injection Hacc as Hacc.
  apply generate_signature_inj; [now symmetry | ].
  now apply signature_message_set_param with (v := v).
Qed.

(** When the changed parameter is not the timestamp, the checks cannot
    raise: the tampered request is rejected, or HMAC-SHA1 collides. *)
Lemma tampered_rejected (cfg : config) (now : Z) (r : request) (d : db)
    (k v v' : string) :
  fst (check_signature cfg now r d) = ACCEPT ->
  k <> "oauth_signature" -> k <> "oauth_timestamp" ->
  dict_get k (args r) = Some v -> v' <> v ->
  fst (check_signature cfg now (set_param k v' r) d) = REJECT
  \/ hmac_collision (signature_key cfg) (signature_message (set_param k v' r))
                    (signature_message r).
Proof.
  intros Hacc Hk Hts Hget Hv.
  pose proof Hacc as Hval. apply check_accept_valid in Hval.
  pose proof (valid_true_signature _ _ _ _ Hval) as Hsig.
  destruct (fst (check_signature cfg now (set_param k v' r) d)) eqn:E.
  - right. now apply tampered_accepted_collision with (now := now) (d := d) (v := v).
  - now left.
  - exfalso. unfold check_signature in E.
    destruct (_oauth_is_signature_valid cfg now (set_param k v' r) d)
      as [[|]|e'] eqn:E'; try discriminate E.
    revert E' Hval. unfold _oauth_is_signature_valid.
    rewrite (args_get_set_param_other "oauth_timestamp" k) by congruence.
    rewrite (args_get_set_param_other "oauth_signature" k) by congruence.
    destruct (negb (opt_str_eqb (args_get "oauth_consumer_key" r) _));
      [discriminate | ].
    destruct (negb _); [discriminate | ].
    destruct (args_get "oauth_timestamp" r) as [t|]; simpl; [ | discriminate].
    destruct (Py.int_of_str t) as [n|]; simpl; [ | discriminate].
    destruct (_ >? n); [discriminate | ].
    destruct (has_duplicates_in_cache _ _ d); [discriminate | ].
    destruct (has_duplicates_in_cache _ _ d); [discriminate | ].
    destruct (args_get "oauth_signature" r) as [s|]; [ | discriminate].
    destruct (negb _); discriminate.
Qed.

Lemma opt_str_eqb_eq (a b : option string) :
  opt_str_eqb a b = true <-> a = b.
Proof.
  destruct a as [x|], b as [y|]; simpl; try (split; (discriminate || reflexivity)).
  rewrite String.eqb_eq. split; [now intros -> | now intros [= ->]].
Qed.

(** The lookup of the validator finds a document exactly when a document
    of the cache holds the pair. *)
Lemma has_duplicates_iff (oauth_nonce oauth_timestamp : option string) (d : db) :
  has_duplicates_in_cache oauth_nonce oauth_timestamp d = true
  <-> pair_cached oauth_nonce oauth_timestamp d.
Proof.
  unfold has_duplicates_in_cache, find_one_from_cache, pair_cached.
  destruct (find _ (cache d)) as [c|] eqn:E.
  - apply find_some in E. destruct E as [Hin Hm].
    cbn [cache_matches forallb fst snd] in Hm.
    rewrite andb_true_r in Hm. apply andb_prop in Hm. destruct Hm as [H1 H2].
    apply opt_str_eqb_eq in H1, H2.
    split; [intros _; exists c; auto | reflexivity].
  - split; [discriminate | ].
    intros (c & Hin & H1 & H2). exfalso.
    pose proof (find_none _ _ E c Hin) as Hm.
    cbn [cache_matches forallb fst snd] in Hm.
    rewrite H1, H2 in Hm.
    rewrite (proj2 (opt_str_eqb_eq oauth_nonce oauth_nonce) eq_refl) in Hm.
    rewrite (proj2 (opt_str_eqb_eq oauth_timestamp oauth_timestamp) eq_refl)
      in Hm.
    discriminate Hm.
Qed.

Lemma has_duplicates_absent (oauth_nonce oauth_timestamp : option string)
    (d : db) :
  ~ pair_cached oauth_nonce oauth_timestamp d ->
  has_duplicates_in_cache oauth_nonce oauth_timestamp d = false.
Proof.
  intros H. destruct (has_duplicates_in_cache _ _ d) eqn:E; [ | reflexivity].
  apply has_duplicates_iff in E. contradiction.
Qed.

(** What makes the validator accept. *)
Lemma accept_conditions (cfg : config) (now : Z) (r : request) (d : db)
    (ts : string) (t : Z) :
  args_get "oauth_consumer_key" r = Some (CLOUD_APP_CLIENT_ID cfg) ->
  args_get "oauth_timestamp" r = Some ts -> Py.int_of_str ts = Some t ->
  now - 300 <= t ->
  ~ pair_cached (args_get "oauth_nonce" r) (Some ts) d ->
  args_get "oauth_signature" r = Some (generate_signature cfg r) ->
  _oauth_is_signature_valid cfg now r d = Ok true.
Proof.
  intros Hkey Hts Ht Hfresh Habsent Hsig. unfold _oauth_is_signature_valid.
  rewrite Hkey, Hts, Ht, Hsig. cbn [opt_str_eqb]. rewrite String.eqb_refl.
  cbn [negb bind].
  destruct (Z.gtb_spec (now - 60 * 5) t); [lia | ].
  rewrite has_duplicates_absent by exact Habsent.
  now rewrite String.eqb_refl.
Qed.

(** What an accepted request tells. *)
Lemma accepted_conditions (cfg : config) (now : Z) (r : request) (d : db) :
  _oauth_is_signature_valid cfg now r d = Ok true ->
  args_get "oauth_consumer_key" r = Some (CLOUD_APP_CLIENT_ID cfg)
  /\ (exists ts t, args_get "oauth_timestamp" r = Some ts
                   /\ Py.int_of_str ts = Some t /\ now - 300 <= t)
  /\ ~ pair_cached (args_get "oauth_nonce" r) (args_get "oauth_timestamp" r) d.
Proof.
  unfold _oauth_is_signature_valid.
  destruct (opt_str_eqb (args_get "oauth_consumer_key" r) _) eqn:Ek;
    [ | discriminate].
  apply opt_str_eqb_eq in Ek. cbn [negb].
  destruct (args_get "oauth_timestamp" r) as [ts|]; [ | discriminate].
  destruct (Py.int_of_str ts) as [t|] eqn:Et; [ | discriminate]. cbn [bind].
  destruct (Z.gtb_spec (now - 60 * 5) t); [discriminate | ].
  destruct (has_duplicates_in_cache _ _ d) eqn:Ed; [discriminate | ].
  intros _. split; [exact Ek | ].
  split; [exists ts, t; split; [reflexivity | split; [exact Et | lia]] | ].
  intros Hp. apply has_duplicates_iff in Hp. rewrite Hp in Ed. discriminate Ed.
Qed.

Lemma args_get_set_param_same (k v : string) (r : request) :
  args_get k (set_param k v r) = Some v.
Proof. apply dict_get_dict_set_same. Qed.

(** The outcome for an accepted request with the value of one parameter
    changed and the signature kept: it is rejected, or the new timestamp
    is no integer and [ValueError] is raised, or HMAC-SHA1 collides. *)
Lemma tampered_outcome (cfg : config) (now : Z) (r : request) (d : db)
    (k v v' : string) :
  fst (check_signature cfg now r d) = ACCEPT ->
  k <> "oauth_signature" -> dict_get k (args r) = Some v -> v' <> v ->
  fst (check_signature cfg now (set_param k v' r) d) = REJECT
  \/ (k = "oauth_timestamp" /\ Py.int_of_str v' = None
      /\ fst (check_signature cfg now (set_param k v' r) d) = ERROR ValueError)
  \/ hmac_collision (signature_key cfg) (signature_message (set_param k v' r))
                    (signature_message r).
Proof.
  intros Hacc Hk Hget Hv.
  destruct (String.eqb_spec k "oauth_timestamp") as [-> | Hts].
  - pose proof Hacc as Hval. apply check_accept_valid in Hval.
    pose proof (valid_true_signature _ _ _ _ Hval) as Hsig.
    destruct (accepted_conditions _ _ _ _ Hval) as (Hkey & _ & _).
    destruct (fst (check_signature cfg now (set_param "oauth_timestamp" v' r) d))
      eqn:E.
    + right. right.
      now apply tampered_accepted_collision with (now := now) (d := d) (v := v).
    + now left.
    + right. left. split; [reflexivity | ].
      unfold check_signature in E.
      destruct (_oauth_is_signature_valid cfg now
                  (set_param "oauth_timestamp" v' r) d) as [[|]|e'] eqn:E';
        try discriminate E.
      injection E as <-. revert E'. unfold _oauth_is_signature_valid.
      rewrite args_get_set_param_same.
      rewrite (args_get_set_param_other "oauth_consumer_key") by discriminate.
      rewrite (args_get_set_param_other "oauth_signature") by discriminate.
      rewrite Hkey, Hsig. cbn [opt_str_eqb]. rewrite String.eqb_refl.
      cbn [negb].
      destruct (Py.int_of_str v') as [n|]; cbn [bind].
      * destruct (_ >? n); [discriminate | ].
        destruct (has_duplicates_in_cache _ _ d); [discriminate | ].
        destruct (negb _); discriminate.
      * intros [= <-]. split; reflexivity.
  - destruct (tampered_rejected cfg now r d k v v' Hacc Hk Hts Hget Hv)
      as [H | H]; [now left | right; now right].
Qed.

End Validator.

(** ** Signature validation: the expected signature and the scenario *)

Section SignatureClaims.

Import Database Decorators Scenario.

(** C1, counterexample.  The scenario request with the parameters [foo=bar]
    and [x=1] alone, carrying the signature the validator computes for it,
    is rejected: it has no [oauth_consumer_key], and the first check of the
    validator compares that parameter with the configured client id.  And
    the message of the code is not the percent-encoded one for a key with
    a slash, which the code leaves as it is, for a base URL with a space,
    which the code writes as [+], nor for a base URL with [http://] past
    its scheme, which the code replaces as well. *)
Lemma scenario_rejected_and_encodings_differ :
  let cfg := scenario_config "client-id" in
  fst (check_signature cfg 1000
         (sign (generate_signature cfg plain_request) plain_request)
         empty_db) = REJECT
  /\ (let r := with_args [("a/b", "1")] plain_request in
      signature_message r
      = "GET&https%3A%2F%2Ftest.example%2Fendpoint&a/b%3D1"
      /\ Spec.canonical_message r
         = "GET&https%3A%2F%2Ftest.example%2Fendpoint&a%2Fb%3D1"
      /\ generate_signature cfg r <> Spec.expected_signature cfg r)
  /\ (let r := with_base_url "https://test.example/end point" plain_request in
      signature_message r
      = "GET&https%3A%2F%2Ftest.example%2Fend+point&foo%3Dbar%26x%3D1"
      /\ Spec.canonical_message r
         = "GET&https%3A%2F%2Ftest.example%2Fend%20point&foo%3Dbar%26x%3D1"
      /\ generate_signature cfg r <> Spec.expected_signature cfg r)
  /\ (let r := with_base_url "https://test.example/to/http://x" plain_request in
      signature_message r
      = "GET&https%3A%2F%2Ftest.example%2Fto%2Fhttps%3A%2F%2Fx&foo%3Dbar%26x%3D1"
      /\ Spec.canonical_message r
         = "GET&https%3A%2F%2Ftest.example%2Fto%2Fhttp%3A%2F%2Fx&foo%3Dbar%26x%3D1"
      /\ generate_signature cfg r <> Spec.expected_signature cfg r).
Proof.
  intros cfg.
  split; [vm_compute; reflexivity | ].
  repeat split; try (vm_compute; reflexivity);
    intros H; vm_compute in H; discriminate H.
Qed.

Lemma scenario_plainly_quoted (client_id nonce ts s : string) :
  plainly_quoted (sign s (scenario_request client_id nonce ts))
  /\ plainly_quoted (scenario_request client_id nonce ts).
Proof.
  split; (split; [ | split; [ | split]]).
  - simpl. repeat constructor; simpl; intuition discriminate.
  - simpl. intros k H _.
    repeat (destruct H as [<- | H]; [reflexivity | ]). destruct H.
  - reflexivity.
  - reflexivity.
  - simpl. repeat constructor; simpl; intuition discriminate.
  - simpl. intros k H _.
    repeat (destruct H as [<- | H]; [reflexivity | ]). destruct H.
  - reflexivity.
  - reflexivity.
Qed.

(** C1, as amended.  The expected signature is base64(HMAC-SHA1(
    client_secret + "&", METHOD & E(https base URL) & E(sorted query
    string))), the sorted query string built from the first value of each
    parameter but [oauth_signature], values percent-encoded, sorted by
    key, the https base URL being the base URL with every [http://]
    replaced, and E being percent_encode but for a space of the base URL,
    written [+], and a slash of a key, left as it is; on a request that
    gives each key once, no key with a slash, and whose base URL has no
    space and no [http://] past its beginning, it is the signature of the
    formula with percent_encode.  A
    request is accepted only if its [oauth_signature] equals the expected
    signature.  The scenario
    request, carrying also the configured consumer key, an integer
    timestamp at most 300 seconds old and a nonce and a timestamp that no
    document of the cache holds, is accepted with the validator's own
    signature, which is the one of the formula; with the value of any
    parameter but [oauth_signature] changed and the old signature kept,
    it is rejected, or the new timestamp is no integer and [ValueError] is
    raised, or the two different signature messages have the same
    HMAC-SHA1 digest, without which it is never accepted. *)
Theorem signature_validation :
  (forall cfg r, generate_signature cfg r = Spec.amended_signature cfg r)
  /\ (forall cfg r,
        plainly_quoted r ->
        generate_signature cfg r = Spec.expected_signature cfg r)
  /\ (forall cfg now r d,
        fst (check_signature cfg now r d) = ACCEPT ->
        args_get "oauth_signature" r = Some (generate_signature cfg r))
  /\ (forall client_id nonce ts t now d,
        let cfg := scenario_config client_id in
        let r0 := scenario_request client_id nonce ts in
        let r := sign (generate_signature cfg r0) r0 in
        Py.int_of_str ts = Some t -> now - 300 <= t ->
        ~ pair_cached (Some nonce) (Some ts) d ->
        generate_signature cfg r0 = Spec.expected_signature cfg r0
        /\ fst (check_signature cfg now r d) = ACCEPT
        /\ forall k v v',
             dict_get k (args r) = Some v -> k <> "oauth_signature" -> v' <> v ->
             let r' := set_param k v' r in
             let collision :=
               hmac_collision (signature_key cfg) (signature_message r')
                              (signature_message r) in
             (fst (check_signature cfg now r' d) = ACCEPT -> collision)
             /\ (fst (check_signature cfg now r' d) = REJECT
                 \/ (k = "oauth_timestamp" /\ Py.int_of_str v' = None
                     /\ fst (check_signature cfg now r' d) = ERROR ValueError)
                 \/ collision)).
Proof.
  split; [exact generate_signature_amended | ].
  split; [exact generate_signature_spec | split].
  - intros cfg now r d H.
    now apply check_accept_valid, valid_true_signature in H.
  - intros client_id nonce ts t now d cfg r0 r Hts Hfresh Habsent.
    assert (Hacc : fst (check_signature cfg now r d) = ACCEPT).
    { apply check_accept_valid.
      apply (accept_conditions cfg now r d ts t);
        try reflexivity; try assumption. }
    split; [apply generate_signature_spec, scenario_plainly_quoted; exact "" | ].
    split; [exact Hacc | ].
    intros k v v' Hget Hk Hv r' collision. split.
    + intros H.
      apply (tampered_accepted_collision cfg now r d k v v'); try assumption.
      apply (valid_true_signature cfg now r d), check_accept_valid, Hacc.
    + now apply (tampered_outcome cfg now r d k v v').
Qed.

(** The instance of the scenario with client id [cid], nonce [n1] and
    timestamp [1000], validated at time 1100 with an empty replay cache. *)
Lemma signature_validation_witness :
  let cfg := scenario_config "cid" in
  let r0 := scenario_request "cid" "n1" "1000" in
  let r := sign (generate_signature cfg r0) r0 in
  fst (check_signature cfg 1100 r empty_db) = ACCEPT
  /\ (fst (check_signature cfg 1100 (set_param "foo" "baz" r) empty_db) = REJECT
      \/ hmac_collision (signature_key cfg)
           (signature_message (set_param "foo" "baz" r)) (signature_message r)).
Proof.
  intros cfg r0 r.
  destruct (proj2 (proj2 (proj2 signature_validation)) "cid" "n1" "1000" 1000
              1100 empty_db eq_refl ltac:(lia)) as (_ & Hacc & Htamper).
  - intros (c & [] & _).
  - split; [exact Hacc | ].
    destruct (proj2 (Htamper "foo" "bar" "baz" eq_refl ltac:(discriminate)
                       ltac:(discriminate)))
      as [H | [(H & _) | H]]; [now left | discriminate H | now right].
Defined.

(** The signatures of the scenario, as [hmac] and [base64] compute them,
    and the outcome of the tampered requests. *)
Example scenario_signatures :
  generate_signature (scenario_config "cid") plain_request
  = "+bLquoHqXhPt4nCdVMwmcDZ6T5Y="
  /\ signature_message (scenario_request "cid" "n1" "1000")
     = "GET&https%3A%2F%2Ftest.example%2Fendpoint&foo%3Dbar%26oauth_consumer_key%3Dcid%26oauth_nonce%3Dn1%26oauth_timestamp%3D1000%26x%3D1"
  /\ generate_signature (scenario_config "cid") (scenario_request "cid" "n1" "1000")
     = "1WRyGD51MHM1gTWzymfCkCHwYr0="
  /\ (let r := sign "1WRyGD51MHM1gTWzymfCkCHwYr0="
                    (scenario_request "cid" "n1" "1000") in
      fst (check_signature (scenario_config "cid") 1100
             (set_param "foo" "baz" r) empty_db) = REJECT
      /\ fst (check_signature (scenario_config "cid") 1100
                (set_param "x" "2" r) empty_db) = REJECT).
Proof. vm_compute. repeat split. Qed.

(** C10.  Two requests that agree on the method, the base URL and every
    query parameter but [oauth_signature] have the same expected signature
    and the same outcome of the checks that precede the comparison; the
    outcome of the validator is that of those checks or, when they pass,
    the comparison of the request's [oauth_signature] with the common
    expected signature. *)
Theorem signature_noninterference (cfg : config) (now : Z) (d : db)
    (r1 r2 : request) :
  same_but_signature r1 r2 ->
  generate_signature cfg r1 = generate_signature cfg r2
  /\ early_checks cfg now r1 d = early_checks cfg now r2 d
  /\ (forall r, r = r1 \/ r = r2 ->
        _oauth_is_signature_valid cfg now r d
        = match early_checks cfg now r1 d with
          | Some outcome => outcome
          | None =>
              match args_get "oauth_signature" r with
              | None => Raise AttributeError
              | Some s => Ok (String.eqb (generate_signature cfg r1) s)
              end
          end).
Proof.
  intros H.
  pose proof (generate_signature_same cfg r1 r2 H) as Hg.
  pose proof (early_checks_same cfg now r1 r2 d H) as He.
  repeat split; try assumption.
  intros r [-> | ->]; rewrite valid_decomposition; unfold signature_matches.
  - destruct (early_checks cfg now r1 d); [reflexivity | ].
    now destruct (args_get "oauth_signature" r1).
  - rewrite <- He, <- Hg. destruct (early_checks cfg now r1 d); [reflexivity | ].
    now destruct (args_get "oauth_signature" r2).
Qed.

(** The scenario request with a forged signature and with none. *)
Lemma signature_noninterference_witness :
  let r1 := sign "forged" (scenario_request "cid" "n1" "1000") in
  let r2 := scenario_request "cid" "n1" "1000" in
  generate_signature (scenario_config "cid") r1
  = generate_signature (scenario_config "cid") r2.
Proof.
  intros r1 r2.
  apply (signature_noninterference (scenario_config "cid") 1100 empty_db r1 r2).
  repeat split.
Defined.

End SignatureClaims.

(** ** The replay cache *)

Section ReplayCache.

Import Database Decorators Scenario.

Lemma opt_str_eqb_refl (a : option string) : opt_str_eqb a a = true.
Proof. destruct a; simpl; [apply String.eqb_refl | reflexivity]. Qed.

Lemma find_exists {A : Type} (p : A -> bool) (x : A) (l : list A) :
  In x l -> p x = true -> find p l <> None.
Proof.
  induction l as [|y l IH]; simpl; [tauto | ].
  intros [-> | Hin] Hp.
  - rewrite Hp. discriminate.
  - destruct (p y); [discriminate | now apply IH].
Qed.

Lemma replay_entry_found (now : Z) (r : request) (d : db) :
  In (replay_entry now r) (cache d) ->
  has_duplicates_in_cache (args_get "oauth_nonce" r)
                          (args_get "oauth_timestamp" r) d = true.
Proof.
  intros Hin. unfold has_duplicates_in_cache, find_one_from_cache.
  destruct (find _ (cache d)) eqn:E; [reflexivity | exfalso].
  revert E. apply find_exists with (x := replay_entry now r); [exact Hin | ].
  unfold cache_matches, data_field. simpl.
  now rewrite !opt_str_eqb_refl.
Qed.

(** A request that was accepted once is rejected as long as its entry is
    in the replay cache. *)
Lemma retry_rejected (cfg : config) (now now' : Z) (r : request) (d d' : db) :
  _oauth_is_signature_valid cfg now r d = Ok true ->
  In (replay_entry now r) (cache d') ->
  _oauth_is_signature_valid cfg now' r d' = Ok false.
Proof.
  intros Hval Hin. apply replay_entry_found in Hin.
  revert Hval. unfold _oauth_is_signature_valid.
  destruct (negb _); [discriminate | ].
  destruct (args_get "oauth_timestamp" r) as [t|]; simpl; [ | discriminate].
  destruct (Py.int_of_str t) as [n|]; simpl; [ | discriminate].
  intros _. rewrite Hin. now destruct (_ >? n).
Qed.

Lemma expire_keeps (now' : Z) (c : cache_doc) (d : db) :
  In c (cache d) -> now' < c_expires_at c -> In c (cache (expire now' d)).
Proof.
  intros Hin Hlt. unfold expire. simpl. apply filter_In. split; [exact Hin | ].
  now apply Z.ltb_lt.
Qed.

(** The query of an empty [matching_data] finds the documents whose [data]
    is empty. *)
Lemma cache_matches_empty (c : cache_doc) :
  cache_matches [] c = true <-> c_data c = [].
Proof.
  unfold cache_matches. destruct (c_data c); split; (reflexivity || discriminate).
Qed.

(** The validator removes nothing from the cache. *)
Lemma check_signature_keeps (cfg : config) (now : Z) (r : request) (d : db)
    (c : cache_doc) :
  In c (cache d) -> In c (cache (snd (check_signature cfg now r d))).
Proof.
  intros H. unfold check_signature.
  destruct (_oauth_is_signature_valid cfg now r d) as [[|]|e]; simpl;
    [apply in_or_app; now left | exact H ..].
Qed.

Lemma replay_entry_cached (now : Z) (r : request) (d : db) :
  In (replay_entry now r) (cache d) ->
  pair_cached (args_get "oauth_nonce" r) (args_get "oauth_timestamp" r) d.
Proof. intros H. exists (replay_entry now r). now repeat split. Qed.

(** C2.  The check of a signed request writes the pair (oauth_nonce,
    oauth_timestamp) to the replay cache, in a document stamped to expire
    300 seconds later, exactly when the request is accepted; any other
    outcome leaves the store as it was.  A request is accepted only if no
    document of the cache holds its pair, and after it was accepted one
    does: the request is rejected when it is sent again, at any time, on
    any store that holds the document, and no later check removes the
    document.  A request with the configured consumer key, an integer
    timestamp at most 300 seconds old, a pair that no document of the
    cache holds and the signature of the validator is accepted. *)
Theorem replay_cache_written_on_accept (cfg : config) (now : Z) (r : request)
    (d : db) :
  let outcome := fst (check_signature cfg now r d) in
  let d' := snd (check_signature cfg now r d) in
  let oauth_nonce := args_get "oauth_nonce" r in
  let oauth_timestamp := args_get "oauth_timestamp" r in
  (outcome = ACCEPT ->
     d' = with_cache (cache d ++ [replay_entry now r])%list d
     /\ c_expires_in (replay_entry now r) = 300
     /\ c_expires_at (replay_entry now r) = now + 300
     /\ ~ pair_cached oauth_nonce oauth_timestamp d
     /\ pair_cached oauth_nonce oauth_timestamp d'
     /\ (forall now' d'', In (replay_entry now r) (cache d'') ->
                          check_signature cfg now' r d'' = (REJECT, d''))
     /\ (forall cfg' now' r' d'',
           In (replay_entry now r) (cache d'') ->
           In (replay_entry now r)
              (cache (snd (check_signature cfg' now' r' d'')))))
  /\ (outcome <> ACCEPT -> d' = d)
  /\ (cache d' <> cache d -> outcome = ACCEPT)
  /\ (pair_cached oauth_nonce oauth_timestamp d -> outcome <> ACCEPT)
  /\ (forall ts t,
        args_get "oauth_consumer_key" r = Some (CLOUD_APP_CLIENT_ID cfg) ->
        oauth_timestamp = Some ts -> Py.int_of_str ts = Some t ->
        now - 300 <= t ->
        ~ pair_cached oauth_nonce oauth_timestamp d ->
        args_get "oauth_signature" r = Some (generate_signature cfg r) ->
        outcome = ACCEPT).
Proof.
  intros outcome d' oauth_nonce oauth_timestamp.
  subst outcome d' oauth_nonce oauth_timestamp.
  assert (Hwritten : fst (check_signature cfg now r d) = ACCEPT ->
            snd (check_signature cfg now r d)
            = with_cache (cache d ++ [replay_entry now r])%list d).
  { unfold check_signature.
    destruct (_oauth_is_signature_valid cfg now r d) as [[|]|e];
      [reflexivity | discriminate ..]. }
  split; [ | split; [ | split; [ | split]]].
  - intros H. pose proof H as Hval. apply check_accept_valid in Hval.
    split; [now apply Hwritten | ].
    split; [reflexivity | ]. split; [reflexivity | ].
    split; [apply (accepted_conditions cfg now r d Hval) | ].
    split; [ | split].
    + apply (replay_entry_cached now). rewrite (Hwritten H). simpl.
      apply in_or_app. right. now left.
    + intros now' d'' Hin. unfold check_signature.
      now rewrite (retry_rejected cfg now now' r d d'' Hval Hin).
    + intros cfg' now' r' d''. apply check_signature_keeps.
  - unfold check_signature.
    destruct (_oauth_is_signature_valid cfg now r d) as [[|]|e]; simpl;
      [intros H; now elim H | reflexivity ..].
  - unfold check_signature.
    destruct (_oauth_is_signature_valid cfg now r d) as [[|]|e]; simpl;
      [reflexivity | intros H; now elim H ..].
  - intros Hp H. apply check_accept_valid in H.
    now apply (accepted_conditions cfg now r d H).
  - intros ts t Hkey Hts Ht Hfresh Habsent Hsig. apply check_accept_valid.
    apply (accept_conditions cfg now r d ts t); try assumption.
    now rewrite <- Hts.
Qed.

(** The signed scenario request, checked at time 1100 on a cache that
    holds its nonce with another timestamp, and sent again at time 1101. *)
Lemma replay_cache_written_on_accept_witness :
  let cfg := scenario_config "cid" in
  let r := sign "1WRyGD51MHM1gTWzymfCkCHwYr0="
                (scenario_request "cid" "n1" "1000") in
  let other := replay_entry 1050 (scenario_request "cid" "n1" "999") in
  let d := with_cache [other] empty_db in
  let d' := snd (check_signature cfg 1100 r d) in
  fst (check_signature cfg 1100 r d) = ACCEPT
  /\ cache d' = [other; replay_entry 1100 r]
  /\ check_signature cfg 1101 r d' = (REJECT, d').
Proof.
  intros cfg r other d d'.
  destruct (replay_cache_written_on_accept cfg 1100 r d)
    as (Hacc & _ & _ & _ & Haccept).
  assert (H : fst (check_signature cfg 1100 r d) = ACCEPT).
  { apply (Haccept "1000" 1000); try reflexivity; try lia.
    intros (c & [<- | []] & _ & Hts). discriminate Hts. }
  destruct (Hacc H) as (Hd & _ & _ & _ & _ & Hretry & _).
  split; [exact H | ]. split.
  - subst d'. rewrite Hd. reflexivity.
  - apply Hretry. subst d'. rewrite Hd. simpl. right. now left.
Defined.

End ReplayCache.

(** ** The decorated view: rejections and unhandled errors *)

Section DecoratedView.

Import Database Decorators Scenario.

Lemma validate_outcome (cfg : config) (now : Z) (new_id : ObjectId)
    (r : request) (f : view) (st : Session.state) :
  validate_oauth_signature None false cfg now new_id r f st
  = match _oauth_is_signature_valid cfg now r (fst st) with
    | Ok true => f (snd (check_signature cfg now r (fst st)), snd st)
    | Ok false => (Raise (HTTPException 401), st)
    | Raise e => (Raise e, st)
    end.
Proof.
  unfold validate_oauth_signature, check_signature. simpl.
  destruct st as [d fs]. simpl.
  now destruct (_oauth_is_signature_valid cfg now r d) as [[|]|e].
Qed.

(** C3, the behaviour of the code.  Each of the four causes of rejection
    makes the decorated view answer 401 and leaves the state as it was.  A
    request with the right consumer key but no [oauth_timestamp], or one
    that is not an integer, or (the early checks passed) no
    [oauth_signature], is not rejected: [TypeError], [ValueError] and
    [AttributeError] escape the view, and the framework answers 500. *)
Theorem missing_oauth_parameter_unhandled (cfg : config) (now : Z)
    (new_id : ObjectId) (r : request) (f : view) (st : Session.state) :
  let answer := validate_oauth_signature None false cfg now new_id r f st in
  (_oauth_is_signature_valid cfg now r (fst st) = Ok false ->
     answer = (Raise (HTTPException 401), st) /\ status_of (fst answer) = 401)
  /\ (args_get "oauth_consumer_key" r = Some (CLOUD_APP_CLIENT_ID cfg) ->
      (args_get "oauth_timestamp" r = None ->
         answer = (Raise TypeError, st) /\ status_of (fst answer) = 500)
      /\ (forall t, args_get "oauth_timestamp" r = Some t ->
                    Py.int_of_str t = None ->
         answer = (Raise ValueError, st) /\ status_of (fst answer) = 500))
  /\ (early_checks cfg now r (fst st) = None ->
      args_get "oauth_signature" r = None ->
      answer = (Raise AttributeError, st) /\ status_of (fst answer) = 500).
Proof.
  intros answer. subst answer. rewrite validate_outcome. repeat split.
  - now rewrite H.
  - now rewrite H.
  - unfold _oauth_is_signature_valid. rewrite H, H0. simpl.
    now rewrite String.eqb_refl.
  - unfold _oauth_is_signature_valid. rewrite H, H0. simpl.
    now rewrite String.eqb_refl.
  - unfold _oauth_is_signature_valid. rewrite H, H0, H1. simpl.
    now rewrite String.eqb_refl.
  - unfold _oauth_is_signature_valid. rewrite H, H0, H1. simpl.
    now rewrite String.eqb_refl.
  - rewrite valid_decomposition, H. unfold signature_matches. now rewrite H0.
  - rewrite valid_decomposition, H. unfold signature_matches. now rewrite H0.
Qed.

(** The scenario request without its timestamp, before the status view. *)
Lemma missing_oauth_parameter_unhandled_witness :
  let r := {| method := "POST"; base_url := "https://test.example/endpoint";
              args := [("oauth_consumer_key", "cid"); ("oauth_nonce", "n1");
                       ("oauth_signature", "c2ln")] |} in
  let st := (empty_db, Session.cleared) in
  let lifecycle_status : view := fun st => (Ok (Response "OK" 200), st) in
  validate_oauth_signature None false (scenario_config "cid") 1100 "" r
    lifecycle_status st
  = (Raise TypeError, st).
Proof.
  intros r st f.
  apply (proj1 (proj2 (missing_oauth_parameter_unhandled
                         (scenario_config "cid") 1100 "" r f st))
           eq_refl).
  reflexivity.
Defined.

End DecoratedView.

(** ** Sessions *)

Section Sessions.

Import Database Session.

Lemma find_update_first {A : Type} (p : A -> bool) (f : A -> A) (l : list A) :
  (forall x, p (f x) = p x) ->
  find p (snd (update_first p f l)) = option_map f (find p l).
Proof.
  intros Hp. induction l as [|x l IH]; simpl; [reflexivity | ].
  destruct (p x) eqn:E; simpl.
  - now rewrite Hp, E.
  - destruct (update_first p f l) as [m l']. simpl in *. now rewrite E.
Qed.

Lemma update_first_absent {A : Type} (p : A -> bool) (f : A -> A) (l : list A) :
  find p l = None -> update_first p f l = (false, l).
Proof.
  induction l as [|x l IH]; simpl; [reflexivity | ].
  destruct (p x); [discriminate | ]. intros H. now rewrite IH.
Qed.

Lemma find_filter_none {A : Type} (p q : A -> bool) (l : list A) :
  (forall x, In x l -> p x = true -> q x = false) -> find p (filter q l) = None.
Proof.
  induction l as [|x l IH]; simpl; intros H; [reflexivity | ].
  destruct (q x) eqn:Eq; simpl.
  - destruct (p x) eqn:Ep.
    + rewrite (H x) in Eq; [discriminate | now left | exact Ep].
    + apply IH. intros y Hy. apply H. now right.
  - apply IH. intros y Hy. apply H. now right.
Qed.

(** What [Database.get_session] returns for a well-formed id. *)
Lemma get_session_found (sid : string) (oid : ObjectId) (now : Z) (d : db) :
  ObjectId_of_str sid = Ok oid ->
  fst (Database.get_session sid true now d)
  = Ok (find (has_id oid) (sessions d)).
Proof.
  intros H. unfold Database.get_session. rewrite H.
  now destruct (find (has_id oid) (sessions d)).
Qed.

Lemma get_session_invalid (sid : string) (now : Z) (d : db) :
  ObjectId_of_str sid = Raise InvalidId ->
  Database.get_session sid true now d = (Raise InvalidId, d).
Proof. intros H. unfold Database.get_session. now rewrite H. Qed.

Lemma ObjectId_of_str_cases (sid : string) :
  (exists oid, ObjectId_of_str sid = Ok oid)
  \/ ObjectId_of_str sid = Raise InvalidId.
Proof.
  unfold ObjectId_of_str. destruct (_ && _); [left; eauto | now right].
Qed.

(** The outcome of resolving an existing session, by cases on the cookie
    and on the store. *)
Lemma resolve_outcome (now : Z) (new_id : ObjectId) (d : db) (fs : flask_session) :
  fst (Session.get_session now new_id (d, fs))
  = match (if id_bound fs
           then match fs_session_id fs with
                | Some sid => fst (Database.get_session sid true now d)
                | None => Ok None
                end
           else Ok None) with
    | Raise e => Raise e
    | Ok None =>
        if id_bound fs || cached_expiry_passed now fs
        then Raise SessionExpired else Raise SessionNotFound
    | Ok (Some doc) =>
        if cached_expiry_passed now fs then Raise SessionExpired
        else match bind_session doc with
             | Raise e => Raise e
             | Ok (self, _) => Ok self
             end
    end.
Proof.
  unfold Session.get_session, __init__, id_bound.
  destruct (fs_session_id fs) as [sid|]; simpl.
  - destruct (Py.truthy_str sid); simpl.
    + destruct (Database.get_session sid true now d) as [[[doc|]|e] d1]; simpl.
      * destruct (cached_expiry_passed now fs); [reflexivity | ].
        now destruct (bind_session doc) as [[self fs']|e].
      * reflexivity.
      * reflexivity.
    + now destruct (cached_expiry_passed now fs).
  - now destruct (cached_expiry_passed now fs).
Qed.

End Sessions.

(** ** Resolving a session: the two errors *)

Section ResolveErrors.

Import Database Session Scenario.

(** C4, counterexample.  A session id is bound to the caller, it is
    well formed and the store holds no record for it: the resolve raises
    [SessionExpired], not [SessionNotFound]. *)
Lemma resolve_unknown_id_raises_expired :
  fst (Session.get_session 1000 "5f0000000000000000000002"
         (empty_db, {| fs_session_id := Some "5f0000000000000000000001";
                       fs_expires_at := None |}))
  = Raise SessionExpired.
Proof. vm_compute. reflexivity. Qed.

Ltac resolve_cases :=
  try discriminate;
  repeat match goal with
         | H : _ /\ _ |- _ => destruct H
         | H : _ \/ _ |- _ => destruct H
         | H : exists _, _ |- _ => destruct H
         end;
  try discriminate; try congruence; auto.

(** C4, as amended.  Resolving an existing session raises [SessionNotFound]
    exactly when no session id is bound to the caller and the cached expiry
    is absent or has not passed; it raises [SessionExpired] exactly when no
    id is bound and the cached expiry has passed, or a well-formed id is
    bound and either the store has no record for it or the cached expiry
    has passed. *)
Theorem resolve_missing_or_expired (now : Z) (new_id : ObjectId) (d : db)
    (fs : flask_session) :
  let outcome := fst (Session.get_session now new_id (d, fs)) in
  (outcome = Raise SessionNotFound <->
     id_bound fs = false /\ cached_expiry_passed now fs = false)
  /\ (outcome = Raise SessionExpired <->
        (id_bound fs = false /\ cached_expiry_passed now fs = true)
        \/ (exists sid oid,
              fs_session_id fs = Some sid /\ id_bound fs = true
              /\ ObjectId_of_str sid = Ok oid
              /\ (find (has_id oid) (sessions d) = None
                  \/ cached_expiry_passed now fs = true))).
Proof.
  intros outcome. subst outcome. rewrite resolve_outcome.
  destruct (id_bound fs) eqn:Hb.
  - assert (Hsid : exists sid, fs_session_id fs = Some sid).
    { unfold id_bound in Hb. destruct (fs_session_id fs); [eauto | discriminate]. }
    destruct Hsid as [sid Hsid]. rewrite Hsid.
    destruct (ObjectId_of_str_cases sid) as [[oid Hoid] | Hinv].
    + rewrite (get_session_found sid oid now d Hoid).
      destruct (find (has_id oid) (sessions d)) as [doc|] eqn:Hfind.
      * destruct (cached_expiry_passed now fs) eqn:Hp.
        -- split; split; intros H; resolve_cases.
           right. exists sid, oid. auto.
        -- unfold bind_session.
           destruct (s_is_authed doc); split; split; intros H; resolve_cases.
      * simpl. split; split; intros H; resolve_cases.
        right. exists sid, oid. auto.
    + rewrite (get_session_invalid sid now d Hinv). simpl.
      split; split; intros H; resolve_cases.
  - simpl. destruct (cached_expiry_passed now fs) eqn:Hp;
      split; split; intros H; resolve_cases.
Qed.

(** A caller with no cookie, and a caller whose cookie names a record the
    store does not hold. *)
Lemma resolve_missing_or_expired_witness :
  fst (Session.get_session 1000 "5f0000000000000000000002"
         (empty_db, cleared)) = Raise SessionNotFound
  /\ fst (Session.get_session 1000 "5f0000000000000000000002"
            (empty_db, {| fs_session_id := Some "5f0000000000000000000001";
                          fs_expires_at := Some 4600 |}))
     = Raise SessionExpired.
Proof.
  split.
  - apply (proj1 (resolve_missing_or_expired 1000 "5f0000000000000000000002"
                    empty_db cleared)).
    split; reflexivity.
  - apply (proj2 (resolve_missing_or_expired 1000 "5f0000000000000000000002"
                    empty_db _)).
    right. exists "5f0000000000000000000001", "5f0000000000000000000001".
    repeat split. now left.
Defined.

End ResolveErrors.

(** ** Resolving a session: the sliding expiry *)

Section SlidingExpiry.

Import Database Session Scenario.

Lemma lower_idem (c : ascii) : lower (lower c) = lower c.
Proof. destruct c as [[] [] [] [] [] [] [] []]; vm_compute; reflexivity. Qed.

Lemma is_hex_lower (c : ascii) : is_hex (lower c) = is_hex c.
Proof. destruct c as [[] [] [] [] [] [] [] []]; vm_compute; reflexivity. Qed.

Lemma lower_str_props (s : string) :
  String.length (lower_str s) = String.length s
  /\ all_hex (lower_str s) = all_hex s
  /\ lower_str (lower_str s) = lower_str s.
Proof.
  induction s as [|c s (IH1 & IH2 & IH3)]; simpl; [now repeat split | ].
  now rewrite IH1, IH2, IH3, is_hex_lower, lower_idem.
Qed.

(** An identifier read from a well-formed string is itself well formed. *)
Lemma ObjectId_of_str_canonical (sid : string) (oid : ObjectId) :
  ObjectId_of_str sid = Ok oid -> ObjectId_of_str (str_of_ObjectId oid) = Ok oid.
Proof.
  unfold ObjectId_of_str, str_of_ObjectId.
  destruct (Nat.eqb _ _ && all_hex sid) eqn:E; [ | discriminate].
  intros H. injection H as <-.
  destruct (lower_str_props sid) as (H1 & H2 & H3).
  now rewrite H1, H2, E, H3.
Qed.

Lemma has_id_eq (oid : ObjectId) (doc : session_doc) (l : list session_doc) :
  find (has_id oid) l = Some doc -> s_id doc = oid.
Proof.
  intros H. apply find_some in H. destruct H as [_ H].
  now apply String.eqb_eq in H.
Qed.

(** [Database.get_session] refreshes the record in the store and returns
    the document as it was before the refresh. *)
Lemma get_session_returns_stale (sid : string) (oid : ObjectId) (now : Z)
    (d : db) (doc : session_doc) :
  ObjectId_of_str sid = Ok oid ->
  find (has_id oid) (sessions d) = Some doc ->
  fst (Database.get_session sid true now d) = Ok (Some doc)
  /\ option_map s_expires_at
       (find (has_id oid) (sessions (snd (Database.get_session sid true now d))))
     = Some (now + s_expires_in doc).
Proof.
  intros Hoid Hfind. unfold Database.get_session. rewrite Hoid, Hfind. simpl.
  split; [reflexivity | ].
  rewrite find_update_first by reflexivity. now rewrite Hfind.
Qed.

(** C5, the behaviour of the code.  A successful resolve at time [now]
    moves the expiry of the store record to [now + expires_in], and binds
    the caller's cached expiry to the expiry the record had before: the
    cached expiry is not extended, and the next resolve at or after that
    earlier expiry raises [SessionExpired] whatever the store holds. *)
Theorem resolve_rebinds_stale_expiry (now : Z) (new_id : ObjectId) (d : db)
    (fs : flask_session) (sid : string) (oid : ObjectId) (doc : session_doc)
    (authed : bool) :
  fs_session_id fs = Some sid -> Py.truthy_str sid = true ->
  ObjectId_of_str sid = Ok oid ->
  find (has_id oid) (sessions d) = Some doc ->
  s_is_authed doc = Some authed ->
  cached_expiry_passed now fs = false ->
  let answer := Session.get_session now new_id (d, fs) in
  let d' := fst (snd answer) in
  let fs' := snd (snd answer) in
  (exists self, fst answer = Ok self /\ expires_at self = s_expires_at doc)
  /\ option_map s_expires_at (find (has_id oid) (sessions d'))
     = Some (now + s_expires_in doc)
  /\ fs_expires_at fs' = Some (s_expires_at doc)
  /\ (forall later new_id',
        s_expires_at doc <= later -> s_expires_at doc <> 0 ->
        fst (Session.get_session later new_id' (d', fs')) = Raise SessionExpired).
Proof.
  intros Hsid Htruthy Hoid Hfind Hauth Hpass answer d' fs'.
  destruct (get_session_returns_stale sid oid now d doc Hoid Hfind)
    as [Hret Hstore].
  assert (Hans : answer
                 = (Ok {| data := s_data doc; id := s_id doc;
                          expires_at := s_expires_at doc; is_authed := authed |},
                    (snd (Database.get_session sid true now d),
                     {| fs_session_id := Some (s_id doc);
                        fs_expires_at := Some (s_expires_at doc) |}))).
  { subst answer. unfold Session.get_session, __init__.
    rewrite Hsid, Htruthy.
    destruct (Database.get_session sid true now d) as [looked d1].
    simpl in Hret. subst looked. rewrite Hpass.
    unfold bind_session. now rewrite Hauth. }
  subst d' fs'. rewrite Hans. cbn [fst snd].
  split; [eauto | ]. split; [exact Hstore | ]. split; [reflexivity | ].
  intros later new_id' Hle Hnz.
  rewrite resolve_outcome.
  assert (Hexp : cached_expiry_passed later
                   {| fs_session_id := Some (s_id doc);
                      fs_expires_at := Some (s_expires_at doc) |} = true).
  { unfold cached_expiry_passed, Py.truthy_int. simpl.
    apply andb_true_intro. split; [ | now apply Z.leb_le].
    apply negb_true_iff. now apply Z.eqb_neq. }
  rewrite Hexp, orb_true_r.
  rewrite (has_id_eq oid doc _ Hfind). simpl fs_session_id.
  destruct (id_bound _); [ | reflexivity].
  rewrite (get_session_found oid oid later _ (ObjectId_of_str_canonical _ _ Hoid)).
  now destruct (find (has_id oid)
                  (sessions (snd (Database.get_session sid true now d)))).
Qed.

(** A session created at time 1000 with the default duration of 3600
    seconds, resolved at time 4599 and again at time 4600. *)
Lemma resolve_rebinds_stale_expiry_witness :
  let oid := "5f0000000000000000000001" in
  let st1 := snd (create_session None true 1000 oid (empty_db, cleared)) in
  let st2 := snd (Session.get_session 4599 oid st1) in
  snd st1 = {| fs_session_id := Some oid; fs_expires_at := Some 4600 |}
  /\ option_map s_expires_at (find (has_id oid) (sessions (fst st2))) = Some 8199
  /\ fs_expires_at (snd st2) = Some 4600
  /\ fst (Session.get_session 4600 oid st2) = Raise SessionExpired.
Proof.
  intros oid st1 st2.
  split; [reflexivity | ].
  destruct (resolve_rebinds_stale_expiry 4599 oid (fst st1) (snd st1) oid oid
              {| s_id := oid; s_expires_in := 3600; s_expires_at := 4600;
                 s_data := []; s_is_authed := Some true |} true
              eq_refl eq_refl eq_refl eq_refl eq_refl eq_refl)
    as (_ & Hstore & Hcookie & Hnext).
  split; [exact Hstore | ].
  split; [exact Hcookie | ].
  apply Hnext; simpl; lia.
Defined.

End SlidingExpiry.

(** ** Mutating a session *)

Section Mutation.

Import Database Session Scenario.

Lemma update_first_In {A : Type} (p : A -> bool) (f : A -> A) (l : list A)
    (y : A) :
  In y (snd (update_first p f l)) ->
  In y l \/ exists x, In x l /\ p x = true /\ y = f x.
Proof.
  induction l as [|x l IH]; simpl; [tauto | ].
  destruct (p x) eqn:E; simpl.
  - intros [<- | H]; [right; exists x; auto | auto].
  - destruct (update_first p f l) as [m l']. simpl in *.
    intros [<- | H]; [auto | ].
    destruct (IH H) as [H' | (x' & H1 & H2 & H3)]; [auto | ].
    right. exists x'. auto.
Qed.

Lemma delete_first_In {A : Type} (p : A -> bool) (l : list A) (y : A) :
  In y (snd (delete_first p l)) -> In y l.
Proof.
  induction l as [|x l IH]; simpl; [tauto | ].
  destruct (p x); simpl; [auto | ].
  destruct (delete_first p l) as [m l']. simpl in *. intuition.
Qed.

(** The operations of the store on a session keep [authed_default_ttl]. *)
Lemma set_session_keeps_ttl (dat : dict string) (session_id : option string)
    (expires_in : Z) (authed : option bool) (now : Z) (new_id : ObjectId)
    (d : db) :
  expires_in = default_expires_in \/ (authed = None /\ session_id = None) ->
  authed_default_ttl d ->
  authed_default_ttl
    (snd (set_session dat session_id expires_in authed now new_id d)).
Proof.
  intros Hcase Hinv. unfold set_session.
  destruct session_id as [sid|].
  - destruct (ObjectId_of_str sid) as [oid|e]; [ | exact Hinv].
    destruct (update_first (has_id oid) _ (sessions d)) as [m l] eqn:E.
    simpl. intros doc Hin Hauth.
    assert (Hin' : In doc (snd (update_first (has_id oid)
               (fun s => {| s_id := s_id s; s_expires_in := expires_in;
                            s_expires_at := _get_expiration_date now expires_in;
                            s_data := dat;
                            s_is_authed := match authed with
                                           | Some b => Some b
                                           | None => s_is_authed s
                                           end |}) (sessions d))))
      by now rewrite E.
    apply update_first_In in Hin'.
    destruct Hin' as [H | (x & _ & _ & ->)]; [now apply Hinv | ].
    simpl. destruct Hcase as [H | [_ H]]; [exact H | discriminate H].
  - destruct (existsb (has_id new_id) (sessions d)); [exact Hinv | ].
    simpl. intros doc Hin Hauth. apply in_app_or in Hin.
    destruct Hin as [H | [<- | []]]; [now apply Hinv | ].
    simpl in *. destruct Hcase as [H | [-> _]]; [exact H | now elim Hauth].
Qed.

Lemma get_session_keeps_ttl (sid : string) (refresh : bool) (now : Z) (d : db) :
  authed_default_ttl d ->
  authed_default_ttl (snd (Database.get_session sid refresh now d)).
Proof.
  intros Hinv. unfold Database.get_session.
  destruct (ObjectId_of_str sid) as [oid|e]; [ | exact Hinv].
  destruct (find (has_id oid) (sessions d)) as [res|] eqn:Hfind; [ | exact Hinv].
  destruct refresh; [ | exact Hinv].
  simpl. intros doc Hin Hauth. apply update_first_In in Hin.
  destruct Hin as [H | (x & Hx & _ & ->)]; [now apply Hinv | ].
  simpl in *. now apply Hinv.
Qed.

Lemma delete_session_keeps_ttl (sid : string) (d : db) :
  authed_default_ttl d -> authed_default_ttl (snd (delete_session sid d)).
Proof.
  intros Hinv. unfold delete_session.
  destruct (ObjectId_of_str sid) as [oid|e]; [ | exact Hinv].
  destruct (delete_first (has_id oid) (sessions d)) as [m l] eqn:E.
  simpl. intros doc Hin. apply Hinv.
  apply (delete_first_In (has_id oid)). now rewrite E.
Qed.

Lemma expire_keeps_ttl (now : Z) (d : db) :
  authed_default_ttl d -> authed_default_ttl (expire now d).
Proof.
  intros Hinv doc Hin. apply Hinv. simpl in Hin.
  now apply filter_In in Hin.
Qed.

Lemma Session_init_keeps_ttl (initial : option (dict string)) (authed : bool)
    (create_new : bool) (now : Z) (new_id : ObjectId) (d : db)
    (fs : flask_session) :
  authed_default_ttl d ->
  authed_default_ttl
    (fst (snd (__init__ initial authed create_new now new_id (d, fs)))).
Proof.
  intros Hinv. unfold __init__.
  assert (H1 : forall sid, authed_default_ttl
                 (snd (Database.get_session sid true now d)))
    by (intros sid; now apply get_session_keeps_ttl).
  destruct (match fs_session_id fs with
            | Some sid =>
                if Py.truthy_str sid
                then Database.get_session sid true now d else (Ok None, d)
            | None => (Ok None, d)
            end) as [looked d1] eqn:E1.
  assert (Hd1 : authed_default_ttl d1).
  { destruct (fs_session_id fs) as [sid|].
    - destruct (Py.truthy_str sid).
      + specialize (H1 sid). now rewrite E1 in H1.
      + now injection E1 as _ <-.
    - now injection E1 as _ <-. }
  destruct looked as [from_db|e]; [ | exact Hd1].
  destruct create_new.
  - destruct (match from_db, fs_session_id fs with
              | Some _, Some sid => delete_session sid d1
              | _, _ => (Ok false, d1)
              end) as [deleted d2] eqn:E2.
    assert (Hd2 : authed_default_ttl d2).
    { destruct from_db as [doc|]; [ | now injection E2 as _ <-].
      destruct (fs_session_id fs) as [sid|]; [ | now injection E2 as _ <-].
      pose proof (delete_session_keeps_ttl sid d1 Hd1) as H.
      now rewrite E2 in H. }
    destruct deleted as [b|e]; [ | exact Hd2].
    pose proof (set_session_keeps_ttl
                  match initial with Some (kv :: l) => kv :: l | _ => [] end
                  None default_expires_in (Some authed) now new_id d2
                  (or_introl eq_refl) Hd2) as H3.
    destruct (set_session _ None default_expires_in (Some authed) now new_id d2)
      as [[[doc|]|e] d3]; simpl in H3; try exact H3.
    now destruct (bind_session doc) as [[self fs']|e].
  - destruct from_db as [doc|].
    + destruct (cached_expiry_passed now fs); [exact Hd1 | ].
      now destruct (bind_session doc) as [[self fs']|e].
    + now destruct (id_bound fs || cached_expiry_passed now fs).
Qed.

Lemma Session_setitem_keeps_ttl (self : Session) (key value : string) (now : Z)
    (new_id : ObjectId) (d : db) :
  authed_default_ttl d ->
  authed_default_ttl (snd (__setitem__ self key value now new_id d)).
Proof.
  intros Hinv. unfold __setitem__.
  pose proof (set_session_keeps_ttl (dict_set key value (data self))
                (Some (id self)) default_expires_in None now new_id d
                (or_introl eq_refl) Hinv) as H.
  simpl data. simpl id.
  now destruct (set_session _ _ default_expires_in None now new_id d)
    as [[[doc|]|e] d1].
Qed.

(** C6, counterexample.  A record whose [_expires_at], 100, has passed
    long before the assignment at time 5000 is found all the same: the
    assignment raises nothing, writes the dictionary to the record and
    stamps it to expire at 8600. *)
Lemma expired_record_is_revived :
  let oid := "5f0000000000000000000001" in
  let d := with_sessions
             [{| s_id := oid; s_expires_in := 3600; s_expires_at := 100;
                 s_data := []; s_is_authed := Some true |}] empty_db in
  let self := {| data := []; id := oid; expires_at := 100;
                 is_authed := true |} in
  let answer := __setitem__ self "k" "v" 5000 oid d in
  fst (fst answer) = Ok tt
  /\ sessions (snd answer)
     = [{| s_id := oid; s_expires_in := 3600; s_expires_at := 8600;
           s_data := [("k", "v")]; s_is_authed := Some true |}].
Proof. vm_compute. split; reflexivity. Qed.

(** C6, as amended.  Assigning a key of a session writes the whole
    dictionary of the session to the record of its id at once and stamps
    the record to expire 3600 seconds after [now], 3600 being also the
    duration the record had when the store holds only sessions made by
    the application.  The record is looked up by its id alone, whatever
    its [_expires_at]: the assignment raises [SessionExpired] exactly when
    the store has no record of that id. *)
Theorem setitem_persists_session (self : Session) (key value : string)
    (now : Z) (new_id : ObjectId) (d : db) (oid : ObjectId) :
  ObjectId_of_str (id self) = Ok oid ->
  let answer := __setitem__ self key value now new_id d in
  let outcome := fst (fst answer) in
  let self' := snd (fst answer) in
  let d' := snd answer in
  data self' = dict_set key value (data self)
  /\ (forall doc,
        find (has_id oid) (sessions d) = Some doc ->
        outcome = Ok tt
        /\ find (has_id oid) (sessions d')
           = Some {| s_id := s_id doc;
                     s_expires_in := default_expires_in;
                     s_expires_at := now + default_expires_in;
                     s_data := dict_set key value (data self);
                     s_is_authed := s_is_authed doc |}
        /\ (authed_default_ttl d -> s_is_authed doc <> None ->
            option_map s_expires_at (find (has_id oid) (sessions d'))
            = Some (now + s_expires_in doc)))
  /\ (find (has_id oid) (sessions d) = None ->
      outcome = Raise SessionExpired /\ sessions d' = sessions d)
  /\ (outcome = Raise SessionExpired <-> find (has_id oid) (sessions d) = None).
Proof.
  intros Hoid answer outcome self' d'.
  assert (Hnone : find (has_id oid) (sessions d) = None ->
                  outcome = Raise SessionExpired /\ sessions d' = sessions d).
  { intros Hfind. subst outcome d' answer.
    unfold __setitem__, set_session. simpl id. rewrite Hoid.
    rewrite update_first_absent by exact Hfind. simpl. now rewrite Hfind. }
  assert (Hsome : forall doc, find (has_id oid) (sessions d) = Some doc ->
                              outcome = Ok tt).
  { intros doc Hfind. subst outcome answer. unfold __setitem__, set_session.
    simpl id. rewrite Hoid.
    destruct (update_first (has_id oid) _ (sessions d)) as [m l] eqn:E.
    apply (f_equal snd) in E. simpl in E. subst l.
    rewrite find_update_first by reflexivity. now rewrite Hfind. }
  split; [ | split; [ | split; [exact Hnone | ]]].
  - subst self' answer. unfold __setitem__.
    now destruct (set_session _ _ _ _ _ _ d) as [[[doc|]|e] d1].
  - intros doc Hfind.
    assert (Hfind' : find (has_id oid) (sessions d')
                     = Some {| s_id := s_id doc;
                               s_expires_in := default_expires_in;
                               s_expires_at := now + default_expires_in;
                               s_data := dict_set key value (data self);
                               s_is_authed := s_is_authed doc |}).
    { subst d' answer. unfold __setitem__, set_session. simpl id.
      rewrite Hoid.
      destruct (update_first (has_id oid) _ (sessions d)) as [m l] eqn:E.
      apply (f_equal snd) in E. simpl in E. subst l.
      rewrite find_update_first by reflexivity. rewrite Hfind. simpl.
      rewrite find_update_first by reflexivity. now rewrite Hfind. }
    split; [now apply (Hsome doc) | split; [exact Hfind' | ]].
    intros Hinv Hauth. rewrite Hfind'. simpl.
    rewrite (Hinv doc); [reflexivity | | exact Hauth].
    now apply find_some in Hfind.
  - split; [ | now apply Hnone].
    intros Hout. destruct (find (has_id oid) (sessions d)) as [doc|] eqn:E;
      [ | reflexivity].
    rewrite (Hsome doc eq_refl) in Hout. discriminate Hout.
Qed.

(** A session created at time 1000 and assigned to at time 2000. *)
Lemma setitem_persists_session_witness :
  let oid := "5f0000000000000000000001" in
  let created := create_session None true 1000 oid (empty_db, cleared) in
  let self := {| data := []; id := oid; expires_at := 4600; is_authed := true |} in
  let d := fst (snd created) in
  fst created = Ok self
  /\ find (has_id oid) (sessions (snd (__setitem__ self "k" "v" 2000 oid d)))
     = Some {| s_id := oid; s_expires_in := 3600; s_expires_at := 5600;
               s_data := [("k", "v")]; s_is_authed := Some true |}.
Proof.
  intros oid created self d. split; [reflexivity | ].
  destruct (setitem_persists_session self "k" "v" 2000 oid d oid eq_refl)
    as (_ & Hfound & _).
  destruct (Hfound {| s_id := oid; s_expires_in := 3600; s_expires_at := 4600;
                      s_data := []; s_is_authed := Some true |} eq_refl)
    as (_ & Hdoc & _).
  exact Hdoc.
Defined.

End Mutation.

(** ** The token manager *)

Section Tokens.

Import Database Scenario.

Lemma with_installations_same (d : db) : with_installations (installations d) d = d.
Proof. now destruct d. Qed.

Lemma set_token_absent (app_id install_id : string) (tok : option token) (d : db) :
  get_installation app_id install_id d = None ->
  set_token app_id install_id tok d = d.
Proof.
  intros H. unfold set_token, get_installation in *.
  rewrite update_first_absent by exact H. apply with_installations_same.
Qed.

Lemma update_installation_absent (app_id install_id : string)
    (dat : dict string) (config : option (dict string)) (d : db) :
  get_installation app_id install_id d = None ->
  update_installation app_id install_id dat config d = (false, d).
Proof.
  intros H. unfold update_installation, get_installation in *.
  now rewrite update_first_absent by exact H.
Qed.

Lemma get_token_set_token (app_id install_id : string) (tok : option token)
    (d : db) :
  get_installation app_id install_id d <> None ->
  get_token app_id install_id (set_token app_id install_id tok d) = tok.
Proof.
  intros H. unfold get_token, get_installation, set_token in *. simpl.
  rewrite find_update_first by reflexivity.
  now destruct (find (installation_matches app_id install_id) (installations d)).
Qed.

(** C9, counterexample.  No installation record exists for the pair: the
    token set is not stored, and a fresh manager loads nothing. *)
Lemma token_lost_without_installation :
  let tok := Some [("access_token", "secret")] in
  let tm := Auth.new_TokenManager "app" "install" in
  fst (Auth.get (Auth.new_TokenManager "app" "install")
         (snd (Auth.set tm tok empty_db))) = None
  /\ fst (Auth.get (Auth.new_TokenManager "app" "install")
            (snd (Auth.set tm tok empty_db))) <> tok.
Proof. split; [reflexivity | discriminate]. Qed.

(** C9, as amended.  For every pair (app_id, install_id) that has an
    installation record and every token, the token set through a
    [TokenManager] of the pair is the token a fresh [TokenManager] of the
    pair gets; when the pair has no installation record the fresh manager
    gets [None]. *)
Theorem token_round_trip (tm : Auth.TokenManager) (tok : option token) (d : db) :
  let app_id := Auth._app_id tm in
  let install_id := Auth._install_id tm in
  let d' := snd (Auth.set tm tok d) in
  let loaded := fst (Auth.get (Auth.new_TokenManager app_id install_id) d') in
  (get_installation app_id install_id d <> None -> loaded = tok)
  /\ (get_installation app_id install_id d = None -> loaded = None /\ d' = d).
Proof.
  intros app_id install_id d' loaded. subst loaded d'.
  unfold Auth.get, Auth.set, Auth.__call__. simpl. split.
  - intros H. now apply get_token_set_token.
  - intros H. rewrite set_token_absent by exact H. split; [ | reflexivity].
    unfold get_token. fold app_id install_id. now rewrite H.
Qed.

(** An installation of the pair, as the install webhook records it. *)
Lemma token_round_trip_witness :
  let inst := {| i_fields := [("_name", "App"); ("install_id", "install");
                              ("app_id", "app")];
                 i_config := None; i_oauth_token := None |} in
  let d := with_installations [inst] empty_db in
  let tok := Some [("access_token", "secret")] in
  fst (Auth.get (Auth.new_TokenManager "app" "install")
         (snd (Auth.set (Auth.new_TokenManager "app" "install") tok d))) = tok.
Proof.
  intros inst d tok.
  apply (proj1 (token_round_trip (Auth.new_TokenManager "app" "install") tok d)).
  discriminate.
Defined.

End Tokens.

(** ** The OAuth callback *)

Section CallbackClaims.

Import Database Decorators Scenario.

Variable fetch_token : request -> result token.
Variable fetch_base_url : token -> result string.
Variable before_redirect : db -> result unit * db.

Lemma get_session_installations (sid : string) (refresh : bool) (now : Z) (d : db) :
  installations (snd (Database.get_session sid refresh now d)) = installations d.
Proof.
  unfold Database.get_session.
  destruct (ObjectId_of_str sid); [ | reflexivity].
  destruct (find _ (sessions d)); [ | reflexivity].
  now destruct refresh.
Qed.

(** C7, the behaviour of the code.  A callback whose state names a
    well-formed session id the store does not hold is answered "Session
    expired" with status 400; a callback whose state names a session id
    that is not 24 hexadecimal digits is not: [InvalidId] escapes the view
    and the framework answers 500. *)
Theorem callback_garbage_state_unhandled (cfg : config) (now : Z) (r : request)
    (d : db) (v : string) (state : Auth.OAuth2State) :
  args_get "state" r = Some v -> Auth.from_str v = Ok state ->
  let answer :=
    OAuth.dispatch_request fetch_token fetch_base_url before_redirect cfg now r d in
  (forall oid, ObjectId_of_str (Auth.session_id state) = Ok oid ->
               find (has_id oid) (sessions d) = None ->
               answer = (Ok (Response "Session expired" 400), d))
  /\ (ObjectId_of_str (Auth.session_id state) = Raise InvalidId ->
      answer = (Raise InvalidId, d) /\ status_of (fst answer) = 500).
Proof.
  intros Hv Hstate answer. subst answer. unfold OAuth.dispatch_request.
  rewrite Hv, Hstate. split.
  - intros oid Hoid Hfind. unfold Database.get_session.
    now rewrite Hoid, Hfind.
  - intros Hinv. now rewrite get_session_invalid by exact Hinv.
Qed.

(** C8, as amended.  When no installation record matches the pair
    (app_id, install_id), [update_installation] writes nothing and reports
    it by its result [False] alone, which the callback does not read: the
    flow goes on to the [before_redirect] hook and, unless the hook raises,
    answers with the redirect to the stored URL. *)
Theorem callback_missing_installation_redirects (cfg : config) (now : Z)
    (r : request) (d : db) (v : string) (state : Auth.OAuth2State)
    (doc : session_doc) (redirect_url install_id : string) (tok : token)
    (base : string) :
  args_get "state" r = Some v -> Auth.from_str v = Ok state ->
  fst (Database.get_session (Auth.session_id state) true now d) = Ok (Some doc) ->
  dict_get "redirect_url" (s_data doc) = Some redirect_url ->
  dict_get "install_id" (s_data doc) = Some install_id ->
  fetch_token r = Ok tok -> fetch_base_url tok = Ok base ->
  get_installation (CLOUD_APP_CLIENT_ID cfg) install_id d = None ->
  let d1 := snd (Database.get_session (Auth.session_id state) true now d) in
  update_installation (CLOUD_APP_CLIENT_ID cfg) install_id [("base_url", base)]
    None d1 = (false, d1)
  /\ installations d1 = installations d
  /\ OAuth.dispatch_request fetch_token fetch_base_url before_redirect cfg now r d
     = (match fst (before_redirect d1) with
        | Raise e => Raise e
        | Ok _ => Ok (Redirect redirect_url)
        end, snd (before_redirect d1)).
Proof.
  intros Hv Hstate Hsess Hurl Hinst Htok Hbase Hnone d1.
  assert (Hnone1 : get_installation (CLOUD_APP_CLIENT_ID cfg) install_id d1 = None).
  { unfold get_installation in *. subst d1.
    now rewrite get_session_installations. }
  split; [now apply update_installation_absent | ].
  split; [apply get_session_installations | ].
  unfold OAuth.dispatch_request. rewrite Hv, Hstate.
  fold d1.
  destruct (Database.get_session (Auth.session_id state) true now d)
    as [looked dd] eqn:E.
  simpl in Hsess, d1. subst looked d1.
  rewrite Hurl, Hinst, Htok. unfold Auth.set, Auth.__call__. simpl.
  rewrite set_token_absent by exact Hnone1. rewrite Hbase.
  rewrite update_installation_absent by exact Hnone1.
  now destruct (before_redirect dd) as [[u|e] d4].
Qed.

End CallbackClaims.

Section CallbackScenarios.

Import Database Decorators Scenario.

(** A callback whose state is [garbage.token]. *)
Lemma callback_garbage_state_unhandled_witness :
  OAuth.dispatch_request token_granted base_url_served
    OAuth.default_before_redirect (scenario_config "cid") 1000
    (callback_request "garbage.token") db_without_installation
  = (Raise InvalidId, db_without_installation).
Proof.
  apply (proj2 (callback_garbage_state_unhandled token_granted base_url_served
                  OAuth.default_before_redirect (scenario_config "cid") 1000
                  (callback_request "garbage.token") db_without_installation
                  "garbage.token"
                  {| Auth.session_id := "garbage"; Auth.tok := Some "token" |}
                  eq_refl eq_refl)).
  reflexivity.
Defined.

(** C8, counterexample.  The session of the state exists, the token and
    the base URL are obtained, and no installation record matches: the
    callback answers with the redirect, and no installation is recorded. *)
Lemma callback_redirects_without_installation :
  let answer :=
    OAuth.dispatch_request token_granted base_url_served
      OAuth.default_before_redirect (scenario_config "cid") 1000
      (callback_request "5f0000000000000000000001.token")
      db_without_installation in
  fst answer = Ok (Redirect "https://callback.example/done")
  /\ installations (snd answer) = [].
Proof. vm_compute. split; reflexivity. Qed.

(** The same callback, through the theorem. *)
Lemma callback_missing_installation_redirects_witness :
  OAuth.dispatch_request token_granted base_url_served
    OAuth.default_before_redirect (scenario_config "cid") 1000
    (callback_request "5f0000000000000000000001.token") db_without_installation
  = (Ok (Redirect "https://callback.example/done"),
     snd (Database.get_session "5f0000000000000000000001" true 1000
            db_without_installation)).
Proof.
  apply (callback_missing_installation_redirects token_granted base_url_served
           OAuth.default_before_redirect (scenario_config "cid") 1000
           (callback_request "5f0000000000000000000001.token")
           db_without_installation "5f0000000000000000000001.token"
           {| Auth.session_id := "5f0000000000000000000001";
              Auth.tok := Some "token" |}
           install_session "https://callback.example/done" "install"
           [("access_token", "granted")] "https://secure.example"
           eq_refl eq_refl eq_refl eq_refl eq_refl eq_refl eq_refl eq_refl).
Defined.

End CallbackScenarios.

(** * Further properties of the code *)

(** ** The signature and the order of the query parameters *)

Section ParameterOrder.

Import Decorators Scenario.

Lemma str_ltb_lt (a b : string) : Py.str_ltb a b = true <-> String_as_OT.lt a b.
Proof.
  rewrite <- String_as_OT.cmp_lt. unfold Py.str_ltb, String_as_OT.cmp.
  destruct (String.compare a b); split; intros H; (reflexivity || discriminate H).
Qed.

Lemma str_ltb_trans (a b c : string) :
  Py.str_ltb a b = true -> Py.str_ltb b c = true -> Py.str_ltb a c = true.
Proof. rewrite !str_ltb_lt. apply String_as_OT.lt_trans. Qed.

Lemma str_ltb_irrefl (a : string) : Py.str_ltb a a = false.
Proof.
  destruct (Py.str_ltb a a) eqn:E; [ | reflexivity].
  apply str_ltb_lt, String_as_OT.lt_not_eq in E. exfalso. apply E. reflexivity.
Qed.

Lemma str_ltb_total (a b : string) :
  a <> b -> Py.str_ltb a b = false -> Py.str_ltb b a = true.
Proof.
  intros Hne. unfold Py.str_ltb. rewrite (String.compare_antisym b a).
  destruct (String.compare a b) eqn:E; simpl; try reflexivity; try discriminate.
  apply String.compare_eq_iff in E. contradiction.
Qed.

Lemma insert_sorted_In (x y : string * string) (l : list (string * string)) :
  In y (insert_sorted x l) -> y = x \/ In y l.
Proof.
  intros H. apply (Permutation_in y (Permutation_sym (insert_sorted_perm x l))) in H.
  destruct H; auto.
Qed.

Lemma insert_sorted_strongly (x : string * string) (l : list (string * string)) :
  StronglySorted key_lt l -> ~ In (fst x) (map fst l) ->
  StronglySorted key_lt (insert_sorted x l).
Proof.
  induction l as [|y l IH]; simpl; intros Hs Hx.
  - repeat constructor.
  - inversion Hs as [|? ? Hs' Hy]; subst.
    rewrite pair_ltb_keys by intuition congruence. unfold Spec.key_ltb.
    destruct (Py.str_ltb (fst y) (fst x)) eqn:E.
    + constructor; [apply IH; tauto | ].
      apply Forall_forall. intros z Hz.
      apply insert_sorted_In in Hz. destruct Hz as [-> | Hz]; [exact E | ].
      rewrite Forall_forall in Hy. now apply Hy.
    + assert (Hxy : key_lt x y).
      { apply str_ltb_total; [intuition congruence | exact E]. }
      constructor; [exact Hs | ].
      constructor; [exact Hxy | ].
      apply Forall_forall. intros z Hz. rewrite Forall_forall in Hy.
      eapply str_ltb_trans; [exact Hxy | now apply Hy].
Qed.

Lemma sorted_strongly (l : list (string * string)) :
  NoDup (map fst l) -> StronglySorted key_lt (sorted l).
Proof.
  induction l as [|x l IH]; simpl; intros H; [constructor | ].
  inversion H as [|? ? Hx Hl]; subst.
  apply insert_sorted_strongly; [now apply IH | now rewrite sorted_keys_In].
Qed.

(** Two lists sorted by key that hold the same pairs are equal. *)
Lemma strongly_sorted_unique (l1 l2 : list (string * string)) :
  StronglySorted key_lt l1 -> StronglySorted key_lt l2 ->
  Permutation l1 l2 -> l1 = l2.
Proof.
  revert l2. induction l1 as [|a l1 IH]; intros l2 H1 H2 Hp.
  - now apply Permutation_nil in Hp.
  - destruct l2 as [|b l2];
      [apply Permutation_sym, Permutation_nil in Hp; discriminate | ].
    inversion H1 as [|? ? H1' Ha]; inversion H2 as [|? ? H2' Hb]; subst.
    rewrite Forall_forall in Ha, Hb.
    assert (a = b).
    { assert (Hin : In a (b :: l2)) by (eapply Permutation_in; [exact Hp | now left]).
      assert (Hin' : In b (a :: l1))
        by (eapply Permutation_in; [apply Permutation_sym, Hp | now left]).
      destruct Hin as [-> | Hin]; [reflexivity | ].
      destruct Hin' as [-> | Hin']; [reflexivity | ].
      pose proof (str_ltb_trans _ _ _ (Ha b Hin') (Hb a Hin)) as Habs.
      unfold key_lt in Habs. now rewrite str_ltb_irrefl in Habs. }
    subst b. f_equal. apply IH; try assumption.
    now apply Permutation_cons_inv in Hp.
Qed.

Lemma filter_perm {A : Type} (p : A -> bool) (l1 l2 : list A) :
  Permutation l1 l2 -> Permutation (filter p l1) (filter p l2).
Proof.
  induction 1 as [ | x l1 l2 _ IH | x y l | l1 l2 l3 _ IH1 _ IH2]; simpl.
  - constructor.
  - destruct (p x); [now constructor | exact IH].
  - destruct (p x), (p y); try apply Permutation_refl. apply perm_swap.
  - eapply perm_trans; eassumption.
Qed.

(** X1.  The expected signature does not depend on the order in which the
    query string lists its parameters: two requests with the same method
    and base URL whose parameters, of distinct keys, are a permutation of
    one another have the same signature message and expected signature. *)
Theorem signature_ignores_parameter_order (cfg : config) (r1 r2 : request) :
  method r1 = method r2 -> base_url r1 = base_url r2 ->
  NoDup (map fst (args r1)) -> Permutation (args r1) (args r2) ->
  signature_message r1 = signature_message r2
  /\ generate_signature cfg r1 = generate_signature cfg r2.
Proof.
  intros Hm Hb Hnd Hp.
  assert (Hnd2 : NoDup (map fst (args r2))).
  { eapply Permutation_NoDup; [apply Permutation_map, Hp | exact Hnd]. }
  assert (Hq : sorted (query_parameters r1) = sorted (query_parameters r2)).
  { apply strongly_sorted_unique.
    - apply sorted_strongly, query_parameters_NoDup.
    - apply sorted_strongly, query_parameters_NoDup.
    - eapply perm_trans; [apply Permutation_sym, sorted_perm | ].
      eapply perm_trans; [ | apply sorted_perm].
      unfold query_parameters. rewrite !to_dict_NoDup_id by assumption.
      apply Permutation_map, filter_perm, Hp. }
  assert (Hmsg : signature_message r1 = signature_message r2).
  { unfold signature_message. now rewrite Hm, Hb, Hq. }
  split; [exact Hmsg | ]. unfold generate_signature. now rewrite Hmsg.
Qed.

(** The scenario request with its parameters in the reverse order. *)
Lemma signature_ignores_parameter_order_witness :
  let r1 := scenario_request "cid" "n1" "1000" in
  let r2 := {| method := "GET"; base_url := "https://test.example/endpoint";
               args := rev (args r1) |} in
  generate_signature (scenario_config "cid") r1
  = generate_signature (scenario_config "cid") r2.
Proof.
  intros r1 r2.
  apply (signature_ignores_parameter_order (scenario_config "cid") r1 r2
           eq_refl eq_refl).
  - simpl. repeat constructor; simpl; intuition discriminate.
  - apply Permutation_rev.
Defined.

End ParameterOrder.

(** ** What the signature message does not tell apart *)

Section SignatureBlindSpots.

Import Decorators Scenario.

Lemma filter_app_insert (k v : string) (l1 l2 : list (string * string)) :
  filter (fun kv => negb (String.eqb (fst kv) k)) (l1 ++ (k, v) :: l2)%list
  = filter (fun kv => negb (String.eqb (fst kv) k)) (l1 ++ l2)%list.
Proof.
  rewrite !filter_app. simpl. now rewrite String.eqb_refl.
Qed.

Lemma to_dict_repeated_key (k v : string) (l1 l2 : list (string * string)) :
  In k (map fst l1) ->
  to_dict (l1 ++ (k, v) :: l2)%list = to_dict (l1 ++ l2)%list.
Proof.
  induction l1 as [|[k0 v0] l1 IH]; simpl; [tauto | ].
  intros [-> | Hin].
  - f_equal. now rewrite !to_dict_filter, filter_app_insert.
  - now rewrite IH.
Qed.

Lemma dict_get_repeated_key (k' k v : string) (l1 l2 : list (string * string)) :
  In k (map fst l1) ->
  dict_get k' (l1 ++ (k, v) :: l2)%list = dict_get k' (l1 ++ l2)%list.
Proof.
  induction l1 as [|[k0 v0] l1 IH]; simpl; [tauto | ].
  intros [-> | Hin].
  - destruct (String.eqb_spec k' k); [reflexivity | ].
    clear IH. induction l1 as [|[k1 v1] l1 IH]; simpl.
    + destruct (String.eqb_spec k' k); [congruence | reflexivity].
    + now rewrite IH.
  - destruct (String.eqb k' k0); [reflexivity | now apply IH].
Qed.

(** X2.  Of a query parameter given several times only the first value
    counts: a further value for a key that the query string already has,
    whatever it is, changes neither the expected signature nor the outcome
    of the validator. *)
Theorem repeated_parameter_is_not_signed (cfg : config) (now : Z)
    (d : Database.db) (r : request) (k v : string)
    (l1 l2 : list (string * string)) :
  args r = (l1 ++ l2)%list -> In k (map fst l1) ->
  let r' := with_args (l1 ++ (k, v) :: l2)%list r in
  generate_signature cfg r' = generate_signature cfg r
  /\ _oauth_is_signature_valid cfg now r' d = _oauth_is_signature_valid cfg now r d.
Proof.
  intros Hargs Hin r'.
  assert (Hgen : generate_signature cfg r' = generate_signature cfg r).
  { unfold generate_signature, signature_message, query_parameters. subst r'.
    simpl. now rewrite Hargs, to_dict_repeated_key. }
  assert (Hget : forall k', args_get k' r' = args_get k' r).
  { intros k'. unfold args_get. subst r'. simpl.
    now rewrite Hargs, dict_get_repeated_key. }
  split; [exact Hgen | ].
  unfold _oauth_is_signature_valid. now rewrite Hgen, !Hget.
Qed.

(** The signed scenario request with a second value for [x]. *)
Lemma repeated_parameter_is_not_signed_witness :
  let r := sign "1WRyGD51MHM1gTWzymfCkCHwYr0="
                (scenario_request "cid" "n1" "1000") in
  let r' := with_args (args r ++ [("x", "2")])%list r in
  _oauth_is_signature_valid (scenario_config "cid") 1100 r' empty_db
  = _oauth_is_signature_valid (scenario_config "cid") 1100 r empty_db.
Proof.
  intros r r'.
  apply (repeated_parameter_is_not_signed (scenario_config "cid") 1100 empty_db
           r "x" "2" (args r) []).
  - now rewrite app_nil_r.
  - simpl. tauto.
Defined.

(** X3.  The scheme of the base URL is not signed: the request received
    over [http://] and the same request over [https://] have the same
    signature message and expected signature. *)
Theorem signature_ignores_http_scheme (cfg : config) (r : request)
    (rest : string) :
  signature_message (with_base_url ("http://" ++ rest) r)
  = signature_message (with_base_url ("https://" ++ rest) r)
  /\ generate_signature cfg (with_base_url ("http://" ++ rest) r)
     = generate_signature cfg (with_base_url ("https://" ++ rest) r).
Proof.
  assert (H : Py.replace "http://" "https://" ("http://" ++ rest)
              = Py.replace "http://" "https://" ("https://" ++ rest))
    by reflexivity.
  assert (Hmsg : signature_message (with_base_url ("http://" ++ rest) r)
                 = signature_message (with_base_url ("https://" ++ rest) r)).
  { unfold signature_message, with_base_url.
    cbn [method base_url args query_parameters]. now rewrite H. }
  split; [exact Hmsg | ]. unfold generate_signature. now rewrite Hmsg.
Qed.

Lemma quote_char_unreserved (x c : ascii) :
  Py.contains_char c (Py.quote_char Py.safe_none x) = true ->
  Py.always_safe c = true \/ c = "%"%char.
Proof.
  unfold Py.quote_char, Py.safe_none. rewrite orb_false_r.
  destruct (Py.always_safe x) eqn:E.
  - rewrite contains_char_cons. cbn [Py.contains_char]. rewrite orb_false_r.
    intros H. apply Ascii.eqb_eq in H. subst c. now left.
  - clear E. unfold Py.pct. rewrite !contains_char_cons.
    cbn [Py.contains_char]. rewrite orb_false_r.
    intros H. apply orb_prop in H. destruct H as [H | H].
    + apply Ascii.eqb_eq in H. now right.
    + left. apply orb_prop in H.
      destruct H as [H | H]; apply Ascii.eqb_eq in H; subst c;
        destruct x as [[] [] [] [] [] [] [] []]; vm_compute; reflexivity.
Qed.

(** X4.  An encoded parameter value holds only unreserved characters and
    the percent sign: no [&], [=], [+], [/] or space of the value reaches
    the signature message as it is.  [quote] leaves no [+] behind, so the
    replacement of [+] by [%20] never changes anything. *)
Theorem encoded_value_characters (v : string) :
  (forall c, Py.contains_char c (encode_value v) = true ->
             Py.always_safe c = true \/ c = "%"%char)
  /\ Py.replace "+" "%20" (Py.quote v) = Py.quote v.
Proof.
  split.
  - intros c. rewrite encode_value_quote.
    induction v as [|x v IH]; [discriminate | ].
    cbn [Py.quote_with]. rewrite contains_char_app. intros H.
    apply orb_prop in H.
    destruct H as [H | H]; [now apply quote_char_unreserved in H | now apply IH].
  - unfold Py.quote. induction v as [|x v IH]; [reflexivity | ].
    simpl Py.quote_with. rewrite replace_char_app, IH. f_equal.
    destruct x as [[] [] [] [] [] [] [] []]; vm_compute; reflexivity.
Qed.

(** A value with a space, a slash and a plus sign. *)
Lemma encoded_value_characters_witness :
  Py.always_safe "2" = true \/ "2"%char = "%"%char.
Proof.
  apply (proj1 (encoded_value_characters "a b/c+d") "2"%char). reflexivity.
Defined.

(** X5.  The keys of the parameters are not percent-encoded before they
    are joined: a single parameter whose key spells [k1=v1&k2] gives the
    signature message, and so the expected signature, of the two
    parameters [k1=v1] and [k2]. *)
Theorem unencoded_keys_collide (cfg : config) (r : request)
    (k1 v1 k2 v2 : string) :
  Py.str_ltb k1 k2 = true -> encode_value v1 = v1 ->
  k1 <> "oauth_signature" -> k2 <> "oauth_signature" ->
  let two := with_args [(k1, v1); (k2, v2)] r in
  let one := with_args [(k1 ++ "=" ++ v1 ++ "&" ++ k2, v2)] r in
  signature_message one = signature_message two
  /\ generate_signature cfg one = generate_signature cfg two.
Proof.
  intros Hlt Hv H1 H2 two one.
  assert (Hne : k2 <> k1).
  { intros ->. now rewrite str_ltb_irrefl in Hlt. }
  assert (Hkey : k1 ++ "=" ++ v1 ++ "&" ++ k2 <> "oauth_signature").
  { intros E. apply (f_equal (Py.contains_char "=")) in E.
    rewrite contains_char_app in E.
    change (Py.contains_char "=" ("=" ++ v1 ++ "&" ++ k2)) with true in E.
    rewrite orb_true_r in E. vm_compute in E. discriminate E. }
  assert (Hmsg : signature_message one = signature_message two).
  { unfold signature_message, query_parameters. subst one two. simpl.
    apply String.eqb_neq in Hne, H1, H2, Hkey. simpl in Hkey.
    rewrite Hne, H1, Hkey. simpl. rewrite H2. simpl.
    assert (Hgt : Py.str_ltb k2 k1 = false).
    { destruct (Py.str_ltb k2 k1) eqn:E; [ | reflexivity].
      pose proof (str_ltb_trans _ _ _ Hlt E) as Habs.
      now rewrite str_ltb_irrefl in Habs. }
    unfold pair_ltb. simpl. rewrite Hgt, Hne. simpl.
    unfold format_pair. simpl. rewrite Hv.
    do 2 f_equal. repeat (rewrite str_app_assoc; simpl). reflexivity. }
  split; [exact Hmsg | ]. unfold generate_signature. now rewrite Hmsg.
Qed.

(** The parameters [a=1] and [b=2], and the parameter of key [a=1&b]. *)
Lemma unencoded_keys_collide_witness :
  generate_signature (scenario_config "cid")
    (with_args [("a=1&b", "2")] plain_request)
  = generate_signature (scenario_config "cid")
      (with_args [("a", "1"); ("b", "2")] plain_request).
Proof.
  apply (unencoded_keys_collide (scenario_config "cid") plain_request
           "a" "1" "b" "2" eq_refl eq_refl); discriminate.
Defined.

End SignatureBlindSpots.

(** ** The replay cache and the clock *)

Section ReplayWindow.

Import Database Decorators Scenario.

Lemma find_filter_absent {A : Type} (p q : A -> bool) (l : list A) :
  find p l = None -> find p (filter q l) = None.
Proof.
  induction l as [|x l IH]; simpl; [reflexivity | ].
  destruct (p x) eqn:Ep; [discriminate | ]. intros H.
  destruct (q x); simpl; [rewrite Ep | ]; now apply IH.
Qed.

Lemma accepted_early_checks (cfg : config) (now : Z) (r : request) (d : db) :
  fst (check_signature cfg now r d) = ACCEPT ->
  early_checks cfg now r d = None /\ signature_matches cfg r = Some true.
Proof.
  intros H. apply check_accept_valid in H. rewrite valid_decomposition in H.
  destruct (early_checks cfg now r d) as [out|] eqn:E.
  - exfalso. subst out. revert E. unfold early_checks.
    destruct (negb _); [discriminate | ].
    destruct (args_get "oauth_timestamp" r) as [t|]; [ | discriminate].
    destruct (Py.int_of_str t) as [n|]; [ | discriminate].
    destruct (_ >? n); [discriminate | ].
    destruct (has_duplicates_in_cache _ _ d); discriminate.
  - split; [reflexivity | ].
    destruct (signature_matches cfg r) as [[|]|]; (reflexivity || discriminate H).
Qed.

Lemma early_checks_passed (cfg : config) (now : Z) (r : request) (d : db) :
  early_checks cfg now r d = None ->
  negb (opt_str_eqb (args_get "oauth_consumer_key" r)
                    (Some (CLOUD_APP_CLIENT_ID cfg))) = false
  /\ has_duplicates_in_cache (args_get "oauth_nonce" r)
       (args_get "oauth_timestamp" r) d = false.
Proof.
  unfold early_checks. destruct (negb _); [discriminate | ].
  destruct (args_get "oauth_timestamp" r) as [t|]; [ | discriminate].
  destruct (Py.int_of_str t) as [n|]; [ | discriminate].
  destruct (_ >? n); [discriminate | ].
  destruct (has_duplicates_in_cache _ _ d); [discriminate | ]. now split.
Qed.

(** X6.  The validator bounds the age of [oauth_timestamp] and not how
    far ahead of the clock it is.  A request with the configured consumer
    key and an integer timestamp more than 300 seconds old is rejected
    whatever its signature; with the signature of the validator and a
    pair that no document of the cache holds it is accepted exactly when
    its timestamp is at most 300 seconds old, so with any timestamp of the
    future.  Once accepted it is rejected at every later time by the store
    the check leaves, which keeps the document of the pair. *)
Theorem timestamp_bounded_in_the_past_only (cfg : config) (now : Z)
    (r : request) (d : db) (ts : string) (t : Z) :
  args_get "oauth_consumer_key" r = Some (CLOUD_APP_CLIENT_ID cfg) ->
  args_get "oauth_timestamp" r = Some ts -> Py.int_of_str ts = Some t ->
  (t < now - 300 -> check_signature cfg now r d = (REJECT, d))
  /\ (~ pair_cached (args_get "oauth_nonce" r) (Some ts) d ->
      args_get "oauth_signature" r = Some (generate_signature cfg r) ->
      (fst (check_signature cfg now r d) = ACCEPT <-> now - 300 <= t))
  /\ (fst (check_signature cfg now r d) = ACCEPT ->
      forall now',
        check_signature cfg now' r (snd (check_signature cfg now r d))
        = (REJECT, snd (check_signature cfg now r d))).
Proof.
  intros Hkey Hts Ht. split; [ | split].
  - intros Hold. unfold check_signature, _oauth_is_signature_valid.
    rewrite Hkey, Hts, Ht. cbn [opt_str_eqb]. rewrite String.eqb_refl.
    cbn [negb bind].
    destruct (Z.gtb_spec (now - 60 * 5) t); [reflexivity | lia].
  - intros Habsent Hsig. split.
    + intros H. apply check_accept_valid in H.
      destruct (accepted_conditions cfg now r d H)
        as (_ & (ts' & t' & Hts' & Ht' & Hfresh) & _).
      rewrite Hts in Hts'. injection Hts' as <-.
      rewrite Ht in Ht'. now injection Ht' as <-.
    + intros Hfresh. apply check_accept_valid.
      now apply (accept_conditions cfg now r d ts t).
  - intros Hacc now'. pose proof Hacc as Hval.
    apply check_accept_valid in Hval.
    unfold check_signature at 1.
    rewrite (retry_rejected cfg now now' r d _ Hval); [reflexivity | ].
    unfold check_signature. rewrite Hval. simpl.
    apply in_or_app. right. now left.
Qed.

(** The scenario request stamped 2000 is accepted at time 1000, and
    rejected at time 1400. *)
Lemma timestamp_bounded_in_the_past_only_witness :
  let cfg := scenario_config "cid" in
  let r0 := scenario_request "cid" "n1" "2000" in
  let r := sign (generate_signature cfg r0) r0 in
  fst (check_signature cfg 1000 r empty_db) = ACCEPT
  /\ fst (check_signature cfg 1400 r (snd (check_signature cfg 1000 r empty_db)))
     = REJECT.
Proof.
  intros cfg r0 r.
  destruct (timestamp_bounded_in_the_past_only cfg 1000 r empty_db "2000" 2000
              eq_refl eq_refl eq_refl) as (_ & Hiff & Hlater).
  assert (Hacc : fst (check_signature cfg 1000 r empty_db) = ACCEPT).
  { apply Hiff; [intros (c & [] & _) | vm_compute; reflexivity | lia]. }
  split; [exact Hacc | ]. rewrite (Hlater Hacc 1400). reflexivity.
Defined.

(** X7.  A request accepted at [now] with a timestamp earlier than [now]
    is rejected at every later time, by any store that keeps the entry of
    the replay cache for its 300 seconds: while the entry is there it is a
    duplicate, and afterwards the timestamp is too old. *)
Theorem replay_rejected_for_past_timestamp (cfg : config) (now now' : Z)
    (r : request) (d d'' : db) (ts : string) (t : Z) :
  fst (check_signature cfg now r d) = ACCEPT ->
  args_get "oauth_timestamp" r = Some ts -> Py.int_of_str ts = Some t ->
  t < now -> now <= now' ->
  (now' < now + 300 -> In (replay_entry now r) (cache d'')) ->
  check_signature cfg now' r d'' = (REJECT, d'')
  /\ check_signature cfg now' r (expire now' (snd (check_signature cfg now r d)))
     = (REJECT, expire now' (snd (check_signature cfg now r d))).
Proof.
  intros Hacc Hts Ht Hpast Hlater Hkept.
  assert (Hgen : forall s, (now' < now + 300 -> In (replay_entry now r) (cache s)) ->
                           check_signature cfg now' r s = (REJECT, s)).
  { intros s Hs. pose proof Hacc as Hval. apply check_accept_valid in Hval.
    destruct (Z.ltb_spec now' (now + 300)) as [Hin | Hout].
    - unfold check_signature.
      now rewrite (retry_rejected cfg now now' r d s Hval (Hs Hin)).
    - destruct (accepted_early_checks cfg now r d Hacc) as [Hearly _].
      destruct (early_checks_passed cfg now r d Hearly) as [Hck _].
      unfold check_signature, _oauth_is_signature_valid.
      rewrite Hck, Hts, Ht. simpl.
      destruct (Z.gtb_spec (now' - 300) t); [reflexivity | lia]. }
  split; [now apply Hgen | ].
  apply Hgen. intros Hin. apply expire_keeps; [ | simpl; lia].
  unfold check_signature. apply check_accept_valid in Hacc. rewrite Hacc.
  simpl. apply in_or_app. right. now left.
Qed.

(** The scenario request stamped 1000, accepted at time 1100 and sent again
    at time 1400. *)
Lemma replay_rejected_for_past_timestamp_witness :
  let cfg := scenario_config "cid" in
  let r := sign "1WRyGD51MHM1gTWzymfCkCHwYr0="
                (scenario_request "cid" "n1" "1000") in
  let d' := snd (check_signature cfg 1100 r empty_db) in
  check_signature cfg 1400 r (expire 1400 d') = (REJECT, expire 1400 d').
Proof.
  intros cfg r d'.
  assert (Hacc : fst (check_signature cfg 1100 r empty_db) = ACCEPT)
    by (vm_compute; reflexivity).
  apply (replay_rejected_for_past_timestamp cfg 1100 1400 r empty_db empty_db
           "1000" 1000 Hacc eq_refl eq_refl); lia.
Defined.

End ReplayWindow.

(** ** Creating a session, and the session gate *)

Section SessionGate.

Import Database Session Decorators Scenario.

Lemma existsb_find_none {A : Type} (p : A -> bool) (l : list A) :
  existsb p l = false <-> find p l = None.
Proof.
  induction l as [|x l IH]; simpl; [tauto | ].
  destruct (p x); simpl; [split; discriminate | exact IH].
Qed.

Lemma find_app_fresh {A : Type} (p : A -> bool) (l : list A) (x : A) :
  find p l = None -> p x = true -> find p (l ++ [x]) = Some x.
Proof.
  induction l as [|y l IH]; simpl; intros Hl Hx; [now rewrite Hx | ].
  destruct (p y); [discriminate | now apply IH].
Qed.

Lemma insert_session_fresh (dat : dict string) (expires_in : Z)
    (authed : option bool) (now : Z) (new_id : ObjectId) (d : db) :
  existsb (has_id new_id) (sessions d) = false ->
  let doc := {| s_id := new_id; s_expires_in := expires_in;
                s_expires_at := now + expires_in; s_data := dat;
                s_is_authed := authed |} in
  set_session dat None expires_in authed now new_id d
  = (Ok (Some doc), with_sessions (sessions d ++ [doc]) d).
Proof.
  intros H doc. unfold set_session. rewrite H. cbn [sessions with_sessions].
  rewrite find_app_fresh;
    [reflexivity | now apply existsb_find_none | apply String.eqb_refl].
Qed.

(** A caller without a bound session id gets a new session. *)
Lemma create_session_unbound (initial : option (dict string)) (authed : bool)
    (now : Z) (new_id : ObjectId) (d : db) (fs : flask_session) :
  id_bound fs = false -> existsb (has_id new_id) (sessions d) = false ->
  let doc := new_session_doc initial authed now new_id in
  create_session initial authed now new_id (d, fs)
  = (Ok {| data := s_data doc; id := new_id; expires_at := now + 3600;
           is_authed := authed |},
     (with_sessions (sessions d ++ [doc]) d,
      {| fs_session_id := Some new_id; fs_expires_at := Some (now + 3600) |})).
Proof.
  intros Hb Hfresh doc. unfold create_session, Session.__init__.
  assert (Hlook : match fs_session_id fs with
                  | Some sid => if Py.truthy_str sid
                                then Database.get_session sid true now d
                                else (Ok None, d)
                  | None => (Ok None, d)
                  end = (Ok None, d)).
  { unfold id_bound in Hb. destruct (fs_session_id fs) as [sid|]; [ | reflexivity].
    now rewrite Hb. }
  rewrite Hlook.
  rewrite (insert_session_fresh _ default_expires_in (Some authed) now new_id d
             Hfresh).
  reflexivity.
Qed.

(** [create_session] raises nothing but what the store raises. *)
Lemma create_session_raises (initial : option (dict string)) (authed : bool)
    (now : Z) (new_id : ObjectId) (st : state) (e : exn) :
  fst (create_session initial authed now new_id st) = Raise e ->
  e = InvalidId \/ e = DuplicateKeyError.
Proof.
  destruct st as [d fs]. unfold create_session, Session.__init__.
  destruct (match fs_session_id fs with
            | Some sid => if Py.truthy_str sid
                          then Database.get_session sid true now d
                          else (Ok None, d)
            | None => (Ok None, d)
            end) as [looked d1] eqn:E1.
  destruct looked as [from_db|e1].
  - destruct (match from_db, fs_session_id fs with
              | Some _, Some sid => delete_session sid d1
              | _, _ => (Ok false, d1)
              end) as [deleted d2] eqn:E2.
    destruct deleted as [b|e2].
    + unfold set_session.
      destruct (existsb (has_id new_id) (sessions d2)) eqn:Ex.
      * simpl. intros H. injection H as <-. now right.
      * cbn [sessions with_sessions].
        rewrite find_app_fresh;
          [ | now apply existsb_find_none | apply String.eqb_refl].
        simpl. discriminate.
    + simpl. intros H. injection H as <-.
      destruct from_db as [doc|]; [ | discriminate E2].
      destruct (fs_session_id fs) as [sid|]; [ | discriminate E2].
      unfold delete_session in E2.
      destruct (ObjectId_of_str sid) as [oid|e3] eqn:E3.
      * destruct (delete_first (has_id oid) (sessions d1)). discriminate E2.
      * injection E2 as <- _. left.
        unfold ObjectId_of_str in E3. destruct (_ && _); congruence.
  - simpl. intros H. injection H as <-.
    destruct (fs_session_id fs) as [sid|]; [ | discriminate E1].
    destruct (Py.truthy_str sid); [ | discriminate E1].
    unfold Database.get_session in E1.
    destruct (ObjectId_of_str sid) as [oid|e3] eqn:E3.
    + destruct (find (has_id oid) (sessions d)); discriminate E1.
    + injection E1 as <- _. left.
      unfold ObjectId_of_str in E3. destruct (_ && _); congruence.
Qed.

Lemma create_session_authed (initial : option (dict string)) (authed : bool)
    (now : Z) (new_id : ObjectId) (st : state) (s : Session) :
  fst (create_session initial authed now new_id st) = Ok s ->
  is_authed s = authed.
Proof.
  destruct st as [d fs]. unfold create_session, Session.__init__.
  destruct (match fs_session_id fs with
            | Some sid => if Py.truthy_str sid
                          then Database.get_session sid true now d
                          else (Ok None, d)
            | None => (Ok None, d)
            end) as [[from_db|e1] d1]; [ | discriminate].
  destruct (match from_db, fs_session_id fs with
            | Some _, Some sid => delete_session sid d1
            | _, _ => (Ok false, d1)
            end) as [[b|e2] d2]; [ | discriminate].
  unfold set_session.
  destruct (existsb (has_id new_id) (sessions d2)) eqn:Ex; [discriminate | ].
  cbn [sessions with_sessions].
  rewrite find_app_fresh;
    [ | now apply existsb_find_none | apply String.eqb_refl].
  simpl. intros H. now injection H as <-.
Qed.

Lemma guard_admits_unbound (now : Z) (new_id : ObjectId) (r : request)
    (f : view) (d : db) (fs : flask_session) :
  id_bound fs = false -> existsb (has_id new_id) (sessions d) = false ->
  Guards.require_authed_session None now new_id r f (d, fs)
  = f (with_sessions (sessions d ++ [new_session_doc None true now new_id]) d,
       {| fs_session_id := Some new_id;
          fs_expires_at := Some (now + 3600) |}).
Proof.
  intros Hb Hfresh.
  unfold Guards.require_authed_session. cbn [negb].
  now rewrite (create_session_unbound None true now new_id d fs Hb Hfresh).
Qed.

(** X8.  [require_authed_session] does not require a session: on a listed
    method it creates a new authenticated session for any caller, so that
    its answer 401 is never given; the only errors it adds to those of the
    view are those of the store, and a caller without a cookie reaches the
    view with a session that is authenticated. *)
Theorem require_authed_session_admits (methods : option (list string))
    (now : Z) (new_id : ObjectId) (r : request) (f : view) (st : state) :
  let answer := Guards.require_authed_session methods now new_id r f st in
  (answer = f st
   \/ answer = f (snd (create_session None true now new_id st))
   \/ (fst answer = Raise InvalidId \/ fst answer = Raise DuplicateKeyError))
  /\ (methods = None -> id_bound (snd st) = false ->
      existsb (has_id new_id) (sessions (fst st)) = false ->
      answer
      = f (with_sessions
             (sessions (fst st) ++ [new_session_doc None true now new_id])
             (fst st),
           {| fs_session_id := Some new_id;
              fs_expires_at := Some (now + 3600) |})).
Proof.
  intros answer. subst answer. unfold Guards.require_authed_session. split.
  - destruct (negb _); [now left | right].
    destruct (create_session None true now new_id st) as [[s|e] st'] eqn:E.
    + left. rewrite (create_session_authed None true now new_id st s).
      * reflexivity.
      * now rewrite E.
    + right. simpl.
      destruct (create_session_raises None true now new_id st e) as [-> | ->];
        [now rewrite E | now left | now right].
  - intros -> Hb Hfresh. destruct st as [d fs]. cbn [fst snd negb] in *.
    now rewrite (create_session_unbound None true now new_id d fs Hb Hfresh).
Qed.

(** A caller without a cookie, before a view that records its state. *)
Lemma require_authed_session_admits_witness :
  let f : view := fun st => (Ok (Response "configured" 200), st) in
  fst (Guards.require_authed_session None 1000 "5f0000000000000000000001"
         (callback_request "") f (empty_db, cleared))
  = Ok (Response "configured" 200).
Proof.
  intros f.
  rewrite (proj2 (require_authed_session_admits None 1000
                    "5f0000000000000000000001" (callback_request "") f
                    (empty_db, cleared)) eq_refl eq_refl eq_refl).
  reflexivity.
Defined.

End SessionGate.

(** ** The decorators of the configuration view *)

Section ConfigureView.

Import Database Session Decorators Scenario.

Lemma update_first_app_fresh {A : Type} (p : A -> bool) (f : A -> A)
    (l : list A) (x : A) :
  find p l = None -> p x = true ->
  update_first p f (l ++ [x]) = (true, (l ++ [f x])%list).
Proof.
  induction l as [|y l IH]; simpl; intros Hl Hx; [now rewrite Hx | ].
  destruct (p y); [discriminate | ]. now rewrite IH.
Qed.

Lemma delete_first_app_fresh {A : Type} (p : A -> bool) (l : list A) (x : A) :
  find p l = None -> p x = true -> delete_first p (l ++ [x]) = (true, l).
Proof.
  induction l as [|y l IH]; simpl; intros Hl Hx; [now rewrite Hx | ].
  destruct (p y); [discriminate | ]. now rewrite IH.
Qed.

Lemma ObjectId_truthy (sid : string) (oid : ObjectId) :
  ObjectId_of_str sid = Ok oid -> Py.truthy_str sid = true.
Proof.
  unfold ObjectId_of_str. destruct sid; [discriminate | reflexivity].
Qed.

(** A caller bound to the session [old], the last one inserted, creates a
    session: the record of [old] is deleted and the new one takes its
    place. *)
Lemma create_session_replaces_last (initial : option (dict string))
    (authed : bool) (now : Z) (new_id old : ObjectId) (d : db)
    (doc : session_doc) (expiry : option Z) :
  ObjectId_of_str old = Ok old -> s_id doc = old ->
  existsb (has_id old) (sessions d) = false ->
  existsb (has_id new_id) (sessions d) = false ->
  let new_doc := new_session_doc initial authed now new_id in
  create_session initial authed now new_id
    (with_sessions (sessions d ++ [doc]) d,
     {| fs_session_id := Some old; fs_expires_at := expiry |})
  = (Ok {| data := s_data new_doc; id := new_id; expires_at := now + 3600;
           is_authed := authed |},
     (with_sessions (sessions d ++ [new_doc]) d,
      {| fs_session_id := Some new_id; fs_expires_at := Some (now + 3600) |})).
Proof.
  intros Hold Hid Hfresh_old Hfresh_new new_doc.
  assert (Hmatch : has_id old doc = true)
    by (unfold has_id; rewrite Hid; apply String.eqb_refl).
  apply existsb_find_none in Hfresh_old.
  destruct d as [ins ss ca]. unfold with_sessions in *.
  cbn [sessions installations cache] in *.
  unfold create_session, Session.__init__. cbn [fs_session_id].
  rewrite (ObjectId_truthy old old Hold).
  unfold Database.get_session. rewrite Hold.
  unfold with_sessions. cbn [sessions installations cache].
  rewrite (find_app_fresh _ _ doc Hfresh_old Hmatch).
  rewrite update_first_app_fresh by assumption. cbn [snd].
  unfold delete_session. rewrite Hold.
  unfold with_sessions. cbn [sessions installations cache].
  rewrite delete_first_app_fresh by (assumption || exact Hmatch).
  unfold with_sessions. cbn [sessions installations cache].
  pose proof (insert_session_fresh
                match initial with Some (kv :: l) => kv :: l | _ => [] end
                default_expires_in (Some authed) now new_id
                {| installations := ins; sessions := ss; cache := ca |}
                Hfresh_new) as Hins.
  unfold with_sessions in Hins. cbn [sessions installations cache] in Hins.
  match goal with
  | |- context [set_session ?a ?b ?c ?e ?n ?i ?dd] =>
      replace (set_session a b c e n i dd) with
        (Ok (Some (new_session_doc initial authed now new_id)),
         {| installations := ins;
            sessions := ss ++ [new_session_doc initial authed now new_id];
            cache := ca |})
        by (symmetry; exact Hins)
  end.
  reflexivity.
Qed.

(** X9.  The configuration view checks the signature of GET requests
    only.  A request of another method is not validated at all: whatever
    its parameters, a caller without a cookie reaches the view with a new
    authenticated session.  A GET request that the validator does not
    accept does not reach the view and leaves the state as it was.  An
    accepted GET request creates two sessions and deletes the first: the
    view runs with the replay entry recorded and one new session, bound to
    the caller. *)
Theorem configure_view_checks_get_only (cfg : config) (now : Z)
    (id1 id2 : ObjectId) (r : request) (f : view) (d : db)
    (fs : flask_session) :
  id_bound fs = false ->
  existsb (has_id id1) (sessions d) = false ->
  existsb (has_id id2) (sessions d) = false ->
  ObjectId_of_str id1 = Ok id1 ->
  let answer := Views.configure_decorators cfg now id1 id2 r f (d, fs) in
  let bound := {| fs_session_id := Some id2;
                  fs_expires_at := Some (now + 3600) |} in
  let doc := new_session_doc None true now id2 in
  (method r <> "GET" ->
     answer = f (with_sessions (sessions d ++ [doc]) d, bound))
  /\ (method r = "GET" ->
      (forall outcome, _oauth_is_signature_valid cfg now r d = outcome ->
         outcome <> Ok true ->
         answer = (match outcome with
                   | Raise e => Raise e
                   | Ok _ => Raise (HTTPException 401)
                   end, (d, fs)))
      /\ (_oauth_is_signature_valid cfg now r d = Ok true ->
          let d1 := snd (check_signature cfg now r d) in
          answer = f (with_sessions (sessions d ++ [doc]) d1, bound))).
Proof.
  intros Hb H1 H2 Hid1 answer bound doc. subst answer.
  unfold Views.configure_decorators, validate_oauth_signature.
  cbn [existsb]. rewrite orb_false_r. split.
  - intros Hm. apply String.eqb_neq in Hm. rewrite Hm. cbn [negb].
    now rewrite (guard_admits_unbound now id2 r f d fs Hb H2).
  - intros Hm. apply String.eqb_eq in Hm. rewrite Hm. cbn [negb fst snd]. split.
    + intros outcome Hout Hne. unfold check_signature. rewrite Hout.
      destruct outcome as [[|]|e]; [now elim Hne | reflexivity ..].
    + intros Hval. unfold check_signature. rewrite Hval.
      cbn [snd fst].
      set (d1 := save_to_cache _ default_cache_ttl now d).
      assert (Hs : sessions d1 = sessions d) by reflexivity.
      rewrite (create_session_unbound None true now id1 d1 fs Hb)
        by now rewrite Hs.
      unfold Guards.require_authed_session. cbn [negb].
      pose proof (create_session_replaces_last None true now id2 id1 d1
                    (new_session_doc None true now id1) (Some (now + 3600))
                    Hid1 eq_refl) as Hrep.
      rewrite Hs in Hrep. rewrite Hs.
      now rewrite (Hrep H1 H2).
Qed.

(** A POST request without any parameter reaches the configuration view. *)
Lemma configure_view_checks_get_only_witness :
  let r := {| method := "POST"; base_url := "https://test.example/configure";
              args := [] |} in
  fst (Views.configure_decorators (scenario_config "app") 0
         "5f0000000000000000000001" "5f0000000000000000000002" r
         (fun st => (Ok (Response "configured" 200), st)) (empty_db, cleared))
  = Ok (Response "configured" 200).
Proof.
  intros r.
  rewrite (proj1 (configure_view_checks_get_only (scenario_config "app") 0
                    "5f0000000000000000000001" "5f0000000000000000000002" r
                    (fun st => (Ok (Response "configured" 200), st))
                    empty_db cleared eq_refl eq_refl eq_refl eq_refl));
    [reflexivity | discriminate].
Defined.

End ConfigureView.

(** ** Sessions: distinct identifiers, round trips and failures *)

Section SessionLifecycle.

Import Database Session Scenario.

Lemma update_first_ids {A B : Type} (key : A -> B) (p : A -> bool) (f : A -> A)
    (l : list A) :
  (forall x, key (f x) = key x) ->
  map key (snd (update_first p f l)) = map key l.
Proof.
  intros Hf. induction l as [|x l IH]; simpl; [reflexivity | ].
  destruct (p x); simpl; [now rewrite Hf | ].
  destruct (update_first p f l) as [m l']. simpl in *. now rewrite IH.
Qed.

Lemma delete_first_NoDup {A B : Type} (key : A -> B) (p : A -> bool)
    (l : list A) :
  NoDup (map key l) -> NoDup (map key (snd (delete_first p l))).
Proof.
  induction l as [|x l IH]; simpl; intros H; [constructor | ].
  inversion H as [|? ? Hx Hl]; subst.
  destruct (p x); simpl; [exact Hl | ].
  destruct (delete_first p l) as [m l'] eqn:E. simpl in *.
  constructor; [ | now apply IH].
  intros Hin. apply Hx. apply in_map_iff in Hin.
  destruct Hin as (y & Hy & Hin). rewrite <- Hy. apply in_map.
  apply (delete_first_In p). now rewrite E.
Qed.

Lemma existsb_has_id (oid : ObjectId) (l : list session_doc) :
  existsb (has_id oid) l = false <-> ~ In oid (map s_id l).
Proof.
  induction l as [|x l IH]; simpl; [tauto | ].
  unfold has_id at 1. destruct (String.eqb_spec (s_id x) oid); simpl.
  - split; [discriminate | intros H; elim H; now left].
  - rewrite IH. tauto.
Qed.

Lemma find_deleted (oid : ObjectId) (l : list session_doc) :
  NoDup (map s_id l) ->
  find (has_id oid) (snd (delete_first (has_id oid) l)) = None.
Proof.
  induction l as [|x l IH]; simpl; intros H; [reflexivity | ].
  inversion H as [|? ? Hx Hl]; subst.
  destruct (has_id oid x) eqn:E; simpl.
  - apply existsb_find_none, existsb_has_id.
    unfold has_id in E. apply String.eqb_eq in E. now rewrite <- E.
  - destruct (delete_first (has_id oid) l) as [m l'] eqn:E'. simpl in *.
    rewrite E. now apply IH.
Qed.

(** X10.  The operations on sessions keep the identifiers of the stored
    sessions distinct: [set_session], which refuses to insert an
    identifier that is taken, [get_session], [delete_session], the expiry
    of the store, and with them [Session.__init__] and
    [Session.__setitem__]. *)
Theorem session_ids_stay_distinct (d : db) :
  distinct_ids d ->
  (forall dat sid expires_in authed now new_id,
      distinct_ids (snd (set_session dat sid expires_in authed now new_id d)))
  /\ (forall sid refresh now,
        distinct_ids (snd (Database.get_session sid refresh now d)))
  /\ (forall sid, distinct_ids (snd (delete_session sid d)))
  /\ (forall now, distinct_ids (expire now d))
  /\ (forall initial authed create_new now new_id fs,
        distinct_ids
          (fst (snd (Session.__init__ initial authed create_new now new_id
                       (d, fs)))))
  /\ (forall self key value now new_id,
        distinct_ids (snd (Session.__setitem__ self key value now new_id d))).
Proof.
  intros Hd.
  assert (Hset : forall d0, distinct_ids d0 ->
            forall dat sid expires_in authed now new_id,
              distinct_ids
                (snd (set_session dat sid expires_in authed now new_id d0))).
  { intros d0 H0 dat sid expires_in authed now new_id.
    unfold set_session, distinct_ids in *.
    destruct sid as [sid|].
    - destruct (ObjectId_of_str sid) as [oid|e]; [ | exact H0].
      destruct (update_first (has_id oid) _ (sessions d0)) as [m l] eqn:E.
      simpl. apply (f_equal snd) in E. simpl in E. subst l.
      now rewrite update_first_ids.
    - destruct (existsb (has_id new_id) (sessions d0)) eqn:E; [exact H0 | ].
      simpl. rewrite map_app. simpl.
      apply NoDup_app; [exact H0 | repeat constructor; tauto | ].
      intros x Hx [<- | []]. now apply existsb_has_id in E. }
  assert (Hget : forall d0, distinct_ids d0 ->
            forall sid refresh now,
              distinct_ids (snd (Database.get_session sid refresh now d0))).
  { intros d0 H0 sid refresh now. unfold Database.get_session, distinct_ids in *.
    destruct (ObjectId_of_str sid) as [oid|e]; [ | exact H0].
    destruct (find (has_id oid) (sessions d0)); [ | exact H0].
    destruct refresh; [ | exact H0]. simpl.
    now rewrite update_first_ids. }
  assert (Hdel : forall d0, distinct_ids d0 ->
            forall sid, distinct_ids (snd (delete_session sid d0))).
  { intros d0 H0 sid. unfold delete_session, distinct_ids in *.
    destruct (ObjectId_of_str sid) as [oid|e]; [ | exact H0].
    destruct (delete_first (has_id oid) (sessions d0)) as [m l] eqn:E.
    simpl. apply (f_equal snd) in E. simpl in E. subst l.
    now apply delete_first_NoDup. }
  split; [now apply Hset | ]. split; [now apply Hget | ].
  split; [now apply Hdel | ]. split; [ | split].
  - intros now. unfold distinct_ids, expire in *. simpl.
    induction (sessions d) as [|x l IH]; simpl; [constructor | ].
    inversion Hd as [|? ? Hx Hl]; subst.
    destruct (now <? s_expires_at x); simpl; [ | now apply IH].
    constructor; [ | now apply IH].
    intros Hin. apply Hx. apply in_map_iff in Hin.
    destruct Hin as (y & <- & Hin). apply in_map.
    now apply filter_In in Hin.
  - intros initial authed create_new now new_id fs. unfold Session.__init__.
    destruct (match fs_session_id fs with
              | Some sid => if Py.truthy_str sid
                            then Database.get_session sid true now d
                            else (Ok None, d)
              | None => (Ok None, d)
              end) as [looked d1] eqn:E1.
    assert (Hd1 : distinct_ids d1).
    { destruct (fs_session_id fs) as [sid|].
      - destruct (Py.truthy_str sid).
        + pose proof (Hget d Hd sid true now) as H. now rewrite E1 in H.
        + now injection E1 as _ <-.
      - now injection E1 as _ <-. }
    destruct looked as [from_db|e]; [ | exact Hd1].
    destruct create_new.
    + destruct (match from_db, fs_session_id fs with
                | Some _, Some sid => delete_session sid d1
                | _, _ => (Ok false, d1)
                end) as [deleted d2] eqn:E2.
      assert (Hd2 : distinct_ids d2).
      { destruct from_db as [doc|]; [ | now injection E2 as _ <-].
        destruct (fs_session_id fs) as [sid|]; [ | now injection E2 as _ <-].
        pose proof (Hdel d1 Hd1 sid) as H. now rewrite E2 in H. }
      destruct deleted as [b|e]; [ | exact Hd2].
      pose proof (Hset d2 Hd2
                    match initial with Some (kv :: l) => kv :: l | _ => [] end
                    None default_expires_in (Some authed) now new_id) as H3.
      destruct (set_session _ None default_expires_in (Some authed) now new_id d2)
        as [[[doc|]|e] d3]; simpl in H3; try exact H3.
      now destruct (bind_session doc) as [[self fs']|e].
    + destruct from_db as [doc|].
      * destruct (cached_expiry_passed now fs); [exact Hd1 | ].
        now destruct (bind_session doc) as [[self fs']|e].
      * now destruct (id_bound fs || cached_expiry_passed now fs).
  - intros self key value now new_id. unfold Session.__setitem__.
    pose proof (Hset d Hd (dict_set key value (data self)) (Some (id self))
                  default_expires_in None now new_id) as H.
    simpl data. simpl id.
    now destruct (set_session _ _ default_expires_in None now new_id d)
      as [[[doc|]|e] d1].
Qed.

(** A store with one session, after a second one is created. *)
Lemma session_ids_stay_distinct_witness :
  distinct_ids
    (fst (snd (Session.__init__ None true true 1000 "5f0000000000000000000002"
                 (db_without_installation, cleared)))).
Proof.
  apply (session_ids_stay_distinct db_without_installation).
  unfold distinct_ids. simpl. repeat constructor. simpl. tauto.
Defined.

(** X11.  A session created for a caller without a cookie is resolved
    with the identifier, the data and the flag it was created with at
    every time before its 3600 seconds have passed, and from then on the
    resolve raises [SessionExpired]. *)
Theorem created_session_resolves (initial : option (dict string))
    (authed : bool) (now later : Z) (new_id other_id : ObjectId) (d : db)
    (fs : flask_session) :
  id_bound fs = false -> existsb (has_id new_id) (sessions d) = false ->
  ObjectId_of_str new_id = Ok new_id ->
  let created := create_session initial authed now new_id (d, fs) in
  let resolved := fst (Session.get_session later other_id (snd created)) in
  (later < now + 3600 ->
     resolved = fst created
     /\ resolved = Ok {| data := match initial with
                                 | Some (kv :: l) => kv :: l
                                 | _ => []
                                 end;
                         id := new_id; expires_at := now + 3600;
                         is_authed := authed |})
  /\ (now + 3600 <= later -> now + 3600 <> 0 -> resolved = Raise SessionExpired).
Proof.
  intros Hb Hfresh Hid created resolved. subst resolved created.
  rewrite (create_session_unbound initial authed now new_id d fs Hb Hfresh).
  cbn [fst snd]. rewrite resolve_outcome.
  assert (Hbound : id_bound {| fs_session_id := Some new_id;
                               fs_expires_at := Some (now + 3600) |} = true)
    by (unfold id_bound; simpl; exact (ObjectId_truthy _ _ Hid)).
  rewrite Hbound. cbn [fs_session_id].
  rewrite (get_session_found new_id new_id later _ Hid).
  cbn [sessions with_sessions].
  rewrite find_app_fresh;
    [ | now apply existsb_find_none | apply String.eqb_refl].
  unfold cached_expiry_passed, Py.truthy_int. cbn [fs_expires_at]. split.
  - intros Hlt. destruct (Z.leb_spec (now + 3600) later); [lia | ].
    rewrite andb_false_r. now split.
  - intros Hge Hnz. destruct (Z.leb_spec (now + 3600) later); [ | lia].
    apply Z.eqb_neq in Hnz. now rewrite Hnz.
Qed.

(** A session created at time 1000 and resolved at time 4599. *)
Lemma created_session_resolves_witness :
  let created := create_session (Some [("user", "u1")]) true 1000
                   "5f0000000000000000000001" (empty_db, cleared) in
  fst (Session.get_session 4599 "5f0000000000000000000002" (snd created))
  = fst created.
Proof.
  intros created.
  apply (proj1 (created_session_resolves (Some [("user", "u1")]) true 1000 4599
                  "5f0000000000000000000001" "5f0000000000000000000002"
                  empty_db cleared eq_refl eq_refl eq_refl)).
  lia.
Defined.

Lemma existsb_update_first (oid : ObjectId) (p : session_doc -> bool)
    (f : session_doc -> session_doc) (l : list session_doc) :
  (forall x, s_id (f x) = s_id x) ->
  existsb (has_id oid) (snd (update_first p f l)) = existsb (has_id oid) l.
Proof.
  intros Hf.
  destruct (existsb (has_id oid) l) eqn:E.
  - destruct (existsb (has_id oid) (snd (update_first p f l))) eqn:E';
      [reflexivity | ].
    apply existsb_has_id in E'. rewrite update_first_ids in E' by exact Hf.
    apply existsb_has_id in E'. congruence.
  - apply existsb_has_id. rewrite update_first_ids by exact Hf.
    now apply existsb_has_id.
Qed.

Lemma existsb_delete_first (oid : ObjectId) (p : session_doc -> bool)
    (l : list session_doc) :
  existsb (has_id oid) l = false ->
  existsb (has_id oid) (snd (delete_first p l)) = false.
Proof.
  rewrite !existsb_has_id. intros H Hin. apply H.
  apply in_map_iff in Hin. destruct Hin as (x & <- & Hin).
  apply in_map. now apply (delete_first_In p).
Qed.

(** X12.  A caller bound to a stored session who creates a session loses
    the old one: its record is deleted before the new one is inserted, so
    that the store no longer holds the old identifier, and the caller is
    bound to the new session. *)
Theorem create_session_deletes_previous (initial : option (dict string))
    (authed : bool) (now : Z) (new_id : ObjectId) (d : db)
    (fs : flask_session) (sid : string) (old : ObjectId) :
  distinct_ids d ->
  fs_session_id fs = Some sid -> ObjectId_of_str sid = Ok old ->
  find (has_id old) (sessions d) <> None ->
  existsb (has_id new_id) (sessions d) = false ->
  let answer := create_session initial authed now new_id (d, fs) in
  let d' := fst (snd answer) in
  (exists s, fst answer = Ok s /\ id s = new_id /\ is_authed s = authed)
  /\ find (has_id old) (sessions d') = None
  /\ find (has_id new_id) (sessions d')
     = Some (new_session_doc initial authed now new_id)
  /\ fs_session_id (snd (snd answer)) = Some new_id.
Proof.
  intros Hd Hsid Hold Hfound Hfresh answer d'. subst d' answer.
  assert (Hne : new_id <> old).
  { intros ->. apply existsb_find_none in Hfresh. contradiction. }
  unfold create_session, Session.__init__. rewrite Hsid.
  rewrite (ObjectId_truthy sid old Hold).
  unfold Database.get_session. rewrite Hold.
  destruct (find (has_id old) (sessions d)) as [doc|] eqn:Hfind;
    [clear Hfound | now elim Hfound].
  cbn [fst snd]. unfold delete_session. rewrite Hold.
  set (refreshed := snd (update_first (has_id old) _ (sessions d))).
  cbn [sessions with_sessions].
  assert (Hids : map s_id refreshed = map s_id (sessions d))
    by (apply update_first_ids; reflexivity).
  destruct (delete_first (has_id old) refreshed) as [m l] eqn:E.
  assert (Hl : l = snd (delete_first (has_id old) refreshed)) by now rewrite E.
  cbn [sessions with_sessions].
  assert (Hgone : find (has_id old) l = None).
  { rewrite Hl. apply find_deleted. now rewrite Hids. }
  assert (Hfresh' : existsb (has_id new_id) l = false).
  { rewrite Hl. apply existsb_delete_first. subst refreshed.
    now rewrite existsb_update_first. }
  pose proof (insert_session_fresh
                match initial with Some (kv :: l0) => kv :: l0 | _ => [] end
                default_expires_in (Some authed) now new_id
                (with_sessions l (with_sessions refreshed d))) as Hins.
  cbn [sessions with_sessions] in Hins. specialize (Hins Hfresh').
  match goal with
  | |- context [set_session ?a ?b ?c ?e ?n ?i ?dd] =>
      replace (set_session a b c e n i dd) with
        (Ok (Some (new_session_doc initial authed now new_id)),
         with_sessions (l ++ [new_session_doc initial authed now new_id])
           (with_sessions l (with_sessions refreshed d)))
        by (symmetry; exact Hins)
  end.
  cbn [bind_session new_session_doc s_is_authed fst snd sessions with_sessions
       fs_session_id str_of_ObjectId s_id id is_authed].
  split; [eexists; repeat split | ].
  split; [ | split; [ | reflexivity]].
  - apply existsb_find_none. rewrite existsb_app. apply orb_false_intro.
    + now apply existsb_find_none.
    + simpl. rewrite orb_false_r. unfold has_id. simpl.
      now apply String.eqb_neq.
  - apply find_app_fresh; [now apply existsb_find_none | apply String.eqb_refl].
Qed.

(** The caller of the install session creates a session. *)
Lemma create_session_deletes_previous_witness :
  let fs := {| fs_session_id := Some "5f0000000000000000000001";
               fs_expires_at := Some 1300 |} in
  let answer := create_session None true 1000 "5f0000000000000000000002"
                  (db_without_installation, fs) in
  find (has_id "5f0000000000000000000001") (sessions (fst (snd answer))) = None.
Proof.
  intros fs answer.
  refine (proj1 (proj2 (create_session_deletes_previous None true 1000
                          "5f0000000000000000000002" db_without_installation fs
                          "5f0000000000000000000001" "5f0000000000000000000001"
                          _ eq_refl eq_refl _ eq_refl))).
  - unfold distinct_ids. simpl. repeat constructor. simpl. tauto.
  - discriminate.
Defined.

(** X13.  What is assigned to a key of a session is what the next
    resolve of the caller reads: after [session[key] = value], a resolve
    before the cached expiry returns the session with the dictionary as
    assigned, [value] under [key]. *)
Theorem assigned_value_is_resolved (self : Session) (key value : string)
    (now later : Z) (new_id other_id : ObjectId) (d : db) (fs : flask_session)
    (oid : ObjectId) (doc : session_doc) (authed : bool) :
  fs_session_id fs = Some (id self) -> ObjectId_of_str (id self) = Ok oid ->
  find (has_id oid) (sessions d) = Some doc ->
  s_is_authed doc = Some authed ->
  cached_expiry_passed later fs = false ->
  let d' := snd (Session.__setitem__ self key value now new_id d) in
  exists resolved,
    fst (Session.get_session later other_id (d', fs)) = Ok resolved
    /\ data resolved = dict_set key value (data self)
    /\ dict_get key (data resolved) = Some value
    /\ is_authed resolved = authed.
Proof.
  intros Hsid Hoid Hfind Hauth Hpass d'.
  assert (Hfind' : find (has_id oid) (sessions d')
                   = Some {| s_id := s_id doc;
                             s_expires_in := default_expires_in;
                             s_expires_at := now + default_expires_in;
                             s_data := dict_set key value (data self);
                             s_is_authed := s_is_authed doc |}).
  { subst d'. unfold Session.__setitem__, set_session. simpl id. rewrite Hoid.
    destruct (update_first (has_id oid) _ (sessions d)) as [m l] eqn:E.
    apply (f_equal snd) in E. simpl in E. subst l.
    rewrite find_update_first by reflexivity. rewrite Hfind. simpl.
    rewrite find_update_first by reflexivity. now rewrite Hfind. }
  rewrite resolve_outcome. rewrite Hsid.
  assert (Hbound : id_bound fs = true)
    by (unfold id_bound; rewrite Hsid; exact (ObjectId_truthy _ _ Hoid)).
  rewrite Hbound, (get_session_found (id self) oid later d' Hoid), Hfind', Hpass.
  unfold bind_session. cbn [s_is_authed]. rewrite Hauth.
  eexists. split; [reflexivity | ]. cbn [data is_authed s_data].
  repeat split. apply dict_get_dict_set_same.
Qed.

(** The session created at time 1000, assigned to at time 2000 and
    resolved at time 3000. *)
Lemma assigned_value_is_resolved_witness :
  let oid := "5f0000000000000000000001" in
  let st := snd (create_session None true 1000 oid (empty_db, cleared)) in
  let self := {| data := []; id := oid; expires_at := 4600; is_authed := true |} in
  let d' := snd (Session.__setitem__ self "step" "2" 2000 oid (fst st)) in
  exists resolved,
    fst (Session.get_session 3000 oid (d', snd st)) = Ok resolved
    /\ dict_get "step" (data resolved) = Some "2".
Proof.
  intros oid st self d'.
  destruct (assigned_value_is_resolved self "step" "2" 2000 3000 oid oid
              (fst st) (snd st) oid
              {| s_id := oid; s_expires_in := 3600; s_expires_at := 4600;
                 s_data := []; s_is_authed := Some true |} true
              eq_refl eq_refl eq_refl eq_refl eq_refl)
    as (resolved & Hres & _ & Hget & _).
  exists resolved. split; assumption.
Defined.

(** X14.  A resolve that fails with [SessionExpired] or [SessionNotFound]
    clears the caller's cookie, so that every later resolve of the caller
    raises [SessionNotFound]; and a resolve that fails because the cached
    expiry has passed has all the same moved the expiry of the stored
    record to [now + expires_in]. *)
Theorem failed_resolve_clears_cookie (now : Z) (new_id : ObjectId) (d : db)
    (fs : flask_session) :
  let answer := Session.get_session now new_id (d, fs) in
  (fst answer = Raise SessionExpired \/ fst answer = Raise SessionNotFound ->
     snd (snd answer) = cleared
     /\ forall later other_id,
          fst (Session.get_session later other_id (snd answer))
          = Raise SessionNotFound)
  /\ (forall sid oid doc,
        fs_session_id fs = Some sid -> ObjectId_of_str sid = Ok oid ->
        find (has_id oid) (sessions d) = Some doc ->
        cached_expiry_passed now fs = true ->
        fst answer = Raise SessionExpired
        /\ option_map s_expires_at
             (find (has_id oid) (sessions (fst (snd answer))))
           = Some (now + s_expires_in doc)).
Proof.
  intros answer. split.
  - intros Hfail.
    assert (Hclear : snd (snd answer) = cleared).
    { subst answer. revert Hfail. unfold Session.get_session, Session.__init__.
      destruct (match fs_session_id fs with
                | Some sid => if Py.truthy_str sid
                              then Database.get_session sid true now d
                              else (Ok None, d)
                | None => (Ok None, d)
                end) as [[from_db|e] d1] eqn:E1.
      - destruct from_db as [doc|].
        + destruct (cached_expiry_passed now fs); [reflexivity | ].
          unfold bind_session. destruct (s_is_authed doc); simpl;
            intros [H | H]; discriminate H.
        + now destruct (id_bound fs || cached_expiry_passed now fs).
      - simpl. intros [H | H]; injection H as ->.
        + exfalso. destruct (fs_session_id fs) as [sid|]; [ | discriminate E1].
          destruct (Py.truthy_str sid); [ | discriminate E1].
          unfold Database.get_session in E1.
          destruct (ObjectId_of_str sid) as [oid|e3] eqn:E3.
          * destruct (find (has_id oid) (sessions d)); discriminate E1.
          * unfold ObjectId_of_str in E3. destruct (_ && _); congruence.
        + exfalso. destruct (fs_session_id fs) as [sid|]; [ | discriminate E1].
          destruct (Py.truthy_str sid); [ | discriminate E1].
          unfold Database.get_session in E1.
          destruct (ObjectId_of_str sid) as [oid|e3] eqn:E3.
          * destruct (find (has_id oid) (sessions d)); discriminate E1.
          * unfold ObjectId_of_str in E3. destruct (_ && _); congruence. }
    split; [exact Hclear | ].
    intros later other_id. destruct (snd answer) as [d' fs'] eqn:E.
    simpl in Hclear. subst fs'. now rewrite resolve_outcome.
  - intros sid oid doc Hsid Hoid Hfind Hpass. subst answer.
    destruct (get_session_returns_stale sid oid now d doc Hoid Hfind)
      as [Hret Hstore].
    unfold Session.get_session, Session.__init__. rewrite Hsid.
    rewrite (ObjectId_truthy sid oid Hoid).
    destruct (Database.get_session sid true now d) as [looked d1].
    simpl in Hret, Hstore. subst looked. rewrite Hpass. simpl.
    now split.
Qed.

(** The install session resolved by a caller whose cached expiry, 1300,
    has passed at time 1400. *)
Lemma failed_resolve_clears_cookie_witness :
  let fs := {| fs_session_id := Some "5f0000000000000000000001";
               fs_expires_at := Some 1300 |} in
  let answer := Session.get_session 1400 "5f0000000000000000000002"
                  (db_without_installation, fs) in
  fst answer = Raise SessionExpired
  /\ option_map s_expires_at
       (find (has_id "5f0000000000000000000001") (sessions (fst (snd answer))))
     = Some 1700.
Proof.
  intros fs answer.
  apply (proj2 (failed_resolve_clears_cookie 1400 "5f0000000000000000000002"
                  db_without_installation fs)
           "5f0000000000000000000001" "5f0000000000000000000001"
           install_session eq_refl eq_refl eq_refl eq_refl).
Defined.

End SessionLifecycle.

(** ** Installations: install, look up, uninstall *)

Section InstallationRecords.

Import Database Installations Scenario.

Lemma dict_set_keys_NoDup {V : Type} (k : string) (v : V) (l : dict V) :
  NoDup (map fst l) -> NoDup (map fst (dict_set k v l)).
Proof.
  induction l as [|[k0 v0] l IH]; simpl; intros H.
  - repeat constructor. tauto.
  - inversion H as [|? ? Hx Hl]; subst.
    destruct (String.eqb_spec k k0) as [-> | Hk]; simpl.
    + now constructor.
    + constructor; [ | now apply IH].
      intros Hin. apply Hx. clear IH H Hx Hl.
      induction l as [|[k1 v1] l IH]; simpl in *.
      * destruct Hin as [H | []]. congruence.
      * destruct (String.eqb_spec k k1) as [-> | Hk1]; simpl in *.
        -- destruct Hin as [H | H]; [congruence | now right].
        -- destruct Hin as [H | H]; [now left | right; now apply IH].
Qed.

Lemma dict_update_keys_NoDup {V : Type} (upd l : dict V) :
  NoDup (map fst l) -> NoDup (map fst (dict_update l upd)).
Proof.
  unfold dict_update. revert l.
  induction upd as [|[k v] upd IH]; simpl; intros l H; [exact H | ].
  apply IH. now apply dict_set_keys_NoDup.
Qed.

Lemma dict_get_dict_set {V : Type} (k k' : string) (v : V) (l : dict V) :
  dict_get k (dict_set k' v l)
  = if String.eqb k k' then Some v else dict_get k l.
Proof.
  destruct (String.eqb_spec k k') as [-> | Hk].
  - apply dict_get_dict_set_same.
  - now apply dict_get_dict_set_other.
Qed.

Lemma dict_get_absent {V : Type} (k : string) (l : dict V) :
  ~ In k (map fst l) -> dict_get k l = None.
Proof.
  induction l as [|[k0 v0] l IH]; simpl; intros H; [reflexivity | ].
  destruct (String.eqb_spec k k0); [exfalso; apply H; now left | ].
  apply IH. tauto.
Qed.

(** Looking a key up after an update by a dictionary of distinct keys. *)
Lemma dict_get_dict_update {V : Type} (k : string) (upd l : dict V) :
  NoDup (map fst upd) ->
  dict_get k (dict_update l upd)
  = match dict_get k upd with
    | Some v => Some v
    | None => dict_get k l
    end.
Proof.
  unfold dict_update. revert l.
  induction upd as [|[k0 v0] upd IH]; simpl; intros l H; [reflexivity | ].
  inversion H as [|? ? Hx Hl]; subst.
  rewrite IH by exact Hl. rewrite dict_get_dict_set.
  destruct (String.eqb_spec k k0) as [-> | Hk]; [ | reflexivity].
  now rewrite dict_get_absent.
Qed.

Lemma update_first_matched_In {A : Type} (p : A -> bool) (f : A -> A)
    (l : list A) :
  fst (update_first p f l) = true ->
  exists x, In x l /\ p x = true /\ In (f x) (snd (update_first p f l)).
Proof.
  induction l as [|x l IH]; simpl; [discriminate | ].
  destruct (p x) eqn:E; simpl.
  - intros _. exists x. auto.
  - destruct (update_first p f l) as [m l']. simpl in *. intros H.
    destruct (IH H) as (y & H1 & H2 & H3). exists y. auto.
Qed.

Lemma update_first_unmatched {A : Type} (p : A -> bool) (f : A -> A)
    (l : list A) :
  fst (update_first p f l) = false -> find p l = None.
Proof.
  induction l as [|x l IH]; simpl; [reflexivity | ].
  destruct (p x); simpl; [discriminate | ].
  destruct (update_first p f l) as [m l']. simpl in *. exact IH.
Qed.

Lemma set_fields_get (data : dict string) (config : option (dict string))
    (i : installation) (k v : string) :
  NoDup (map fst data) -> dict_get k data = Some v ->
  dict_get k (i_fields (set_fields data config i)) = Some v.
Proof.
  intros Hnd Hget. simpl. now rewrite dict_get_dict_update, Hget.
Qed.

(** After [upsert_installation] of [data], the first installation that
    matches the pair of [data] is one [data] was written to. *)
Lemma upserted_installation_helper (data : dict string)
    (config : option (dict string)) (d : db) (install_id app_id : string) :
  NoDup (map fst data) ->
  dict_get "install_id" data = Some install_id ->
  dict_get "app_id" data = Some app_id ->
  fst (upsert_installation data config d) = Ok tt
  /\ find (installation_matches app_id install_id)
       (installations (snd (upsert_installation data config d))) <> None.
Proof.
  intros Hnd Hiid Haid. unfold upsert_installation.
  rewrite Hiid.
  assert (Hmatch : forall x, installation_matches app_id install_id
                               (set_fields data config x) = true).
  { intros x. unfold installation_matches.
    rewrite (set_fields_get data config x _ _ Hnd Hiid),
      (set_fields_get data config x _ _ Hnd Haid).
    now rewrite !String.eqb_refl. }
  destruct (update_first (has_install_id install_id) (set_fields data config)
              (installations d)) as [matched l] eqn:E.
  destruct matched; simpl; (split; [reflexivity | ]).
  - destruct (update_first_matched_In (has_install_id install_id)
                (set_fields data config) (installations d))
      as (x & _ & _ & Hin); [now rewrite E | ].
    rewrite E in Hin. simpl in Hin.
    now apply (find_exists _ (set_fields data config x)).
  - apply (find_exists _ (set_fields data config
                            {| i_fields := [("install_id", install_id)];
                               i_config := None; i_oauth_token := None |}));
      [apply in_or_app; right; now left | apply Hmatch].
Qed.

(** X15.  [upsert_installation] records an installation that can be looked
    up: given [data] of distinct field names with an [install_id] and an
    [app_id],
    it raises nothing, and [get_installation] for that pair then finds a
    record that holds every field of [data]. *)
Theorem upserted_installation_is_found (data : dict string)
    (config : option (dict string)) (d : db) (install_id app_id : string) :
  field_names data -> NoDup (map fst data) ->
  dict_get "install_id" data = Some install_id ->
  dict_get "app_id" data = Some app_id ->
  let answer := upsert_installation data config d in
  fst answer = Ok tt
  /\ exists i, get_installation app_id install_id (snd answer) = Some i
               /\ forall k v, dict_get k data = Some v ->
                              dict_get k (i_fields i) = Some v.
Proof.
  intros _ Hnd Hiid Haid answer. subst answer. unfold upsert_installation.
  rewrite Hiid.
  assert (Hmatch : forall x, installation_matches app_id install_id
                               (set_fields data config x) = true).
  { intros x. unfold installation_matches.
    rewrite (set_fields_get data config x _ _ Hnd Hiid),
      (set_fields_get data config x _ _ Hnd Haid).
    now rewrite !String.eqb_refl. }
  assert (Hskip : forall x, has_install_id install_id x = false ->
                            installation_matches app_id install_id x = false).
  { intros x. unfold has_install_id, installation_matches.
    destruct (dict_get "install_id" (i_fields x)) as [iid|]; [ | reflexivity].
    intros ->. now destruct (dict_get "app_id" (i_fields x)). }
  destruct (update_first (has_install_id install_id) (set_fields data config)
              (installations d)) as [matched l] eqn:E.
  assert (Hfound : exists x,
             find (installation_matches app_id install_id)
               (if matched then l
                else (installations d
                        ++ [set_fields data config
                              {| i_fields := [("install_id", install_id)];
                                 i_config := None; i_oauth_token := None |}])%list)
             = Some (set_fields data config x)).
  { clear Hiid Haid. revert matched l E.
    induction (installations d) as [|x l0 IH]; simpl; intros matched l E.
    - injection E as <- <-. simpl. rewrite Hmatch. eauto.
    - destruct (has_install_id install_id x) eqn:Ex.
      + injection E as <- <-. simpl. rewrite Hmatch. eauto.
      + destruct (update_first _ _ l0) as [m l1] eqn:E1.
        injection E as <- <-. specialize (IH m l1 eq_refl).
        destruct m; simpl; rewrite (Hskip x Ex); exact IH. }
  destruct Hfound as [x Hx].
  destruct matched; simpl; (split; [reflexivity | ]);
    unfold get_installation; simpl; rewrite Hx;
    eexists; (split; [reflexivity | ]);
    intros k v Hk; now apply set_fields_get.
Qed.

(** The installation the install webhook records for [app], [install]. *)
Lemma upserted_installation_is_found_witness :
  let data := [("_name", "App"); ("install_id", "install"); ("app_id", "app");
               ("site_id", "7")] in
  exists i, get_installation "app" "install"
              (snd (upsert_installation data None empty_db)) = Some i
            /\ dict_get "site_id" (i_fields i) = Some "7".
Proof.
  intros data.
  destruct (upserted_installation_is_found data None empty_db "install" "app")
    as (_ & i & Hi & Hfields); try reflexivity.
  - intros k Hk. simpl in Hk.
    repeat (destruct Hk as [<- | Hk]; [reflexivity | ]). destruct Hk.
  - simpl. repeat constructor; simpl; intuition discriminate.
  - exists i. split; [exact Hi | ]. now apply Hfields.
Defined.

End InstallationRecords.

(** ** The state of the authorization request as a string *)

Section StateString.

Import Database.

Lemma split_from_nonempty (sep : ascii) (s acc : string) :
  exists x rest, Py.split_from sep acc s = x :: rest.
Proof.
  revert acc. induction s as [|c s IH]; simpl; intros acc; [eauto | ].
  destruct (Ascii.eqb c sep); [eauto | apply IH].
Qed.

Lemma split_from_no_separator (sep : ascii) (s acc : string) :
  Py.contains_char sep s = false -> Py.split_from sep acc s = [(acc ++ s)%string].
Proof.
  revert acc. induction s as [|c s IH]; simpl; intros acc H.
  - now rewrite str_app_nil_r.
  - apply orb_false_elim in H. destruct H as [Hc Hs]. rewrite Hc.
    rewrite IH by exact Hs. now rewrite str_app_assoc.
Qed.

Lemma split_from_prefix (sep : ascii) (a b acc : string) :
  Py.contains_char sep a = false ->
  Py.split_from sep acc (a ++ String sep b)
  = (acc ++ a)%string :: Py.split_from sep "" b.
Proof.
  revert acc. induction a as [|c a IH]; simpl; intros acc H.
  - now rewrite Ascii.eqb_refl, str_app_nil_r.
  - apply orb_false_elim in H. destruct H as [Hc Ha]. rewrite Hc.
    rewrite IH by exact Ha. now rewrite str_app_assoc.
Qed.

Lemma split_from_separator (sep : ascii) (s acc : string) :
  Py.contains_char sep s = true ->
  exists x y rest, Py.split_from sep acc s = x :: y :: rest.
Proof.
  revert acc. induction s as [|c s IH]; simpl; intros acc H; [discriminate | ].
  destruct (Ascii.eqb c sep).
  - destruct (split_from_nonempty sep s "") as (y & rest & ->). eauto.
  - apply IH. exact H.
Qed.

Lemma all_hex_no_dot (s : string) :
  all_hex s = true -> Py.contains_char "." s = false.
Proof.
  induction s as [|c s IH]; simpl; intros H; [reflexivity | ].
  apply andb_prop in H. destruct H as [Hc Hs]. rewrite (IH Hs), orb_false_r.
  destruct (Ascii.eqb_spec c "."); [subst c; discriminate Hc | reflexivity].
Qed.

Lemma ObjectId_no_dot (oid : ObjectId) :
  ObjectId_of_str oid = Ok oid -> Py.contains_char "." oid = false.
Proof.
  unfold ObjectId_of_str. intros H. apply all_hex_no_dot.
  destruct (Nat.eqb (String.length oid) 24); [ | discriminate H].
  destruct (all_hex oid); [reflexivity | discriminate H].
Qed.

(** The state string of a session id without dots names that session. *)
Lemma from_str_session_id (sid rest : string) :
  Py.contains_char "." sid = false ->
  exists t, Auth.from_str (sid ++ "." ++ rest)
            = Ok {| Auth.session_id := sid; Auth.tok := t |}.
Proof.
  intros H. unfold Auth.from_str, Py.split.
  change (sid ++ "." ++ rest)%string with (sid ++ String "." rest)%string.
  rewrite split_from_prefix by exact H.
  destruct (split_from_nonempty "." rest "") as (y & l & ->). simpl. eauto.
Qed.

(** X16.  [to_str] and [from_str] are a round trip on the states whose
    session id and token hold no dot: reading back the string of such a
    state gives the state. *)
Theorem state_string_round_trip (session_id : string) (token : option string)
    (generated t : string) :
  let state := StateToken.new_OAuth2State session_id token generated in
  Py.contains_char "." session_id = false ->
  Auth.tok state = Some t -> Py.contains_char "." t = false ->
  Py.truthy_str t = true ->
  Auth.from_str (StateToken.to_str state generated) = Ok state.
Proof.
  intros state Hsid Htok Ht Htruthy. unfold StateToken.to_str.
  destruct state as [sid' tok'] eqn:E.
  assert (sid' = session_id) by (unfold state in E; now injection E).
  subst sid'. simpl in Htok |- *. subst tok'.
  unfold Auth.from_str, Py.split.
  change (session_id ++ "." ++ t)%string
    with (session_id ++ String "." t)%string.
  rewrite split_from_prefix by exact Hsid.
  rewrite split_from_no_separator by exact Ht. simpl. now rewrite Htruthy.
Qed.

(** The state of a session with a generated token. *)
Lemma state_string_round_trip_witness :
  let state :=
    StateToken.new_OAuth2State "5f0000000000000000000001" None "Zm9vYmFy" in
  Auth.from_str (StateToken.to_str state "Zm9vYmFy") = Ok state.
Proof.
  intros state.
  apply (state_string_round_trip "5f0000000000000000000001" None "Zm9vYmFy"
           "Zm9vYmFy"); reflexivity.
Defined.

(** X17.  [from_str] raises [IndexError] exactly on the strings without a
    dot; on any other string it returns a state. *)
Theorem from_str_raises_without_dot (v : string) :
  (Py.contains_char "." v = false -> Auth.from_str v = Raise IndexError)
  /\ (Py.contains_char "." v = true -> exists state, Auth.from_str v = Ok state).
Proof.
  unfold Auth.from_str, Py.split. split; intros H.
  - now rewrite split_from_no_separator by exact H.
  - destruct (split_from_separator "." v "" H) as (x & y & rest & ->). eauto.
Qed.

(** A state without a dot. *)
Lemma from_str_raises_without_dot_witness :
  Auth.from_str "5f0000000000000000000001" = Raise IndexError.
Proof.
  apply (proj1 (from_str_raises_without_dot "5f0000000000000000000001")).
  reflexivity.
Defined.

End StateString.

(** ** From the install webhook to the callback *)

Section InstallFlow.

Import Database Installations Decorators Scenario.

Lemma dict_get_filter_key (p : string -> bool) (k : string)
    (l : list (string * string)) :
  p k = true -> dict_get k (filter (fun kv => p (fst kv)) l) = dict_get k l.
Proof.
  intros Hk. induction l as [|[k0 v0] l IH]; simpl; [reflexivity | ].
  destruct (String.eqb_spec k k0) as [-> | Hne].
  - rewrite Hk. simpl. now rewrite String.eqb_refl.
  - destruct (p k0); simpl; [ | exact IH].
    destruct (String.eqb_spec k k0); [contradiction | exact IH].
Qed.

(** The parameters the install webhook records. *)
Lemma install_data_get (k : string) (r : request) :
  Lifecycle.contains "oauth_" k = false ->
  Lifecycle.contains "callback_url" k = false ->
  dict_get k (Lifecycle.install_data r) = args_get k r.
Proof.
  intros H1 H2. unfold Lifecycle.install_data, args_get.
  rewrite (dict_get_filter_key
             (fun k => negb (Lifecycle.contains "oauth_" k)
                       && negb (Lifecycle.contains "callback_url" k))).
  - apply dict_get_to_dict.
  - now rewrite H1, H2.
Qed.

Lemma install_data_NoDup (r : request) :
  NoDup (map fst (Lifecycle.install_data r)).
Proof. apply filter_keys_NoDup, to_dict_NoDup. Qed.

Lemma get_installation_sessions (app_id install_id : string)
    (l : list session_doc) (d : db) :
  get_installation app_id install_id (with_sessions l d)
  = get_installation app_id install_id d.
Proof. reflexivity. Qed.

(** What the callback writes for an installation that is recorded. *)
Lemma token_and_base_url_stored (app_id install_id base : string) (tok : token)
    (d : db) :
  get_installation app_id install_id d <> None ->
  let d3 := snd (update_installation app_id install_id [("base_url", base)] None
                   (set_token app_id install_id (Some tok) d)) in
  get_token app_id install_id d3 = Some tok
  /\ get_base_url_for app_id install_id d3 = Some base.
Proof.
  intros Hfound d3. subst d3.
  unfold get_token, get_base_url_for, get_installation, update_installation,
    set_token in *.
  cbn [installations with_installations].
  set (set_tok := fun i : installation =>
         {| i_fields := i_fields i; i_config := i_config i;
            i_oauth_token := Some tok |}).
  set (set_base := fun i : installation =>
         {| i_fields := dict_update (i_fields i) [("base_url", base)];
            i_config := i_config i; i_oauth_token := i_oauth_token i |}).
  set (p := installation_matches app_id install_id) in *.
  assert (H1 : find p (snd (update_first p set_tok (installations d)))
               = option_map set_tok (find p (installations d))).
  { apply find_update_first. reflexivity. }
  assert (H2 : forall l, find p (snd (update_first p set_base l))
                         = option_map set_base (find p l)).
  { intros l. apply find_update_first. intros x.
    unfold p, installation_matches, set_base. cbn [i_fields].
    unfold dict_update. cbn [fold_left fst snd].
    now rewrite !dict_get_dict_set_other by discriminate. }
  destruct (find p (installations d)) as [i|] eqn:Ei; [ | contradiction].
  specialize (H2 (snd (update_first p set_tok (installations d)))).
  rewrite H1 in H2. simpl in H2.
  destruct (update_first p set_base
              (snd (update_first p set_tok (installations d))))
    as [matched l] eqn:E.
  simpl in H2.
  assert (Hm : matched = true).
  { destruct matched; [reflexivity | ].
    pose proof (update_first_unmatched p set_base _ (f_equal fst E)) as Hnone.
    rewrite H1 in Hnone. discriminate Hnone. }
  subst matched. cbn [snd installations with_installations]. rewrite H2.
  split; [reflexivity | ].
  unfold set_base, dict_update. cbn [i_fields fold_left fst snd].
  apply dict_get_dict_set_same.
Qed.

(** X18.  The install webhook and the callback compose.  For an install
    request with [install_id], [callback_url] and the app id the app is
    configured with, whose recorded parameters are field names, the view
    records the installation and a session stamped to expire 300 seconds
    later, and redirects to the authorization URL of the state made of the
    session id and the generated token.  A callback with that state, at
    whatever time, the stamp being read nowhere, stores the token and the
    base URL of that installation and redirects to [callback_url]. *)
Theorem install_then_callback (friendly_name : string)
    (authorization_url : string -> string) (generated_token : string)
    (fetch_token : request -> result token)
    (fetch_base_url : token -> result string) (cfg : config) (t0 t1 : Z)
    (new_id : ObjectId) (r_install r_callback : request) (d : db)
    (fs : Session.flask_session) (install_id callback_url base : string)
    (tok : token) :
  field_names (Lifecycle.install_data r_install) ->
  args_get "install_id" r_install = Some install_id ->
  args_get "callback_url" r_install = Some callback_url ->
  args_get "app_id" r_install = Some (CLOUD_APP_CLIENT_ID cfg) ->
  ObjectId_of_str new_id = Ok new_id ->
  existsb (has_id new_id) (sessions d) = false ->
  args_get "state" r_callback = Some (new_id ++ "." ++ generated_token) ->
  fetch_token r_callback = Ok tok -> fetch_base_url tok = Ok base ->
  let installed :=
    Lifecycle.install_body friendly_name authorization_url generated_token t0
      new_id r_install (d, fs) in
  let answer :=
    OAuth.dispatch_request fetch_token fetch_base_url OAuth.default_before_redirect
      cfg t1 r_callback (fst (snd installed)) in
  fst installed
  = Ok (Redirect (authorization_url (new_id ++ "." ++ generated_token)))
  /\ find (has_id new_id) (sessions (fst (snd installed)))
     = Some {| s_id := new_id; s_expires_in := 300; s_expires_at := t0 + 300;
               s_data := [("install_id", install_id);
                          ("redirect_url", callback_url)];
               s_is_authed := None |}
  /\ fst answer = Ok (Redirect callback_url)
  /\ get_token (CLOUD_APP_CLIENT_ID cfg) install_id (snd answer) = Some tok
  /\ get_base_url_for (CLOUD_APP_CLIENT_ID cfg) install_id (snd answer)
     = Some base.
Proof.
  intros _ Hiid Hcb Haid Hoid Hfresh Hstate Htok Hbase installed answer.
  set (data := dict_update [("_name", friendly_name)]
                 (Lifecycle.install_data r_install)).
  set (doc := {| s_id := new_id; s_expires_in := 300;
                 s_expires_at := t0 + 300;
                 s_data := [("install_id", install_id);
                            ("redirect_url", callback_url)];
                 s_is_authed := None |}).
  set (d1 := with_sessions (sessions d ++ [doc]) d).
  assert (Hnd : NoDup (map fst data)).
  { unfold data. apply dict_update_keys_NoDup. simpl.
    repeat constructor. tauto. }
  assert (Hget : forall k, Lifecycle.contains "oauth_" k = false ->
                           Lifecycle.contains "callback_url" k = false ->
                           forall v, args_get k r_install = Some v ->
                                     dict_get k data = Some v).
  { intros k H1 H2 v Hv. unfold data.
    rewrite dict_get_dict_update by apply install_data_NoDup.
    now rewrite install_data_get, Hv by assumption. }
  assert (Hdiid : dict_get "install_id" data = Some install_id)
    by (now apply Hget).
  assert (Hdaid : dict_get "app_id" data = Some (CLOUD_APP_CLIENT_ID cfg))
    by (now apply Hget).
  destruct (upserted_installation_helper data None d1 install_id
              (CLOUD_APP_CLIENT_ID cfg) Hnd Hdiid Hdaid) as (Hok & Hfound).
  assert (Hinst : installed
                  = (Ok (Redirect (authorization_url
                                     (new_id ++ "." ++ generated_token))),
                     (snd (upsert_installation data None d1), fs))).
  { unfold installed, Lifecycle.install_body. rewrite Hiid, Hcb.
    rewrite (insert_session_fresh _ 300 None t0 new_id d Hfresh).
    fold doc. fold d1. fold data.
    destruct (upsert_installation data None d1) as [res d2].
    simpl in Hok. subst res. reflexivity. }
  assert (Hsess : sessions (snd (upsert_installation data None d1))
                  = (sessions d ++ [doc])%list).
  { unfold upsert_installation. rewrite Hdiid.
    destruct (update_first _ _ (installations d1)) as [[] l]; reflexivity. }
  set (d2 := snd (upsert_installation data None d1)) in *.
  assert (Hfrom : exists t, Auth.from_str (new_id ++ "." ++ generated_token)
                            = Ok {| Auth.session_id := new_id; Auth.tok := t |}).
  { apply from_str_session_id, ObjectId_no_dot, Hoid. }
  destruct Hfrom as [t Hfrom].
  assert (Hfind : find (has_id new_id) (sessions d2) = Some doc).
  { rewrite Hsess. apply find_app_fresh; [ | apply String.eqb_refl].
    apply existsb_find_none, Hfresh. }
  split; [now rewrite Hinst | ].
  split; [rewrite Hinst; exact Hfind | ].
  assert (Hans : exists dsess,
             answer
             = (Ok (Redirect callback_url),
                snd (update_installation (CLOUD_APP_CLIENT_ID cfg) install_id
                       [("base_url", base)] None
                       (set_token (CLOUD_APP_CLIENT_ID cfg) install_id
                          (Some tok) dsess)))
             /\ installations dsess = installations d2).
  { eexists. unfold answer. rewrite Hinst. cbn [fst snd].
    unfold OAuth.dispatch_request. rewrite Hstate, Hfrom.
    cbn [Auth.session_id]. unfold Database.get_session.
    rewrite Hoid, Hfind.
    change (dict_get "redirect_url" (s_data doc)) with (Some callback_url).
    change (dict_get "install_id" (s_data doc)) with (Some install_id).
    cbv iota beta. rewrite Htok.
    unfold Auth.set, Auth.__call__, Auth.new_TokenManager.
    cbn [Auth._app_id Auth._install_id]. rewrite Hbase.
    unfold OAuth.default_before_redirect.
    match goal with
    | |- context [update_installation ?a ?i ?b ?c ?dd] =>
        destruct (update_installation a i b c dd) as [m d3] eqn:E
    end.
    split;
      [f_equal; change d3 with (snd (m, d3)); rewrite <- E; reflexivity
      | reflexivity]. }
  destruct Hans as (dsess & -> & Hsame). cbn [fst snd].
  split; [reflexivity | ].
  apply token_and_base_url_stored. unfold get_installation.
  rewrite Hsame. exact Hfound.
Qed.

(** An installation of the app [app], and the callback an hour later. *)
Lemma install_then_callback_witness :
  let cfg := scenario_config "app" in
  let r_install :=
    {| method := "POST"; base_url := "https://test.example/install";
       args := [("install_id", "install"); ("callback_url", "https://cb");
                ("app_id", "app"); ("site_id", "7")] |} in
  let r_callback :=
    {| method := "GET"; base_url := "https://test.example/callback";
       args := [("state", "5f0000000000000000000001.Zm9vYmFy")] |} in
  let fetch_token := fun _ : request => Ok [("access_token", "secret")] in
  let fetch_base_url := fun _ : token => Ok "https://base" in
  let installed :=
    Lifecycle.install_body "App" (fun s => "https://login?state=" ++ s)
      "Zm9vYmFy" 0 "5f0000000000000000000001" r_install
      (empty_db, Session.cleared) in
  let answer :=
    OAuth.dispatch_request fetch_token fetch_base_url
      OAuth.default_before_redirect cfg 3600 r_callback
      (fst (snd installed)) in
  fst answer = Ok (Redirect "https://cb")
  /\ get_token "app" "install" (snd answer) = Some [("access_token", "secret")]
  /\ get_base_url_for "app" "install" (snd answer) = Some "https://base".
Proof.
  intros cfg r_install r_callback fetch_token fetch_base_url installed answer.
  refine (proj2 (proj2 (install_then_callback "App"
                          (fun s => "https://login?state=" ++ s) "Zm9vYmFy"
                          fetch_token fetch_base_url cfg 0 3600
                          "5f0000000000000000000001" r_install r_callback
                          empty_db Session.cleared "install" "https://cb"
                          "https://base" [("access_token", "secret")]
                          _ eq_refl eq_refl eq_refl eq_refl eq_refl eq_refl
                          eq_refl eq_refl))).
  intros k Hk. simpl in Hk.
  repeat (destruct Hk as [<- | Hk]; [reflexivity | ]). destruct Hk.
Defined.

End InstallFlow.

(** ** Uninstalling, and the install ids of the store *)

Section Uninstall.

Import Database Installations Decorators Scenario.

Lemma dict_get_dict_update_other {V : Type} (k : string) (upd l : dict V) :
  dict_get k upd = None -> dict_get k (dict_update l upd) = dict_get k l.
Proof.
  unfold dict_update. revert l.
  induction upd as [|[k0 v0] upd IH]; simpl; intros l H; [reflexivity | ].
  destruct (String.eqb_spec k k0) as [-> | Hk]; [discriminate H | ].
  rewrite IH by exact H. now apply dict_get_dict_set_other.
Qed.

Lemma update_first_keys {A B : Type} (key : A -> B) (p : A -> bool)
    (f : A -> A) (l : list A) :
  (forall x, p x = true -> key (f x) = key x) ->
  map key (snd (update_first p f l)) = map key l.
Proof.
  intros Hf. induction l as [|x l IH]; simpl; [reflexivity | ].
  destruct (p x) eqn:E; simpl; [now rewrite Hf | ].
  destruct (update_first p f l) as [m l']. simpl in *. now rewrite IH.
Qed.

Lemma find_none_forall {A : Type} (p : A -> bool) (l : list A) :
  find p l = None <-> forall x, In x l -> p x = false.
Proof.
  split.
  - intros H x Hx. now apply (find_none p l H).
  - induction l as [|x l IH]; simpl; intros H; [reflexivity | ].
    rewrite (H x) by now left. apply IH. intros y Hy. apply H. now right.
Qed.

Lemma matches_install_id (app_id install_id : string) (i : installation) :
  installation_matches app_id install_id i = true ->
  install_id_of i = Some install_id.
Proof.
  unfold installation_matches, install_id_of.
  destruct (dict_get "install_id" (i_fields i)) as [iid|]; [ | discriminate].
  destruct (dict_get "app_id" (i_fields i)); [ | discriminate].
  intros H. apply andb_prop in H. destruct H as [H _].
  apply String.eqb_eq in H. now subst.
Qed.

(** Once deleted, an installation of a store without repeated install ids
    is not found. *)
Lemma find_uninstalled (app_id install_id : string) (l : list installation) :
  NoDup (map install_id_of l) ->
  find (installation_matches app_id install_id)
    (snd (delete_first (installation_matches app_id install_id) l)) = None.
Proof.
  induction l as [|x l IH]; simpl; intros H; [reflexivity | ].
  inversion H as [|? ? Hx Hl]; subst.
  destruct (installation_matches app_id install_id x) eqn:E; simpl.
  - apply find_none_forall. intros y Hy.
    destruct (installation_matches app_id install_id y) eqn:Ey;
      [ | reflexivity].
    exfalso. apply Hx. apply matches_install_id in E, Ey.
    rewrite E, <- Ey. now apply in_map.
  - destruct (delete_first _ l) as [m l'] eqn:E'. simpl in *.
    rewrite E. now apply IH.
Qed.

(** Deleting leaves the documents the filter excludes where they are. *)
Lemma find_delete_first_other {A : Type} (p q : A -> bool) (l : list A) :
  (forall x, p x = true -> q x = false) ->
  find q (snd (delete_first p l)) = find q l.
Proof.
  intros Hpq. induction l as [|x l IH]; simpl; [reflexivity | ].
  destruct (p x) eqn:E; simpl.
  - now rewrite (Hpq x E).
  - destruct (delete_first p l) as [m l']. simpl in *. now rewrite IH.
Qed.

Lemma delete_first_found {A : Type} (p : A -> bool) (l : list A) :
  fst (delete_first p l) = match find p l with
                           | Some _ => true
                           | None => false
                           end.
Proof.
  induction l as [|x l IH]; simpl; [reflexivity | ].
  destruct (p x); simpl; [reflexivity | ].
  destruct (delete_first p l) as [m l']. simpl in *. exact IH.
Qed.

(** X19.  The uninstall view, on a store without repeated install ids.
    When the installation named by [app_id] and [install_id] is recorded
    the view answers 204 and the installation, with its token, is not
    found any more, while the installations of the other install ids are
    found as before.  When it is not recorded, the view aborts with 400
    and leaves the store as it was, so that a second uninstall of the same
    installation is answered 400. *)
Theorem uninstall_removes_installation (r : request) (d : db)
    (fs : Session.flask_session) (app_id install_id : string) :
  installed_once d ->
  args_get "app_id" r = Some app_id ->
  args_get "install_id" r = Some install_id ->
  let answer := Lifecycle.uninstall_body r (d, fs) in
  let d' := fst (snd answer) in
  (get_installation app_id install_id d <> None ->
     fst answer = Ok (Response "Uninstalled" 204)
     /\ get_installation app_id install_id d' = None
     /\ get_token app_id install_id d' = None
     /\ (forall other_app other_id, other_id <> install_id ->
           get_installation other_app other_id d'
           = get_installation other_app other_id d)
     /\ fst (Lifecycle.uninstall_body r (snd answer)) = Raise (HTTPException 400))
  /\ (get_installation app_id install_id d = None ->
      answer = (Raise (HTTPException 400), (d, fs))).
Proof.
  intros Hd Haid Hiid answer d'. subst d' answer.
  unfold Lifecycle.uninstall_body, delete_installation, get_token,
    get_installation.
  rewrite Haid, Hiid.
  pose proof (delete_first_found (installation_matches app_id install_id)
                (installations d)) as Hfst.
  pose proof (find_uninstalled app_id install_id (installations d) Hd) as Hgone.
  destruct (delete_first (installation_matches app_id install_id)
              (installations d)) as [deleted l] eqn:E.
  simpl in Hfst, Hgone. split.
  - intros Hfound.
    destruct (find (installation_matches app_id install_id) (installations d));
      [ | contradiction].
    subst deleted. cbn [negb fst snd installations with_installations].
    rewrite Hgone.
    split; [reflexivity | ]. split; [reflexivity | ]. split; [reflexivity | ].
    split.
    + intros other_app other_id Hother.
      change l with (snd (true, l)). rewrite <- E.
      apply find_delete_first_other. intros x Hx.
      apply matches_install_id in Hx.
      unfold installation_matches. unfold install_id_of in Hx. rewrite Hx.
      destruct (String.eqb_spec install_id other_id) as [Heq | Hne];
        [now elim Hother | ].
      now destruct (dict_get "app_id" (i_fields x)).
    + pose proof (delete_first_found (installation_matches app_id install_id) l)
        as Hfst'.
      rewrite Hgone in Hfst'.
      destruct (delete_first (installation_matches app_id install_id) l)
        as [deleted' l'].
      simpl in Hfst'. now subst deleted'.
  - intros Hnone. rewrite Hnone in Hfst. now subst deleted.
Qed.

(** Uninstalling the installation that the install webhook recorded. *)
Lemma uninstall_removes_installation_witness :
  let d := {| installations :=
                [{| i_fields := [("install_id", "install"); ("app_id", "app")];
                    i_config := None;
                    i_oauth_token := Some [("access_token", "secret")] |}];
              sessions := []; cache := [] |} in
  let r := {| method := "POST"; base_url := "https://test.example/uninstall";
              args := [("app_id", "app"); ("install_id", "install")] |} in
  let answer := Lifecycle.uninstall_body r (d, Session.cleared) in
  fst answer = Ok (Response "Uninstalled" 204)
  /\ get_token "app" "install" (fst (snd answer)) = None.
Proof.
  intros d r answer.
  assert (Hd : installed_once d).
  { unfold installed_once. simpl. repeat constructor. simpl. tauto. }
  destruct (proj1 (uninstall_removes_installation r d Session.cleared "app"
                     "install" Hd eq_refl eq_refl))
    as (H1 & _ & H3 & _); [discriminate | ].
  split; [exact H1 | exact H3].
Defined.

(** X20.  The operations on installations keep the install ids of the
    store distinct: [upsert_installation], which updates the installation
    of an install id that is recorded instead of inserting a second one,
    [update_installation] with data that hold no [install_id],
    [set_token] and [delete_installation]. *)
Theorem install_ids_stay_distinct (d : db) :
  installed_once d ->
  (forall data config, NoDup (map fst data) ->
      installed_once (snd (upsert_installation data config d)))
  /\ (forall app_id install_id data config,
        dict_get "install_id" data = None ->
        installed_once (snd (update_installation app_id install_id data config d)))
  /\ (forall app_id install_id tok,
        installed_once (set_token app_id install_id tok d))
  /\ (forall app_id install_id,
        installed_once (snd (delete_installation app_id install_id d))).
Proof.
  intros Hd. unfold installed_once in *. repeat split.
  - intros data config Hnd. unfold upsert_installation.
    destruct (dict_get "install_id" data) as [iid|] eqn:Eiid; [ | exact Hd].
    assert (Hkey : forall x, install_id_of (set_fields data config x) = Some iid).
    { intros x. unfold install_id_of. now apply set_fields_get. }
    pose proof (update_first_keys install_id_of (has_install_id iid)
                  (set_fields data config) (installations d)) as Hkeys.
    pose proof (update_first_unmatched (has_install_id iid)
                  (set_fields data config) (installations d)) as Hun.
    destruct (update_first (has_install_id iid) (set_fields data config)
                (installations d)) as [matched l].
    simpl in Hkeys, Hun. destruct matched; simpl.
    + rewrite Hkeys; [exact Hd | ].
      intros x Hx. rewrite Hkey. unfold has_install_id in Hx.
      unfold install_id_of.
      destruct (dict_get "install_id" (i_fields x)); [ | discriminate].
      apply String.eqb_eq in Hx. now subst.
    + rewrite map_app. simpl. rewrite Hkey.
      apply NoDup_app; [exact Hd | repeat constructor; tauto | ].
      intros k Hk [<- | []].
      apply in_map_iff in Hk. destruct Hk as (x & Hx & Hin).
      specialize (Hun eq_refl).
      pose proof (proj1 (find_none_forall _ _) Hun x Hin) as Hp.
      unfold has_install_id in Hp. unfold install_id_of in Hx.
      rewrite Hx, String.eqb_refl in Hp. discriminate Hp.
  - intros app_id install_id data config Hdata. unfold update_installation.
    match goal with
    | |- context [update_first ?p ?f ?l] =>
        pose proof (update_first_keys install_id_of p f l) as Hkeys;
        destruct (update_first p f l) as [matched l']
    end.
    simpl in Hkeys. destruct matched; simpl; [ | exact Hd].
    rewrite Hkeys; [exact Hd | ].
    intros x _. unfold install_id_of. simpl.
    now apply dict_get_dict_update_other.
  - intros app_id install_id tok. unfold set_token. simpl.
    now rewrite update_first_keys.
  - intros app_id install_id. unfold delete_installation.
    pose proof (delete_first_NoDup install_id_of
                  (installation_matches app_id install_id) (installations d) Hd)
      as Hdel.
    destruct (delete_first _ (installations d)) as [deleted l].
    simpl in Hdel. destruct deleted; simpl; [exact Hdel | exact Hd].
Qed.

(** The store after an installation on the empty store. *)
Lemma install_ids_stay_distinct_witness :
  installed_once
    (snd (upsert_installation [("install_id", "install"); ("app_id", "app")]
            None empty_db)).
Proof.
  apply (proj1 (install_ids_stay_distinct empty_db (NoDup_nil _))).
  simpl. repeat constructor; simpl; intuition discriminate.
Defined.

End Uninstall.

(** ** The install view: the signature first, then the arguments *)

Section InstallView.

Import Database Decorators Scenario.

(** X21.  The install view checks the signature before the arguments.  A
    request that the validator does not accept is answered by the
    validator, 401 or its error, whatever arguments are missing, and the
    state is left as it was.  A request with a valid signature that lacks
    one of [install_id], [callback_url], [app_id] and [site_id] is
    answered 400 with a message for each missing argument, in the order
    of that list; its entry is written to the replay cache, and neither an
    installation nor a session is recorded. *)
Theorem install_view_checks_signature_first (friendly_name : string)
    (authorization_url : string -> string) (generated_token : string)
    (jsonify : list string -> string) (cfg : config) (now : Z)
    (new_id : ObjectId) (r : request) (d : db) (fs : Session.flask_session) :
  let answer :=
    Lifecycle.lifecycle_install friendly_name authorization_url generated_token
      jsonify cfg now new_id r (d, fs) in
  let missing :=
    Guards.missing_keys ["install_id"; "callback_url"; "app_id"; "site_id"] r in
  (forall outcome, _oauth_is_signature_valid cfg now r d = outcome ->
     outcome <> Ok true ->
     answer = (match outcome with
               | Raise e => Raise e
               | Ok _ => Raise (HTTPException 401)
               end, (d, fs)))
  /\ (_oauth_is_signature_valid cfg now r d = Ok true -> missing <> [] ->
      answer = (Ok (Response (jsonify (map Guards.missing_message missing)) 400),
                (with_cache (cache d ++ [replay_entry now r]) d, fs))).
Proof.
  intros answer missing. subst answer. unfold Lifecycle.lifecycle_install.
  rewrite validate_outcome. cbn [fst snd]. split.
  - intros outcome Hout Hne. rewrite Hout.
    destruct outcome as [[]|e]; [now elim Hne | reflexivity | reflexivity].
  - intros Hval Hmissing. rewrite Hval. unfold check_signature. rewrite Hval.
    cbn [snd]. unfold Guards.required_args. fold missing.
    destruct missing as [|k l]; [now elim Hmissing | reflexivity].
Qed.

(** An install request with a valid signature and no [site_id]. *)
Lemma install_view_checks_signature_first_witness :
  let cfg := scenario_config "app" in
  let unsigned :=
    {| method := "POST"; base_url := "https://test.example/install";
       args := [("install_id", "install"); ("callback_url", "https://cb");
                ("app_id", "app"); ("oauth_consumer_key", "app");
                ("oauth_nonce", "n1"); ("oauth_timestamp", "1000")] |} in
  let r := sign (generate_signature cfg unsigned) unsigned in
  Lifecycle.lifecycle_install "App" (fun s => "https://login?state=" ++ s)
    "Zm9vYmFy" (Py.join ",") cfg 1000 "5f0000000000000000000001" r
    (empty_db, Session.cleared)
  = (Ok (Response "Missing argument 'site_id'" 400),
     (with_cache [replay_entry 1000 r] empty_db, Session.cleared)).
Proof.
  intros cfg unsigned r.
  apply (proj2 (install_view_checks_signature_first "App"
                  (fun s => "https://login?state=" ++ s) "Zm9vYmFy"
                  (Py.join ",") cfg 1000 "5f0000000000000000000001" r empty_db
                  Session.cleared)).
  - apply check_accept_valid, own_signature_accepted. reflexivity.
  - discriminate.
Defined.

End InstallView.

(** ** Flattening a nested dictionary *)

Section Flattening.

Import Flatten.

(** Induction on a value, with the property at hand for the values of a
    dictionary. *)
Lemma pyval_nested_ind (P : pyval -> Prop) :
  P VNone -> (forall s, P (VStr s)) ->
  (forall items, Forall (fun kv => P (snd kv)) items -> P (VDict items)) ->
  forall v, P v.
Proof.
  intros HN HS HD. fix IH 1. intros [| s | items]; [exact HN | apply HS | ].
  apply HD. induction items as [|[k x] l IHl]; constructor;
    [apply IH | exact IHl].
Qed.

Lemma flatten_item_dict (separator : string) (parents : list string)
    (k : string) (p : string * pyval) (l : list (string * pyval))
    (out : dict pyval) :
  flatten_item separator parents k (VDict (p :: l)) out
  = _flatten separator (p :: l) (parents ++ [k]) out.
Proof.
  destruct p as [k' v']. cbn [flatten_item _flatten].
  generalize (flatten_item separator (parents ++ [k]) k' v' out).
  induction l as [|[k1 v1] rest IH]; intros o; [reflexivity | ].
  cbn [_flatten]. apply IH.
Qed.

Lemma flatten_item_leaf (separator : string) (parents : list string)
    (k : string) (v : pyval) (out : dict pyval) :
  is_leaf v = true ->
  flatten_item separator parents k v out
  = dict_set (Py.join separator (parents ++ [k])) v out.
Proof. destruct v as [| s | [|p l]]; [reflexivity .. | discriminate]. Qed.

Lemma dict_set_leaves (k : string) (v : pyval) (out : dict pyval) :
  is_leaf v = true -> all_leaves out -> all_leaves (dict_set k v out).
Proof.
  intros Hv. induction out as [|[k0 v0] out IH]; simpl; intros H.
  - now repeat constructor.
  - inversion H as [|? ? H0 Hout]; subst.
    destruct (String.eqb k k0); constructor;
      [exact Hv | exact Hout | exact H0 | now apply IH].
Qed.

Lemma dict_set_flat (k : string) (v : pyval) (out : dict pyval) :
  is_leaf v = true -> flat out -> flat (dict_set k v out).
Proof.
  intros Hv [H1 H2]. split;
    [now apply dict_set_keys_NoDup | now apply dict_set_leaves].
Qed.

Lemma _flatten_step (separator : string) (items : list (string * pyval)) :
  Forall (fun kv => forall parents k out,
            flat out -> flat (flatten_item separator parents k (snd kv) out))
         items ->
  forall parents out, flat out -> flat (_flatten separator items parents out).
Proof.
  induction 1 as [|[k v] rest Hv _ IH]; intros parents out Hout;
    [exact Hout | ].
  cbn [_flatten]. apply IH. now apply Hv.
Qed.

Lemma flatten_item_flat (separator : string) (v : pyval) :
  forall parents k out,
    flat out -> flat (flatten_item separator parents k v out).
Proof.
  induction v as [| s | items IH] using pyval_nested_ind;
    intros parents k out Hout.
  - now apply dict_set_flat.
  - now apply dict_set_flat.
  - destruct items as [|p l]; [now apply dict_set_flat | ].
    rewrite flatten_item_dict. now apply _flatten_step.
Qed.

Lemma _flatten_flat (separator : string) (items : list (string * pyval))
    (parents : list string) (out : dict pyval) :
  flat out -> flat (_flatten separator items parents out).
Proof.
  apply _flatten_step. apply Forall_forall. intros kv _ ps k o.
  apply flatten_item_flat.
Qed.

(** Flattening a dictionary whose values are leaves assigns each item. *)
Lemma _flatten_of_leaves (separator : string) (items : list (string * pyval))
    (parents : list string) (out : dict pyval) :
  all_leaves items ->
  _flatten separator items parents out
  = fold_left (fun out kv =>
                 dict_set (Py.join separator (parents ++ [fst kv])) (snd kv) out)
              items out.
Proof.
  intros H. revert out. induction H as [|[k v] rest Hv _ IH]; intros out;
    [reflexivity | ].
  cbn [_flatten fold_left fst snd]. rewrite IH.
  now rewrite flatten_item_leaf by exact Hv.
Qed.

Lemma dict_set_fresh {V : Type} (k : string) (v : V) (l : dict V) :
  ~ In k (map fst l) -> dict_set k v l = (l ++ [(k, v)])%list.
Proof.
  induction l as [|[k0 v0] l IH]; simpl; intros H; [reflexivity | ].
  destruct (String.eqb_spec k k0); [exfalso; apply H; now left | ].
  rewrite IH; [reflexivity | tauto].
Qed.

Lemma assign_distinct_keys {V : Type} (l acc : dict V) :
  NoDup (map fst (acc ++ l)) ->
  fold_left (fun out kv => dict_set (fst kv) (snd kv) out) l acc
  = (acc ++ l)%list.
Proof.
  revert acc. induction l as [|[k v] l IH]; intros acc H; simpl.
  - now rewrite app_nil_r.
  - rewrite dict_set_fresh.
    + rewrite IH; rewrite <- app_assoc; [reflexivity | exact H].
    + rewrite map_app in H. apply NoDup_remove_2 in H.
      intros Hin. apply H. apply in_or_app. now left.
Qed.

(** X22.  The result of [_flatten_dict] is flat: its keys are distinct,
    none of its values is a non-empty dictionary, and flattening it again,
    with any separator, gives it back. *)
Theorem flatten_dict_is_flat (d : list (string * pyval)) (separator : string) :
  let out := _flatten_dict d separator in
  NoDup (map fst out)
  /\ (forall k v, In (k, v) out -> is_leaf v = true)
  /\ forall separator', _flatten_dict out separator' = out.
Proof.
  intros out.
  assert (H : flat out).
  { apply _flatten_flat. split; constructor. }
  destruct H as [Hnd Hleaves]. split; [exact Hnd | ]. split.
  - intros k v Hin. unfold all_leaves in Hleaves.
    rewrite Forall_forall in Hleaves. exact (Hleaves (k, v) Hin).
  - intros separator'. unfold _flatten_dict at 1.
    rewrite _flatten_of_leaves by exact Hleaves.
    now apply (assign_distinct_keys out []).
Qed.

(** X23.  For a non-empty dictionary [data] whose values are leaves,
    flattening [{prefix: data}] with the separator ["."] gives the update
    that [_create_partial_embedded_update] builds for [prefix] and
    [data]. *)
Theorem flatten_one_level (prefix : string) (data : list (string * pyval)) :
  data <> [] -> all_leaves data ->
  _flatten_dict [(prefix, VDict data)] "."
  = _create_partial_embedded_update prefix data.
Proof.
  intros Hne Hleaves. unfold _flatten_dict, _create_partial_embedded_update.
  destruct data as [|p l]; [now elim Hne | ].
  cbn [_flatten]. rewrite flatten_item_dict.
  now rewrite _flatten_of_leaves by exact Hleaves.
Qed.

(** The query for a nonce and a timestamp. *)
Lemma flatten_one_level_witness :
  _flatten_dict [("data", VDict [("oauth_nonce", VStr "n1");
                                 ("oauth_timestamp", VNone)])] "."
  = [("data.oauth_nonce", VStr "n1"); ("data.oauth_timestamp", VNone)].
Proof.
  rewrite flatten_one_level; [reflexivity | discriminate | ].
  repeat constructor.
Defined.

End Flattening.

(** ** The fields of the request classes *)

Section RequestFields.

Import Decorators.

Lemma union_incl_left (s t : list string) : incl s (Util.union s t).
Proof.
  unfold Util.union. revert s.
  induction t as [|x t IH]; intros s; simpl; [apply incl_refl | ].
  destruct (existsb (String.eqb x) s); [apply IH | ].
  eapply incl_tran; [ | apply IH]. apply incl_appl, incl_refl.
Qed.

Lemma union_incl_right (s t : list string) : incl t (Util.union s t).
Proof.
  unfold Util.union. revert s.
  induction t as [|x t IH]; intros s; simpl; [intros y [] | ].
  intros y [<- | Hy].
  - destruct (existsb (String.eqb x) s) eqn:E.
    + apply union_incl_left. apply existsb_exists in E.
      destruct E as (z & Hz & Hxz). apply String.eqb_eq in Hxz. now subst.
    + apply union_incl_left. apply in_or_app. right. now left.
  - now apply IH.
Qed.

(** The class a [Meta] that appends creates from a set of fields. *)
Lemma new_appends (meta : option Util.Meta) (s : list string) :
  appends meta ->
  exists s', Util.__new__ meta (Util.FSet s) = Ok (Util.FSet s')
             /\ incl s s'
             /\ forall m fs, meta = Some m -> Util.fields m = Some fs ->
                             incl fs s'.
Proof.
  intros Ha. unfold Util.__new__. destruct meta as [m|].
  - simpl in Ha. destruct (Util.fields m) as [fs|] eqn:Ef.
    + assert (Happ : match Util.append m with
                     | Some b => b
                     | None => true
                     end = true).
      { destruct (Util.append m) as [[]|]; [reflexivity | now elim Ha
                                           | reflexivity]. }
      rewrite Happ. exists (Util.union s fs).
      split; [reflexivity | ]. split; [apply union_incl_left | ].
      intros m' fs' Hm Hfs. injection Hm as <-. rewrite Ef in Hfs.
      injection Hfs as <-. apply union_incl_right.
    + exists s. split; [reflexivity | ]. split; [apply incl_refl | ].
      intros m' fs' Hm Hfs. injection Hm as <-. rewrite Ef in Hfs.
      discriminate Hfs.
  - exists s. split; [reflexivity | ]. split; [apply incl_refl | ].
    intros m fs Hm. discriminate Hm.
Qed.

Lemma define_classes_keep (metas : list (option Util.Meta)) :
  Forall appends metas ->
  forall s, exists cs,
    Util.define_classes metas (Util.FSet s) = Ok cs
    /\ Forall (fun c => incl s (Util.members_of c)) cs.
Proof.
  induction 1 as [|meta rest Hm _ IH]; intros s; simpl; [eauto | ].
  destruct (new_appends meta s Hm) as (s' & -> & Hs & _). simpl.
  destruct (IH s') as (cs & -> & Hcs). simpl.
  eexists. split; [reflexivity | ]. constructor; [exact Hs | ].
  eapply Forall_impl; [ | exact Hcs].
  intros c Hc. eapply incl_tran; eassumption.
Qed.

(** X24.  The fields accumulate over the classes in the order they are
    defined.  When no class sets [append] to a false value, every class
    is created, and the fields of the [Meta] of a class are fields of that
    class and of every class defined after it, whether it is a subclass of
    it or not. *)
Theorem fields_accumulate (metas : list (option Util.Meta)) (s : list string) :
  Forall appends metas ->
  exists cs,
    Util.define_classes metas (Util.FSet s) = Ok cs
    /\ forall i j m fs c,
         (i <= j)%nat -> nth_error metas i = Some (Some m) ->
         Util.fields m = Some fs -> nth_error cs j = Some c ->
         incl fs (Util.members_of c).
Proof.
  intros H. revert s. induction H as [|meta rest Hm Hrest IH]; intros s.
  - exists []. split; [reflexivity | ]. intros [|i] j m fs c _ Hi; discriminate Hi.
  - simpl. destruct (new_appends meta s Hm) as (s' & -> & Hs & Hfs). simpl.
    destruct (define_classes_keep rest Hrest s') as (cs0 & Hcs0 & Hkeep).
    destruct (IH s') as (cs & Hcs & Hlater).
    rewrite Hcs in Hcs0. injection Hcs0 as <-.
    rewrite Hcs. simpl. eexists. split; [reflexivity | ].
    intros [|i] [|j] m fs c Hij Hi Hf Hj; simpl in *.
    + injection Hi as ->. injection Hj as <-. simpl. eapply Hfs; eauto.
    + injection Hi as ->. rewrite Forall_forall in Hkeep.
      apply nth_error_In in Hj.
      eapply incl_tran; [eapply Hfs; eauto | now apply Hkeep].
    + lia.
    + eapply Hlater; [ | eassumption ..]. lia.
Qed.

(** The classes of the module: [callback_url], a field of [AppRequest], is
    a field of [ServiceRequest]. *)
Lemma fields_accumulate_witness :
  exists cs c,
    Util.define_classes
      [Util._BaseRequest_Meta; Util.AppRequest_Meta; Util.ServiceRequest_Meta]
      (Util.FSet []) = Ok cs
    /\ nth_error cs 2 = Some c /\ In "callback_url" (Util.members_of c).
Proof.
  destruct (fields_accumulate
              [Util._BaseRequest_Meta; Util.AppRequest_Meta;
               Util.ServiceRequest_Meta] [])
    as (cs & Hcs & Hfields).
  - repeat constructor; discriminate.
  - destruct (nth_error cs 2) as [c|] eqn:Ec.
    + exists cs, c. split; [exact Hcs | ]. split; [exact Ec | ].
      apply (Hfields 1%nat 2%nat _ ["callback_url"] c (le_S _ _ (le_n 1))
               eq_refl eq_refl Ec).
      now left.
    + exfalso. vm_compute in Hcs. injection Hcs as <-. discriminate Ec.
Defined.

Lemma dict_get_map_value {V W : Type} (g : V -> W) (k : string) (l : dict V) :
  dict_get k (map (fun kv => (fst kv, g (snd kv))) l)
  = option_map g (dict_get k l).
Proof.
  induction l as [|[k0 v0] l IH]; simpl; [reflexivity | ].
  now destruct (String.eqb k k0).
Qed.

Lemma dict_get_fields {V : Type} (g : string -> V) (q : V -> bool) (k : string)
    (class_fields : list string) :
  dict_get k (filter (fun kv => q (snd kv))
                (map (fun field => (field, g field)) class_fields))
  = if existsb (String.eqb k) class_fields && q (g k) then Some (g k) else None.
Proof.
  induction class_fields as [|f l IH]; simpl; [reflexivity | ].
  destruct (String.eqb_spec k f) as [-> | Hne]; simpl.
  - destruct (q (g f)) eqn:E; simpl.
    + now rewrite String.eqb_refl.
    + rewrite IH. now rewrite andb_false_r.
  - destruct (q (g f)); simpl; [ | exact IH].
    destruct (String.eqb_spec k f); [contradiction | exact IH].
Qed.

(** X25.  The dictionary of a request object.  Without the [None]s,
    [as_dict] holds exactly the fields of the class that have a value: the
    value of the additional argument of that name if there is one, else
    the first value of the query parameter of that name.  A query
    parameter that is not a field of the class is left out, and so is a
    field whose additional argument is [None], even when the request has
    the parameter. *)
Theorem as_dict_holds_fields (class_fields : list string) (r : request)
    (additional_args : dict (option string)) (k : string) :
  NoDup (map fst additional_args) ->
  let self := Util.__init__ class_fields r additional_args in
  dict_get k (Util.as_dict self false)
  = if existsb (String.eqb k) class_fields
    then match dict_get k additional_args with
         | Some (Some v) => Some (Some v)
         | Some None => None
         | None => option_map Some (args_get k r)
         end
    else None.
Proof.
  intros Hnd self. subst self. unfold Util.as_dict, Util.__init__.
  rewrite (dict_get_fields
             (fun field => match dict_get field (Util.all_args r additional_args)
                           with
                           | Some v => v
                           | None => None
                           end)
             (fun v => match v with Some _ => true | None => false end)).
  destruct (existsb (String.eqb k) class_fields); [ | reflexivity].
  unfold Util.all_args. rewrite dict_get_dict_update by exact Hnd.
  destruct (dict_get k additional_args) as [[v|]|]; [reflexivity .. | ].
  rewrite (dict_get_map_value Some), dict_get_to_dict. unfold args_get.
  now destruct (dict_get k (args r)).
Qed.

(** An additional argument [None] hides the parameter of the request. *)
Lemma as_dict_holds_fields_witness :
  let r := {| method := "GET"; base_url := "https://test.example/endpoint";
              args := [("install_id", "install"); ("x", "1")] |} in
  dict_get "install_id"
    (Util.as_dict (Util.__init__ ["install_id"; "app_id"] r
                     [("install_id", None)]) false) = None.
Proof.
  intros r.
  rewrite (as_dict_holds_fields ["install_id"; "app_id"] r
             [("install_id", None)] "install_id"); [reflexivity | ].
  simpl. repeat constructor. tauto.
Defined.

End RequestFields.

(** ** Installing again, the stored configuration and the cached token *)

Section StoredRecords.

Import Database Installations Scenario.

Lemma has_install_id_key (install_id : string) (i : installation) :
  has_install_id install_id i = true <-> install_id_of i = Some install_id.
Proof.
  unfold has_install_id, install_id_of.
  destruct (dict_get "install_id" (i_fields i)) as [iid|].
  - rewrite String.eqb_eq. split; [now intros -> | now intros [= ->]].
  - split; discriminate.
Qed.

(** In a store without repeated install ids, the installation of a pair is
    the one an update by its install id writes to. *)
Lemma find_updated_by_install_id (app_id install_id : string)
    (f : installation -> installation) (l : list installation)
    (i : installation) :
  NoDup (map install_id_of l) ->
  (forall x, installation_matches app_id install_id (f x) = true) ->
  find (installation_matches app_id install_id) l = Some i ->
  update_first (has_install_id install_id) f l
  = (true, snd (update_first (has_install_id install_id) f l))
  /\ find (installation_matches app_id install_id)
       (snd (update_first (has_install_id install_id) f l)) = Some (f i).
Proof.
  intros Hnd Hf. induction l as [|x l IH]; simpl; intros Hfind;
    [discriminate | ].
  inversion Hnd as [|? ? Hx Hl]; subst.
  destruct (installation_matches app_id install_id x) eqn:Em.
  - injection Hfind as <-.
    pose proof (matches_install_id _ _ _ Em) as Hkey.
    apply has_install_id_key in Hkey. rewrite Hkey. simpl.
    now rewrite Hf.
  - destruct (has_install_id install_id x) eqn:Eh.
    + exfalso. apply Hx. apply has_install_id_key in Eh. rewrite Eh.
      apply find_some in Hfind. destruct Hfind as [Hin Hi].
      apply matches_install_id in Hi. rewrite <- Hi. now apply in_map.
    + destruct (IH Hl Hfind) as [H1 H2].
      destruct (update_first (has_install_id install_id) f l) as [m l'].
      simpl in *. injection H1 as ->. now rewrite Em.
Qed.

(** X26.  Installing again keeps the token.  In a store without repeated
    install ids, [upsert_installation] of data of field names for an
    installation that is recorded under the same app id inserts no record
    and leaves the token as it was: [get_token] returns what it returned
    before. *)
Theorem reinstall_keeps_token (data : dict string)
    (config : option (dict string)) (d : db) (app_id install_id : string) :
  installed_once d -> field_names data -> NoDup (map fst data) ->
  dict_get "install_id" data = Some install_id ->
  dict_get "app_id" data = Some app_id ->
  get_installation app_id install_id d <> None ->
  let d' := snd (upsert_installation data config d) in
  get_token app_id install_id d' = get_token app_id install_id d
  /\ List.length (installations d') = List.length (installations d).
Proof.
  intros Hd _ Hnd Hiid Haid Hfound d'. subst d'.
  unfold get_token, get_installation, upsert_installation in *.
  rewrite Hiid.
  destruct (find (installation_matches app_id install_id) (installations d))
    as [i|] eqn:Ei; [ | contradiction].
  assert (Hmatch : forall x, installation_matches app_id install_id
                               (set_fields data config x) = true).
  { intros x. unfold installation_matches.
    rewrite (set_fields_get data config x _ _ Hnd Hiid),
      (set_fields_get data config x _ _ Hnd Haid).
    now rewrite !String.eqb_refl. }
  destruct (find_updated_by_install_id app_id install_id
              (set_fields data config) (installations d) i Hd Hmatch Ei)
    as [H1 H2].
  pose proof (update_first_keys (fun _ : installation => tt)
                (has_install_id install_id) (set_fields data config)
                (installations d) (fun _ _ => eq_refl)) as Hlen.
  apply (f_equal (@List.length unit)) in Hlen. rewrite !length_map in Hlen.
  rewrite H1. cbn [snd installations with_installations].
  now rewrite H2.
Qed.

(** The installation of the scenario, installed again. *)
Lemma reinstall_keeps_token_witness :
  let d := {| installations :=
                [{| i_fields := [("install_id", "install"); ("app_id", "app")];
                    i_config := None;
                    i_oauth_token := Some [("access_token", "secret")] |}];
              sessions := []; cache := [] |} in
  get_token "app" "install"
    (snd (upsert_installation
            [("_name", "App"); ("install_id", "install"); ("app_id", "app")]
            None d))
  = Some [("access_token", "secret")].
Proof.
  intros d.
  refine (proj1 (reinstall_keeps_token
                   [("_name", "App"); ("install_id", "install");
                    ("app_id", "app")] None d "app" "install" _ _ _
                   eq_refl eq_refl _)).
  - unfold installed_once. simpl. repeat constructor. simpl. tauto.
  - intros k Hk. simpl in Hk.
    repeat (destruct Hk as [<- | Hk]; [reflexivity | ]). destruct Hk.
  - simpl. repeat constructor; simpl; intuition discriminate.
  - discriminate.
Defined.

(** X27.  [update_installation] cannot clear the configuration of an
    installation: for data of field names other than [install_id] and
    [app_id],
    the configuration read back is the one given when it is a non-empty
    dictionary, and otherwise, for [None] and for [{}], the one that was
    stored, [{}] when there was none. *)
Theorem stored_config_is_kept (app_id install_id : string) (data : dict string)
    (config : option (dict string)) (d : db) (i : installation) :
  get_installation app_id install_id d = Some i -> field_names data ->
  dict_get "install_id" data = None -> dict_get "app_id" data = None ->
  get_installation_config app_id install_id
    (snd (update_installation app_id install_id data config d))
  = Some match config with
         | Some (kv :: l) => kv :: l
         | _ => match i_config i with
                | Some c => c
                | None => []
                end
         end.
Proof.
  intros Hi _ Hiid Haid.
  unfold get_installation_config, get_installation, update_installation in *.
  match goal with
  | |- context [update_first ?p ?f ?l] =>
      pose proof (find_update_first p f l) as Hfind;
      pose proof (update_first_unmatched p f l) as Hun;
      destruct (update_first p f l) as [matched l']
  end.
  simpl in Hfind, Hun.
  destruct matched; [ | rewrite Hun in Hi by reflexivity; discriminate Hi].
  cbn [snd installations with_installations]. rewrite Hfind, Hi.
  - simpl. now destruct config as [[|kv l]|]; destruct (i_config i).
  - intros x. unfold installation_matches. simpl.
    now rewrite !dict_get_dict_update_other by assumption.
Qed.

(** An update with the empty configuration. *)
Lemma stored_config_is_kept_witness :
  let d := {| installations :=
                [{| i_fields := [("install_id", "install"); ("app_id", "app")];
                    i_config := Some [("folder", "7")];
                    i_oauth_token := None |}];
              sessions := []; cache := [] |} in
  get_installation_config "app" "install"
    (snd (update_installation "app" "install" [("base_url", "https://base")]
            (Some []) d))
  = Some [("folder", "7")].
Proof.
  intros d.
  refine (stored_config_is_kept "app" "install" [("base_url", "https://base")]
            (Some []) d _ eq_refl _ eq_refl eq_refl).
  intros k [<- | []]. reflexivity.
Defined.

(** X28.  A token manager reads the store at most once: after a [get]
    that returned a token, every later [get] of that manager returns the
    same token without reading the store, whatever the store holds by
    then. *)
Theorem token_manager_reads_store_once (self : Auth.TokenManager) (d : db)
    (tok : token) :
  fst (Auth.get self d) = Some tok ->
  forall d', Auth.get (snd (Auth.get self d)) d'
             = (Some tok, snd (Auth.get self d)).
Proof.
  unfold Auth.get. intros H d'.
  destruct (Auth._token self) as [t|] eqn:Et; simpl in *.
  - rewrite Et. now rewrite H.
  - now rewrite H.
Qed.

(** A manager that has read a token does not see the uninstall. *)
Lemma token_manager_reads_store_once_witness :
  let d := {| installations :=
                [{| i_fields := [("install_id", "install"); ("app_id", "app")];
                    i_config := None;
                    i_oauth_token := Some [("access_token", "secret")] |}];
              sessions := []; cache := [] |} in
  let manager := snd (Auth.get (Auth.new_TokenManager "app" "install") d) in
  fst (Auth.get manager (snd (delete_installation "app" "install" d)))
  = Some [("access_token", "secret")]
  /\ get_token "app" "install" (snd (delete_installation "app" "install" d))
     = None.
Proof.
  intros d manager. split; [ | reflexivity].
  unfold manager.
  now rewrite (token_manager_reads_store_once
                 (Auth.new_TokenManager "app" "install") d
                 [("access_token", "secret")] eq_refl).
Defined.

End StoredRecords.
